(** * crypto-pulse-minions: the ingestion fan-out and the queue consumer

    A shallow embedding of [services/binance.js] (the ingestion side:
    dispatcher, extrema tracker, dual-sink publisher) and of
    [minion/hopper-mq.js] (the consumer side), with the properties the
    specification states about them.

    The definitions come first:
    - [JS]: the JavaScript values and operators the two source files use;
    - [Redis]: the sorted-set commands the publisher sends;
    - [Binance]: [services/binance.js];
    - [Hopper]: [minion/hopper-mq.js];
    - [Queue]: the durable queue between the two;
    - [Example]: a runtime and some events to run the program on.
    The lemmas and the theorems follow, by component: the extrema tracker
    ([Tracker], [ExtremaTracker], [KlinePath]), the publisher and the cache
    ([Publisher]), the dispatcher ([Dispatcher]) and the consumer
    ([Consumer]). *)

From Stdlib Require Import ZArith QArith Qround String Ascii List Bool Lia.
Import ListNotations.

Local Open Scope string_scope.
Local Open Scope Z_scope.

(* ================================================================== *)
(** * JavaScript values and operators *)
(* ================================================================== *)

Module JS.

(** A JavaScript number.  The program only compares numbers, takes
    [Math.max], [Math.min] and [%] of them; all four are exact on IEEE
    doubles, so a finite double is represented by the rational it denotes.
    The two zeros are not told apart (no operation of the program does). *)
Inductive number :=
| NaN
| NegInfinity
| Finite (q : Q)
| Infinity.

(** A JavaScript value.  [VJson v] is the string [JSON.stringify(v)], kept
    symbolic: its characters are never needed to follow the program, only
    what [JSON.parse] makes of it.  Arrays do not occur in the frames of
    either stream nor in the objects the program builds and are left out. *)
#[warnings="-register-all"]
Inductive value :=
| VUndefined
| VNull
| VBoolean (b : bool)
| VNumber (n : number)
| VString (s : string)
| VJson (v : value)
| VObject (fields : list (string * value)).

(** An [Error] object, as a collaborator hands it to a callback. *)
Record Error := { message : string }.

Inductive exn :=
| TypeError
| SyntaxError
| Raised (e : Error).

(** The built-ins of the runtime that read the characters of a string.
    They are parameters of the development; every theorem holds for any
    runtime. *)
Class Runtime := {
  (** [parseFloat] on the characters of a string *)
  parseFloat_chars : string -> number;
  (** [ToNumber] on the characters of a string *)
  StringToNumber : string -> number;
  (** [parseInt] on the characters of a string *)
  parseInt_chars : string -> number;
  (** [JSON.parse] on the characters of a string; [None] is a [SyntaxError] *)
  JSON_parse_chars : string -> option value;
  (** the characters of [JSON.stringify(v)] *)
  JSON_chars : value -> string
}.

(** ** Numbers *)

Definition zero : number := Finite 0.

(** [a === b] on numbers. *)
Definition num_eq (a b : number) : bool :=
  match a, b with
  | NegInfinity, NegInfinity => true
  | Infinity, Infinity => true
  | Finite x, Finite y => Qeq_bool x y
  | _, _ => false
  end.

(** [a < b] on numbers. *)
Definition num_lt (a b : number) : bool :=
  match a, b with
  | NaN, _ | _, NaN => false
  | NegInfinity, NegInfinity => false
  | NegInfinity, _ => true
  | Finite _, NegInfinity => false
  | Finite x, Finite y => match (x ?= y)%Q with Lt => true | _ => false end
  | Finite _, Infinity => true
  | Infinity, _ => false
  end.

(** [a <= b] on numbers. *)
Definition num_le (a b : number) : bool :=
  match a, b with
  | NaN, _ | _, NaN => false
  | NegInfinity, _ => true
  | Finite _, NegInfinity => false
  | Finite x, Finite y => match (x ?= y)%Q with Gt => false | _ => true end
  | Finite _, Infinity => true
  | Infinity, Infinity => true
  | Infinity, _ => false
  end.

Definition is_NaN (a : number) : bool :=
  match a with NaN => true | _ => false end.

(** The integer part of a rational, rounding toward zero. *)
Definition Qtrunc (q : Q) : Z := Z.quot (Qnum q) (Zpos (Qden q)).

(** The remainder of [a] by a non-zero [b], with the sign of [a]. *)
Definition Qrem (a b : Q) : Q := (a - b * inject_Z (Qtrunc (a / b)))%Q.

(** [a % b]. *)
Definition js_rem (a b : number) : number :=
  match a, b with
  | NaN, _ | _, NaN => NaN
  | NegInfinity, _ | Infinity, _ => NaN
  | Finite x, NegInfinity | Finite x, Infinity => Finite x
  | Finite x, Finite y => if Qeq_bool y 0 then NaN else Finite (Qrem x y)
  end.

(** [a - b], for finite operands (the only use is [Date.now() - 3600000]). *)
Definition js_sub (a b : number) : number :=
  match a, b with
  | Finite x, Finite y => Finite (x - y)
  | _, _ => NaN
  end.

(** ** Values *)

Section WithRuntime.
Context {RT : Runtime}.

(** [ToNumber(v)]. *)
Definition toNumber (v : value) : number :=
  match v with
  | VUndefined => NaN
  | VNull => Finite 0
  | VBoolean b => Finite (if b then 1 else 0)
  | VNumber n => n
  | VString s => StringToNumber s
  | VJson x => StringToNumber (JSON_chars x)
  | VObject _ => NaN
  end.

(** [parseFloat(v)]: the argument is turned into a string and its longest
    numeric prefix is read; a number prints to a string that reads back as
    itself, and no other non-string value prints to a numeric prefix. *)
Definition parseFloat (v : value) : number :=
  match v with
  | VNumber n => n
  | VString s => parseFloat_chars s
  | VJson x => parseFloat_chars (JSON_chars x)
  | VUndefined | VNull | VBoolean _ | VObject _ => NaN
  end.

(** The characters of a value of type string. *)
Definition chars (v : value) : option string :=
  match v with
  | VString s => Some s
  | VJson x => Some (JSON_chars x)
  | _ => None
  end.

(** [ToPrimitive(v)] when it is a string: strings, and objects, which print
    as ["[object Object]"]. *)
Definition primitive_string (v : value) : option string :=
  match v with
  | VObject _ => Some "[object Object]"
  | _ => chars v
  end.

(** [a < b] on values: two strings are compared by their characters, any
    other pair as numbers. *)
Definition js_lt (a b : value) : bool :=
  match primitive_string a, primitive_string b with
  | Some x, Some y => String.ltb x y
  | _, _ => num_lt (toNumber a) (toNumber b)
  end.

(** [a > b]. *)
Definition js_gt (a b : value) : bool := js_lt b a.

(** [Math.max(a, b)] and [Math.min(a, b)]. *)
Definition Math_max (a b : value) : number :=
  let x := toNumber a in
  let y := toNumber b in
  if is_NaN x || is_NaN y then NaN else if num_lt x y then y else x.

Definition Math_min (a b : value) : number :=
  let x := toNumber a in
  let y := toNumber b in
  if is_NaN x || is_NaN y then NaN else if num_lt y x then y else x.

(** [n === v] for a number [n] and any value [v]. *)
Definition strict_eq_number (n : number) (v : value) : bool :=
  match v with
  | VNumber m => num_eq n m
  | _ => false
  end.

(** [!v] is [negb (truthy v)].  The text of [JSON.stringify] is never the
    empty string. *)
Definition truthy (v : value) : bool :=
  match v with
  | VUndefined | VNull => false
  | VBoolean b => b
  | VNumber NaN => false
  | VNumber (Finite q) => negb (Qeq_bool q 0)
  | VNumber _ => true
  | VString s => negb (s =? "")%string
  | VJson _ => true
  | VObject _ => true
  end.

(** ** Objects *)

Fixpoint field (fields : list (string * value)) (k : string) : value :=
  match fields with
  | [] => VUndefined
  | (k', v) :: rest => if (k' =? k)%string then v else field rest k
  end.

(** [o.k], for the property names this program reads (none of them is a
    built-in property of a string, a number or an object). *)
Definition prop (o : value) (k : string) : exn + value :=
  match o with
  | VUndefined | VNull => inl TypeError
  | VObject fields => inr (field fields k)
  | VBoolean _ | VNumber _ | VString _ | VJson _ => inr VUndefined
  end.

(** ** JSON *)

(** What [JSON.parse(JSON.stringify(v))] is: properties whose value is
    [undefined] are not written, and a number that is not finite is written
    [null]. *)
Fixpoint json_clean (v : value) : value :=
  match v with
  | VNumber (Finite _) => v
  | VNumber _ => VNull
  | VObject fields =>
      VObject
        ((fix clean (l : list (string * value)) : list (string * value) :=
            match l with
            | [] => []
            | (k, VUndefined) :: rest => clean rest
            | (k, x) :: rest => (k, json_clean x) :: clean rest
            end) fields)
  | _ => v
  end.

(** [JSON.stringify(v)]; it is [undefined] for [undefined]. *)
Definition JSON_stringify (v : value) : value :=
  match v with
  | VUndefined => VUndefined
  | _ => VJson v
  end.

(** [JSON.parse(text)]: the argument is turned into a string first. *)
Definition JSON_parse (text : value) : exn + value :=
  match text with
  | VJson v => inr (json_clean v)
  | VString s =>
      match JSON_parse_chars s with
      | Some v => inr v
      | None => inl SyntaxError
      end
  | VNull => inr VNull
  | VBoolean b => inr (VBoolean b)
  | VNumber (Finite q) => inr (VNumber (Finite q))
  | VNumber _ | VUndefined | VObject _ => inl SyntaxError
  end.

(** ** Strings *)

(** [s.split(sep)] for a one-character separator. *)
Fixpoint split (sep : ascii) (s : string) : list string :=
  match s with
  | EmptyString => [EmptyString]
  | String c rest =>
      if Ascii.eqb c sep then EmptyString :: split sep rest
      else match split sep rest with
           | [] => [String c EmptyString]
           | piece :: pieces => String c piece :: pieces
           end
  end.

End WithRuntime.

(** A template literal: its fixed pieces and the values substituted. *)
Inductive piece :=
| Lit (s : string)
| Sub (v : value).

Definition template := list piece.

(** The properties every object inherits from [Object.prototype]. *)
Definition Object_prototype : list string :=
  [ "constructor"; "__defineGetter__"; "__defineSetter__"; "hasOwnProperty";
    "__lookupGetter__"; "__lookupSetter__"; "isPrototypeOf";
    "propertyIsEnumerable"; "toString"; "valueOf"; "__proto__";
    "toLocaleString" ].

(** Of these, called as a plain function on one argument, [constructor] and
    [toString] return, and so does [isPrototypeOf] when the argument is not
    an object; the others throw a [TypeError] ([__proto__] is not a
    function, the rest need a [this]). *)
Definition inherited_returns (name : string) (arg : value) : bool :=
  ((name =? "constructor") || (name =? "toString")
   || ((name =? "isPrototypeOf")
       && match arg with VObject _ => false | _ => true end))%string.

(** [callbacks[name]] on an object literal whose own properties are
    functions: an own property, an inherited one, or [undefined]. *)
Inductive property (F : Type) :=
| Own (f : F)
| Inherited
| Absent.
Arguments Own {F} f.
Arguments Inherited {F}.
Arguments Absent {F}.

Fixpoint own {F} (o : list (string * F)) (name : string) : option F :=
  match o with
  | [] => None
  | (k, f) :: rest => if (k =? name)%string then Some f else own rest name
  end.

Definition lookup {F} (o : list (string * F)) (name : string) : property F :=
  match own o name with
  | Some f => Own f
  | None =>
      if existsb (fun k => (k =? name)%string) Object_prototype then Inherited
      else Absent
  end.

(** ** Conversions that can throw *)

(** A primitive value: anything but an object. *)
Definition primitive (v : value) : bool :=
  match v with
  | VObject _ => false
  | _ => true
  end.

(** [ToPrimitive(v)] asks an object for its [toString] and its [valueOf].
    No property of an object of this development is a function.  So an
    own property [toString] hides [Object.prototype.toString], the
    inherited [valueOf] gives back the object, and the conversion throws a
    [TypeError]; without such a property the inherited [toString] answers
    ["[object Object]"].  A primitive value converts to itself. *)
Definition converts (v : value) : bool :=
  match v with
  | VObject fields => negb (existsb (fun kv => (fst kv =? "toString")%string) fields)
  | _ => true
  end.

Definition ToPrimitive (v : value) : exn + unit :=
  if converts v then inr tt else inl TypeError.

(** [isFinite(n)] on a number. *)
Definition is_finite (n : number) : bool :=
  match n with
  | Finite _ => true
  | _ => false
  end.

Section Texts.
Context {RT : Runtime}.

(** The characters of [String(v)] (and of [v] in a template literal) for a
    value that converts.  A finite number prints as [JSON.stringify]
    prints it. *)
Definition String_chars (v : value) : string :=
  match v with
  | VUndefined => "undefined"
  | VNull => "null"
  | VBoolean true => "true"
  | VBoolean false => "false"
  | VNumber NaN => "NaN"
  | VNumber NegInfinity => "-Infinity"
  | VNumber Infinity => "Infinity"
  | VNumber (Finite _) => JSON_chars v
  | VString s => s
  | VJson x => JSON_chars x
  | VObject _ => "[object Object]"
  end.

(** [parseInt(String(v))] for a value that converts: only the text of a
    string or of a finite number can start with digits. *)
Definition parseInt (v : value) : number :=
  match v with
  | VString _ | VJson _ | VNumber (Finite _) => parseInt_chars (String_chars v)
  | _ => NaN
  end.

End Texts.

End JS.

(* ================================================================== *)
(** * The sorted-set commands of the sliding-window cache *)
(* ================================================================== *)

Module Redis.
Import JS.

(** The commands the publisher sends, with their arguments as it passes
    them. *)
Inductive command :=
| ZADD (key : template) (score : value) (member : value)
| ZREMRANGEBYSCORE (key : template) (min max : number)
| SET (key : template) (v : value).

(** A sorted set: its members, each with its score. *)
Definition zset := list (value * number).

Section WithRuntime.
Context {RT : Runtime}.

(** Two members are the same when they are the same text. *)
Definition same_member (a b : value) : bool :=
  match chars a, chars b with
  | Some s, Some t => (s =? t)%string
  | _, _ => false
  end.

(** The score argument as the server reads it: a double that is not a
    NaN, or an error reply. *)
Definition score_of (v : value) : option number :=
  match v with
  | VNumber n => if is_NaN n then None else Some n
  | VString _ | VJson _ =>
      let n := toNumber v in if is_NaN n then None else Some n
  | VUndefined | VNull | VBoolean _ | VObject _ => None
  end.

(** [ZADD key score member]: a member already in the set takes the new
    score, a new member is added. *)
Fixpoint zadd (score : number) (member : value) (z : zset) : zset :=
  match z with
  | [] => [(member, score)]
  | (m, s) :: rest =>
      if same_member m member then (m, score) :: rest
      else (m, s) :: zadd score member rest
  end.

(** [ZREMRANGEBYSCORE key min max]: removes the members whose score is
    between [min] and [max], both included. *)
Definition zremrangebyscore (min max : number) (z : zset) : zset :=
  filter (fun e => negb (num_le min (snd e) && num_le (snd e) max)) z.

(** One command applied to the sorted set it addresses.  A command that
    gets an error reply changes nothing. *)
Definition run (c : command) (z : zset) : zset :=
  match c with
  | ZADD _ score member =>
      match score_of score with
      | Some n => zadd n member z
      | None => z
      end
  | ZREMRANGEBYSCORE _ min max => zremrangebyscore min max z
  | SET _ _ => z
  end.

(** [MULTI ... EXEC]: the queued commands run in order, with no other
    client's command between them. *)
Definition exec (cmds : list command) (z : zset) : zset :=
  fold_left (fun z c => run c z) cmds z.

End WithRuntime.

Definition key_of (c : command) : template :=
  match c with
  | ZADD key _ _ | ZREMRANGEBYSCORE key _ _ | SET key _ => key
  end.

End Redis.

(* ================================================================== *)
(** * services/binance.js *)
(* ================================================================== *)

Module Binance.
Import JS.

(** [env.wsBinance] and [process.pid]. *)
Class Env := {
  wsBinance : string;
  pid : Z
}.

Inductive kind := Trade | Kline.

(** What the module asks of its collaborators: an enqueue on the durable
    queue ([rabbit.sendQueue(queue, content, priority, delay, callback)],
    [k] naming the callback that was passed), a [multi()...exec()]
    transaction on the cache ([k] naming the continuation attached to its
    promise), and a [pipeline()...exec()]. *)
Inductive request :=
| SendQueue (queue : string) (content : value) (priority delay : Z) (k : kind)
| Multi (cmds : list Redis.command) (k : kind)
| Pipeline (cmds : list Redis.command).

(** A line of the error log: [logger.error] of a template literal, of a
    fixed string, or of an [Error] object. *)
Inductive log_entry :=
| ErrorText (text : template)
| ErrorObject (e : Error).

(** An object whose property names are numbers (its keys are the decimal
    names of the numbers, so two numbers that are equal name the same
    property, and so does [NaN] with itself). *)
Definition obj := list (number * value).

Definition same_key (a b : number) : bool :=
  match a, b with
  | NaN, NaN => true
  | _, _ => num_eq a b
  end.

(** [o[k]] *)
Fixpoint get (o : obj) (k : number) : value :=
  match o with
  | [] => VUndefined
  | (k', v) :: rest => if same_key k' k then v else get rest k
  end.

(** [o[k] = v] *)
Fixpoint set (o : obj) (k : number) (v : value) : obj :=
  match o with
  | [] => [(k, v)]
  | (k', v') :: rest =>
      if same_key k' k then (k', v) :: rest else (k', v') :: set rest k v
  end.

(** [k] names one of the keys of [l]. *)
Definition mem (k : number) (l : list number) : bool := existsb (same_key k) l.

(** No two keys of [l] name the same property. *)
Fixpoint distinct (l : list number) : bool :=
  match l with
  | [] => true
  | k :: rest => negb (mem k rest) && distinct rest
  end.

(** The module's variables, the error log and the requests issued so far
    (oldest first). *)
Record world := {
  highPrices : obj;
  lowPrices : obj;
  succK : Z;
  succT : Z;
  failK : Z;
  failT : Z;
  log : list log_entry;
  out : list request
}.

Definition with_highPrices (w : world) (o : obj) : world :=
  {| highPrices := o; lowPrices := lowPrices w;
     succK := succK w; succT := succT w; failK := failK w; failT := failT w;
     log := log w; out := out w |}.

Definition with_lowPrices (w : world) (o : obj) : world :=
  {| highPrices := highPrices w; lowPrices := o;
     succK := succK w; succT := succT w; failK := failK w; failT := failT w;
     log := log w; out := out w |}.

Definition with_counters (w : world) (sK sT fK fT : Z) : world :=
  {| highPrices := highPrices w; lowPrices := lowPrices w;
     succK := sK; succT := sT; failK := fK; failT := fT;
     log := log w; out := out w |}.

Definition with_log (w : world) (l : list log_entry) : world :=
  {| highPrices := highPrices w; lowPrices := lowPrices w;
     succK := succK w; succT := succT w; failK := failK w; failT := failT w;
     log := l; out := out w |}.

Definition with_out (w : world) (o : list request) : world :=
  {| highPrices := highPrices w; lowPrices := lowPrices w;
     succK := succK w; succT := succT w; failK := failK w; failT := failT w;
     log := log w; out := o |}.

(** A piece of the program: it runs on a world, returns or throws, and
    leaves a world. *)
Definition M (A : Type) : Type := world -> (exn + A) * world.

Definition ret {A} (a : A) : M A := fun w => (inr a, w).

Definition bind {A B} (c : M A) (k : A -> M B) : M B :=
  fun w =>
    match c w with
    | (inr a, w') => k a w'
    | (inl e, w') => (inl e, w')
    end.

Definition throw {A} (e : exn) : M A := fun w => (inl e, w).

Definition lift {A} (r : exn + A) : M A := fun w => (r, w).

Definition modify (f : world -> world) : M unit := fun w => (inr tt, f w).

Notation "x <- c ;; k" := (bind c (fun x => k))
  (at level 61, c at next level, right associativity).
Notation "c ;;; k" := (bind c (fun _ => k))
  (at level 61, right associativity).

Definition logger_error (l : log_entry) : M unit :=
  modify (fun w => with_log w (log w ++ [l])).

Definition issue (r : request) : M unit :=
  modify (fun w => with_out w (out w ++ [r])).

(** ** The Interval Set and the extrema *)

Local Open Scope Q_scope.

(** [const intervals = Object.freeze([5, 10, ..., Infinity])] *)
Definition intervals : list number :=
  [ Finite 5; Finite 10; Finite 15; Finite 30; Finite 60; Finite 900;
    Finite 1800; Finite 3600; Finite 86400; Finite 604800; Finite 2592000;
    Finite 7776000; Finite 15552000; Finite 31536000; Infinity ].

(** [Object.fromEntries(intervals.map(interval =>
       [interval, interval === Infinity ? -Infinity : Infinity]))] *)
Definition fromEntries : obj :=
  map (fun interval =>
         (interval,
          VNumber (if num_eq interval Infinity then NegInfinity else Infinity)))
      intervals.

(** [const [highPrices, lowPrices] = Array.from({ length: intervals.length },
       () => Object.fromEntries(...))]: the first two of fifteen objects
    built by the same function. *)
Definition initial_highPrices : obj := nth 0 (repeat fromEntries (length intervals)) [].
Definition initial_lowPrices : obj := nth 1 (repeat fromEntries (length intervals)) [].

(** The module just loaded: [let [succK, succT, failK, failT] = [0, 0, 0, 0, 0, 0]]. *)
Definition initial : world :=
  {| highPrices := initial_highPrices; lowPrices := initial_lowPrices;
     succK := 0%Z; succT := 0%Z; failK := 0%Z; failT := 0%Z;
     log := []; out := [] |}.

Local Close Scope Q_scope.

Section WithRuntime.
Context {RT : Runtime} {E : Env}.

(** ** processTrade *)

(** [timestamp % interval === 0] *)
Definition boundary (timestamp : value) (interval : number) : bool :=
  num_eq (js_rem (toNumber timestamp) interval) zero.

(** The body of the first loop of [processTrade], for one interval. *)
Definition sample (timestamp : value) (price : number) (w : world)
    (interval : number) : world :=
  if boundary timestamp interval then
    let w1 :=
      with_highPrices w
        (set (highPrices w) interval
           (VNumber (Math_max (get (highPrices w) interval) (VNumber price)))) in
    with_lowPrices w1
      (set (lowPrices w1) interval
         (VNumber (Math_min (get (lowPrices w1) interval) (VNumber price))))
  else w.

(** [for (const interval of intervals) { if (...) {...} }] *)
Definition sampleTrade (timestamp : value) (price : number) (w : world) : world :=
  fold_left (sample timestamp price) intervals w.

Arguments sampleTrade : simpl never.

(** [Date.now() - 60 * 60 * 1000], the clock reading [now] in milliseconds. *)
Definition cutoff (now : Z) : number :=
  js_sub (Finite (inject_Z now)) (Finite (inject_Z (60 * 60 * 1000))).

(** The frozen [tradeObject]. *)
Definition tradeObject (trade : value) (price : number) : M value :=
  e <- lift (prop trade "e") ;;
  E' <- lift (prop trade "E") ;;
  s <- lift (prop trade "s") ;;
  t <- lift (prop trade "t") ;;
  q <- lift (prop trade "q") ;;
  b <- lift (prop trade "b") ;;
  a <- lift (prop trade "a") ;;
  T <- lift (prop trade "T") ;;
  m <- lift (prop trade "m") ;;
  E'' <- lift (prop trade "E") ;;
  ret (VObject
         [ ("subId", VNumber (Finite (inject_Z pid)));
           ("exchange", VString "binance");
           ("eventType", e);
           ("eventTime", E');
           ("symbol", s);
           ("tradeId", t);
           ("price", VNumber price);
           ("quantity", VNumber (parseFloat q));
           ("buyerOrderId", b);
           ("sellerOrderId", a);
           ("tradeTime", T);
           ("isBuyerMarketMaker", m);
           ("timestamp", E'') ]).

(** [processTrade] from the comment [// Publish the trade object ...] on:
    the first enqueue and the cache transaction. *)
Definition publishTrade (trade timestamp : value) (price : number) (now : Z) : M unit :=
  tradeObject <- tradeObject trade price ;;
  issue (SendQueue wsBinance (JSON_stringify tradeObject) 0 0 Trade) ;;;
  s <- lift (prop trade "s") ;;
  let channelName := [Lit "trade:"; Sub s; Lit ":binance"] in
  let scoreValue := JSON_stringify tradeObject in
  let cutoff := cutoff now in
  issue (Multi [ Redis.ZADD channelName timestamp scoreValue;
                 Redis.ZREMRANGEBYSCORE channelName zero cutoff ] Trade).

(** The synchronous part of [processTrade(trade)]: the extrema, then the
    publishing. *)
Definition processTrade (trade : value) (now : Z) : M unit :=
  timestamp <- lift (prop trade "E") ;;
  p <- lift (prop trade "p") ;;
  let price := parseFloat p in
  modify (sampleTrade timestamp price) ;;;
  publishTrade trade timestamp price now.

(** The callback of both enqueues of [processTrade]:
    [(err) => { if (err) { failT++; logger.error(err); } succT++; }] *)
Definition tradeQueueCallback (err : option Error) : M unit :=
  match err with
  | Some e =>
      modify (fun w => with_counters w (succK w) (succT w) (failK w) (failT w + 1)) ;;;
      logger_error (ErrorObject e)
  | None => ret tt
  end ;;;
  modify (fun w => with_counters w (succK w) (succT w + 1) (failK w) (failT w)).

(** The body of the loop in the [.then] of the cache transaction, for one
    interval. *)
Definition snapshot (trade timestamp : value) (interval : number) : M unit :=
  if boundary timestamp interval then
    fun w =>
      (let highPriceObject :=
         VObject [("interval", VNumber interval); ("price", get (highPrices w) interval)] in
       let lowPriceObject :=
         VObject [("interval", VNumber interval); ("price", get (lowPrices w) interval)] in
       s <- lift (prop trade "s") ;;
       let highPriceChannel :=
         [Lit "high:"; Sub (VNumber interval); Lit ":"; Sub s; Lit ":binance"] in
       s' <- lift (prop trade "s") ;;
       let lowPriceChannel :=
         [Lit "low:"; Sub (VNumber interval); Lit ":"; Sub s'; Lit ":binance"] in
       issue (Pipeline [ Redis.SET highPriceChannel (JSON_stringify highPriceObject);
                         Redis.SET lowPriceChannel (JSON_stringify lowPriceObject) ])) w
  else ret tt.

Fixpoint snapshots (trade timestamp : value) (l : list number) : M unit :=
  match l with
  | [] => ret tt
  | interval :: rest =>
      snapshot trade timestamp interval ;;; snapshots trade timestamp rest
  end.

(** The [.then] of the cache transaction of [processTrade]; [timestamp]
    and [tradeObject] are the constants of the call that issued it. *)
Definition tradeCacheThen (trade timestamp tradeObject : value) : M unit :=
  snapshots trade timestamp intervals ;;;
  issue (SendQueue wsBinance (JSON_stringify tradeObject) 0 300 Trade).

(** The [.catch] of the cache transaction of [processTrade]. *)
Definition tradeCacheCatch (err : Error) : M unit :=
  logger_error (ErrorText [Lit "Error processing trade: "; Sub (VString (message err))]) ;;;
  throw (Raised err).

(** ** processKline *)

(** The frozen [klineObject]. *)
Definition klineObject (kline klineData : value) : M value :=
  e <- lift (prop kline "e") ;;
  t <- lift (prop klineData "t") ;;
  s <- lift (prop klineData "s") ;;
  i <- lift (prop klineData "i") ;;
  o <- lift (prop klineData "o") ;;
  h <- lift (prop klineData "h") ;;
  l <- lift (prop klineData "l") ;;
  c <- lift (prop klineData "c") ;;
  v <- lift (prop klineData "v") ;;
  n <- lift (prop klineData "n") ;;
  x <- lift (prop klineData "x") ;;
  q <- lift (prop klineData "q") ;;
  V <- lift (prop klineData "V") ;;
  T <- lift (prop klineData "T") ;;
  ret (VObject
         [ ("subId", VNumber (Finite (inject_Z pid)));
           ("exchange", VString "binance");
           ("eventType", e);
           ("eventTime", t);
           ("symbol", s);
           ("interval", i);
           ("open", VNumber (parseFloat o));
           ("high", VNumber (parseFloat h));
           ("low", VNumber (parseFloat l));
           ("close", VNumber (parseFloat c));
           ("volume", VNumber (parseFloat v));
           ("trades", n);
           ("isFinal", x);
           ("quoteAssetVolume", VNumber (parseFloat q));
           ("baseAssetVolume", VNumber (parseFloat V));
           ("timestamp", T) ]).

(** [intervals.findIndex((interval) => interval === i) !== -1] *)
Definition found (i : value) : bool :=
  existsb (fun interval => strict_eq_number interval i) intervals.

(** The key [highPrices[i]] names when [i] is a number. *)
Definition key (i : value) : number :=
  match i with
  | VNumber n => n
  | _ => NaN
  end.

(** The update of the extrema in [processKline], on [klineData.i],
    [klineData.h] and [klineData.l]. *)
Definition sampleKline (i h l : value) (w : world) : world :=
  if found i then
    let highPrice := get (highPrices w) (key i) in
    let lowPrice := get (lowPrices w) (key i) in
    let w1 :=
      if js_gt h highPrice then with_highPrices w (set (highPrices w) (key i) h)
      else w in
    if js_lt l lowPrice then with_lowPrices w1 (set (lowPrices w1) (key i) l)
    else w1
  else w.

(** The callback of the enqueue of [processKline]:
    [(err) => { if (err) { failK++; logger.error(err); } succK++; }] *)
Definition klineQueueCallback (err : option Error) : M unit :=
  match err with
  | Some e =>
      modify (fun w => with_counters w (succK w) (succT w) (failK w + 1) (failT w)) ;;;
      logger_error (ErrorObject e)
  | None => ret tt
  end ;;;
  modify (fun w => with_counters w (succK w + 1) (succT w) (failK w) (failT w)).

(** [processKline] from the comment [// Publish the Kline object to
    RabbitMQ] on: the enqueue and the cache transaction. *)
Definition publishKline (klineData klineObject : value) (now : Z) : M unit :=
  issue (SendQueue wsBinance (JSON_stringify klineObject) 0 300 Kline) ;;;
  s <- lift (prop klineData "s") ;;
  i <- lift (prop klineData "i") ;;
  let channelName := [Lit "kline:"; Sub s; Lit ":"; Sub i; Lit ":binance"] in
  let scoreValue := JSON_stringify klineObject in
  let cutoff := cutoff now in
  T <- lift (prop klineData "T") ;;
  issue (Multi [ Redis.ZADD channelName T scoreValue;
                 Redis.ZREMRANGEBYSCORE channelName zero cutoff ] Kline).

(** The synchronous part of [processKline(kline)]: the canonical kline,
    the extrema, then the publishing. *)
Definition processKline (kline : value) (now : Z) : M unit :=
  klineData <- lift (prop kline "k") ;;
  klineObject <- klineObject kline klineData ;;
  i <- lift (prop klineData "i") ;;
  h <- lift (prop klineData "h") ;;
  l <- lift (prop klineData "l") ;;
  modify (sampleKline i h l) ;;;
  publishKline klineData klineObject now.

(** The [.catch] of the cache transaction of [processKline] (its [.then()]
    has no callback). *)
Definition klineCacheCatch (err : Error) : M unit :=
  logger_error (ErrorText [Lit "Error processing kline: "; Sub (VString (message err))]) ;;;
  throw (Raised err).

(** The canonical trade [processTrade] builds from the properties of a
    trade event. *)
Definition canonicalTrade (fields : list (string * value)) : value :=
  VObject
    [ ("subId", VNumber (Finite (inject_Z pid)));
      ("exchange", VString "binance");
      ("eventType", field fields "e");
      ("eventTime", field fields "E");
      ("symbol", field fields "s");
      ("tradeId", field fields "t");
      ("price", VNumber (parseFloat (field fields "p")));
      ("quantity", VNumber (parseFloat (field fields "q")));
      ("buyerOrderId", field fields "b");
      ("sellerOrderId", field fields "a");
      ("tradeTime", field fields "T");
      ("isBuyerMarketMaker", field fields "m");
      ("timestamp", field fields "E") ].

(** The two requests of the synchronous part of [processTrade]. *)
Definition tradeRequests (fields : list (string * value)) (now : Z) : list request :=
  let channelName := [Lit "trade:"; Sub (field fields "s"); Lit ":binance"] in
  [ SendQueue wsBinance (JSON_stringify (canonicalTrade fields)) 0 0 Trade;
    Multi [ Redis.ZADD channelName (field fields "E")
              (JSON_stringify (canonicalTrade fields));
            Redis.ZREMRANGEBYSCORE channelName zero (cutoff now) ] Trade ].

(** The canonical kline [processKline] builds from the properties of a
    kline event and of its [k]. *)
Definition canonicalKline (fields kfields : list (string * value)) : value :=
  VObject
    [ ("subId", VNumber (Finite (inject_Z pid)));
      ("exchange", VString "binance");
      ("eventType", field fields "e");
      ("eventTime", field kfields "t");
      ("symbol", field kfields "s");
      ("interval", field kfields "i");
      ("open", VNumber (parseFloat (field kfields "o")));
      ("high", VNumber (parseFloat (field kfields "h")));
      ("low", VNumber (parseFloat (field kfields "l")));
      ("close", VNumber (parseFloat (field kfields "c")));
      ("volume", VNumber (parseFloat (field kfields "v")));
      ("trades", field kfields "n");
      ("isFinal", field kfields "x");
      ("quoteAssetVolume", VNumber (parseFloat (field kfields "q")));
      ("baseAssetVolume", VNumber (parseFloat (field kfields "V")));
      ("timestamp", field kfields "T") ].

(** The two requests of the synchronous part of [processKline]. *)
Definition klineRequests (fields kfields : list (string * value)) (now : Z)
    : list request :=
  let channelName :=
    [Lit "kline:"; Sub (field kfields "s"); Lit ":"; Sub (field kfields "i");
     Lit ":binance"] in
  [ SendQueue wsBinance (JSON_stringify (canonicalKline fields kfields)) 0 300 Kline;
    Multi [ Redis.ZADD channelName (field kfields "T")
              (JSON_stringify (canonicalKline fields kfields));
            Redis.ZREMRANGEBYSCORE channelName zero (cutoff now) ] Kline ].

(** ** Runs *)

(** The requests a piece of the program adds when run on [w]. *)
Definition issued {A} (c : M A) (w : world) : list request :=
  skipn (length (out w)) (out (snd (c w))).

(** The commands of the cache transactions among some requests. *)
Definition transaction (rs : list request) : list Redis.command :=
  flat_map (fun r => match r with Multi cmds _ => cmds | _ => [] end) rs.

(** The snapshot of one interval, as the [.then] of the cache transaction
    writes it when it runs on [w]. *)
Definition snapshotRequest (fields : list (string * value)) (w : world)
    (interval : number) : request :=
  Pipeline
    [ Redis.SET [Lit "high:"; Sub (VNumber interval); Lit ":";
                 Sub (field fields "s"); Lit ":binance"]
        (JSON_stringify
           (VObject [("interval", VNumber interval);
                     ("price", get (highPrices w) interval)]));
      Redis.SET [Lit "low:"; Sub (VNumber interval); Lit ":";
                 Sub (field fields "s"); Lit ":binance"]
        (JSON_stringify
           (VObject [("interval", VNumber interval);
                     ("price", get (lowPrices w) interval)])) ].

(** The intervals a trade with this timestamp is sampled against. *)
Definition sampled (timestamp : value) : list number :=
  filter (boundary timestamp) intervals.

(** The events the tracker sees, each with the clock reading at which it
    is processed. *)
Inductive event :=
| TradeEvent (trade : value) (now : Z)
| KlineEvent (kline : value) (now : Z).

Definition step (w : world) (ev : event) : world :=
  match ev with
  | TradeEvent trade now => snd (processTrade trade now w)
  | KlineEvent kline now => snd (processKline kline now w)
  end.

Definition run (evs : list event) (w : world) : world := fold_left step evs w.

(** A trade event whose timestamp, when it has one, is not zero. *)
Definition nonzero_timestamp (ev : event) : Prop :=
  match ev with
  | TradeEvent trade _ =>
      forall timestamp,
        prop trade "E" = inr timestamp -> num_eq (toNumber timestamp) zero = false
  | KlineEvent _ _ => False
  end.

(** A value that is a number, and one that is a number other than NaN. *)
Definition is_number (v : value) : bool :=
  match v with VNumber _ => true | _ => false end.

Definition numeric (v : value) : bool :=
  match v with VNumber n => negb (is_NaN n) | _ => false end.

(** Every interval of the Interval Set has a running high and a running
    low that are numbers. *)
Definition tracked (w : world) : Prop :=
  forall interval, In interval intervals ->
    numeric (get (highPrices w) interval) = true
    /\ numeric (get (lowPrices w) interval) = true.

(** An event whose prices are numbers: a trade whose price reads as a
    number; a kline whose high and low are numbers and not strings, or
    whose label is not found in the Interval Set (its prices are then not
    looked at). *)
Definition numeric_event (ev : event) : Prop :=
  match ev with
  | TradeEvent trade _ =>
      forall p, prop trade "p" = inr p -> is_NaN (parseFloat p) = false
  | KlineEvent kline _ =>
      forall klineData i h l,
        prop kline "k" = inr klineData -> prop klineData "i" = inr i ->
        prop klineData "h" = inr h -> prop klineData "l" = inr l ->
        found i = false \/ (is_number h = true /\ is_number l = true)
  end.

(** The extrema of [interval] in [w'] are numbers and are at least as wide
    as in [w]. *)
Definition widened (w w' : world) (interval : number) : Prop :=
  numeric (get (highPrices w') interval) = true
  /\ numeric (get (lowPrices w') interval) = true
  /\ num_le (toNumber (get (highPrices w) interval))
            (toNumber (get (highPrices w') interval)) = true
  /\ num_le (toNumber (get (lowPrices w') interval))
            (toNumber (get (lowPrices w) interval)) = true.

(** ** handleMessage *)

(** [const messageCallback = { kline: (data) => { processKline(data) },
       trade: (data) => { processTrade(data) } }], at the clock reading
    [now]. *)
Definition messageCallback (now : Z) : list (string * (value -> M unit)) :=
  [ ("kline", fun data => processKline data now);
    ("trade", fun data => processTrade data now) ].

(** [item.stream.split('@')[1].split('_')[0]] *)
Definition dataType (stream : value) : exn + string :=
  match chars stream with
  | None => inl TypeError
  | Some s =>
      match nth_error (split "@" s) 1 with
      | None => inl TypeError
      | Some tag => inr (hd EmptyString (split "_" tag))
      end
  end.

(** [handleMessage(data, callbacks)], [data] being the text of the frame. *)
Definition handleMessage (data : value)
    (callbacks : list (string * (value -> M unit))) : M unit :=
  item <- lift (JSON_parse data) ;;
  stream <- lift (prop item "stream") ;;
  if negb (truthy stream) then ret tt
  else
    dataType <- lift (dataType stream) ;;
    match lookup callbacks dataType with
    | Own callback =>
        data' <- lift (prop item "data") ;;
        callback data'
    | Inherited =>
        data' <- lift (prop item "data") ;;
        if inherited_returns dataType data' then ret tt else throw TypeError
    | Absent => logger_error (ErrorText [Lit "Not supported stream type"])
    end.

End WithRuntime.

End Binance.

(* ================================================================== *)
(** * minion/hopper-mq.js *)
(* ================================================================== *)

Module Hopper.
Import JS.

(** A message as the channel delivers it; [content] is the text of its
    body ([data.content.toString()]). *)
Record message := { content : value }.

Inductive field_type := intField | floatField.

(** A [Point] as the handlers build it: the measurement name, the tags as
    they were given, the fields with the number the client library keeps
    for each (it keeps its text), and the argument of [new Date(...)]. *)
Record Point := {
  measurement : template;
  tags : list (string * value);
  fields : list (string * field_type * value);
  timestamp : value
}.

Inductive kind := Trade | Kline.

(** [writeData(points)], [k] naming the continuations attached to its
    promise. *)
Inductive request :=
| WriteData (points : list Point) (k : kind).

Inductive log_entry :=
| Debug (text : template)
| ErrorLine (text : template).

Record world := {
  successKlines : Z;
  successTrades : Z;
  failedKlines : Z;
  failedTrades : Z;
  log : list log_entry;
  out : list request
}.

Definition with_counters (w : world) (sK sT fK fT : Z) : world :=
  {| successKlines := sK; successTrades := sT; failedKlines := fK;
     failedTrades := fT; log := log w; out := out w |}.

Definition with_log (w : world) (l : list log_entry) : world :=
  {| successKlines := successKlines w; successTrades := successTrades w;
     failedKlines := failedKlines w; failedTrades := failedTrades w;
     log := l; out := out w |}.

Definition with_out (w : world) (o : list request) : world :=
  {| successKlines := successKlines w; successTrades := successTrades w;
     failedKlines := failedKlines w; failedTrades := failedTrades w;
     log := log w; out := o |}.

(** [let [successKlines, successTrades, failedKlines, failedTrades] = [0, 0, 0, 0]] *)
Definition initial : world :=
  {| successKlines := 0; successTrades := 0; failedKlines := 0;
     failedTrades := 0; log := []; out := [] |}.

Definition M (A : Type) : Type := world -> (exn + A) * world.

Definition ret {A} (a : A) : M A := fun w => (inr a, w).

Definition bind {A B} (c : M A) (k : A -> M B) : M B :=
  fun w =>
    match c w with
    | (inr a, w') => k a w'
    | (inl e, w') => (inl e, w')
    end.

Definition throw {A} (e : exn) : M A := fun w => (inl e, w).

Definition lift {A} (r : exn + A) : M A := fun w => (r, w).

Definition modify (f : world -> world) : M unit := fun w => (inr tt, f w).

Notation "x <- c ;; k" := (bind c (fun x => k))
  (at level 61, c at next level, right associativity).
Notation "c ;;; k" := (bind c (fun _ => k))
  (at level 61, right associativity).

Definition logger_debug (t : template) : M unit :=
  modify (fun w => with_log w (log w ++ [Debug t])).

Definition logger_error (t : template) : M unit :=
  modify (fun w => with_log w (log w ++ [ErrorLine t])).

Definition issue (r : request) : M unit :=
  modify (fun w => with_out w (out w ++ [r])).

Section WithRuntime.
Context {RT : Runtime}.

(** [message === null] *)
Definition is_null (v : value) : bool :=
  match v with VNull => true | _ => false end.

(** ** The [Point] of [@influxdata/influxdb-client]

    [tag] and [timestamp] keep what they are given.  [floatField] and
    [intField] turn a value that is not a number into one, with
    [parseFloat(value)] and [parseInt(String(value))], and throw an
    [Error] when the number is not one they write:

    [floatField]: [if (!isFinite(val)) throw new Error(`invalid float
    value for field '${name}': '${value}'!`)];

    [intField]: [if (isNaN(val) || val <= -9223372036854776e3 || val >=
    9223372036854776e3) throw new Error(`invalid integer value for field
    '${name}': '${value}'!`)], and it keeps [Math.floor(val)]. *)

(** The [Error] of the two checks. *)
Definition invalid (type name : string) (v : value) : exn :=
  Raised {| JS.message := "invalid " ++ type ++ " value for field '" ++ name
                       ++ "': '" ++ String_chars v ++ "'!" |}.

(** The number a value is taken for: itself when it is a number, what
    [read] makes of it otherwise, once it is converted to a string. *)
Definition taken (read : value -> number) (v : value) : exn + number :=
  match v with
  | VNumber n => inr n
  | _ => match ToPrimitive v with
         | inl e => inl e
         | inr _ => inr (read v)
         end
  end.

Definition Point_floatField (name : string) (v : value) : exn + value :=
  match taken parseFloat v with
  | inl e => inl e
  | inr val =>
      if is_finite val then inr (VNumber val) else inl (invalid "float" name v)
  end.

(** The double the literal [9223372036854776e3] denotes: two to the 63. *)
Definition int64_bound : Q := inject_Z (2 ^ 63).

Definition Point_intField (name : string) (v : value) : exn + value :=
  match taken parseInt v with
  | inl e => inl e
  | inr (Finite q) =>
      if Qle_bool q (- int64_bound)%Q || Qle_bool int64_bound q
      then inl (invalid "integer" name v)
      else inr (VNumber (Finite (inject_Z (Qfloor q))))
  | inr _ => inl (invalid "integer" name v)
  end.

(** [handleTradeMessage(message)].  The two template literals convert the
    payload to a string, the name of the measurement converts the symbol,
    and [new Date(...)] converts the timestamp. *)
Definition handleTradeMessage (message : value) : M unit :=
  if is_null message then ret tt
  else
    let payload := message in
    lift (ToPrimitive payload) ;;;
    logger_debug [Lit "Writing Trade to InfluxDB: \n"; Sub payload] ;;;
    symbol <- lift (prop payload "symbol") ;;
    lift (ToPrimitive symbol) ;;;
    symbol' <- lift (prop payload "symbol") ;;
    eventType <- lift (prop payload "eventType") ;;
    isBuyerMarketMaker <- lift (prop payload "isBuyerMarketMaker") ;;
    tradeId <- lift (prop payload "tradeId") ;;
    trade_id <- lift (Point_intField "trade_id" tradeId) ;;
    price <- lift (prop payload "price") ;;
    price' <- lift (Point_floatField "price" price) ;;
    quantity <- lift (prop payload "quantity") ;;
    quantity' <- lift (Point_floatField "quantity" quantity) ;;
    timestamp <- lift (prop payload "timestamp") ;;
    lift (ToPrimitive timestamp) ;;;
    let point :=
      {| measurement := [Lit "binance_trade_"; Sub symbol];
         tags := [ ("asset", symbol'); ("type", eventType);
                   ("source", VString "minions");
                   ("isBuyerMarketMaker", isBuyerMarketMaker) ];
         fields := [ ("trade_id", intField, trade_id);
                     ("price", floatField, price');
                     ("quantity", floatField, quantity') ];
         timestamp := timestamp |} in
    lift (ToPrimitive payload) ;;;
    logger_debug [Lit "Writing Trade to InfluxDB: \n"; Sub payload] ;;;
    issue (WriteData [point] Trade).

(** The [.then] and the [.catch] of [writeData] in [handleTradeMessage]. *)
Definition tradeWriteThen : M unit :=
  modify (fun w => with_counters w (successKlines w) (successTrades w + 1)
                     (failedKlines w) (failedTrades w)).

Definition tradeWriteCatch (error : value) : M unit :=
  logger_error [Lit "Error when inserting Trades from rabbit: "; Sub error] ;;;
  modify (fun w => with_counters w (successKlines w) (successTrades w)
                     (failedKlines w) (failedTrades w + 1)).

(** [handleKlineMessage(message)] *)
Definition handleKlineMessage (message : value) : M unit :=
  if is_null message then ret tt
  else
    let payload := message in
    lift (ToPrimitive payload) ;;;
    logger_debug [Lit "Writing Kline to InfluxDB: \n"; Sub payload] ;;;
    symbol <- lift (prop payload "symbol") ;;
    lift (ToPrimitive symbol) ;;;
    symbol' <- lift (prop payload "symbol") ;;
    eventType <- lift (prop payload "eventType") ;;
    interval <- lift (prop payload "interval") ;;
    openPrice <- lift (prop payload "openPrice") ;;
    openPrice' <- lift (Point_floatField "openPrice" openPrice) ;;
    closePrice <- lift (prop payload "closePrice") ;;
    closePrice' <- lift (Point_floatField "closePrice" closePrice) ;;
    highPrice <- lift (prop payload "highPrice") ;;
    highPrice' <- lift (Point_floatField "highPrice" highPrice) ;;
    lowPrice <- lift (prop payload "lowPrice") ;;
    lowPrice' <- lift (Point_floatField "lowPrice" lowPrice) ;;
    volume <- lift (prop payload "volume") ;;
    volume' <- lift (Point_floatField "volume" volume) ;;
    trades <- lift (prop payload "trades") ;;
    trades' <- lift (Point_intField "trades" trades) ;;
    quoteAssetVolume <- lift (prop payload "quoteAssetVolume") ;;
    quoteAssetVolume' <- lift (Point_floatField "quoteAssetVolume" quoteAssetVolume) ;;
    timestamp <- lift (prop payload "timestamp") ;;
    lift (ToPrimitive timestamp) ;;;
    let point :=
      {| measurement := [Lit "binance_kline_"; Sub symbol];
         tags := [ ("source", VString "minions"); ("asset", symbol');
                   ("type", eventType); ("interval", interval) ];
         fields := [ ("openPrice", floatField, openPrice');
                     ("closePrice", floatField, closePrice');
                     ("highPrice", floatField, highPrice');
                     ("lowPrice", floatField, lowPrice');
                     ("volume", floatField, volume');
                     ("trades", intField, trades');
                     ("quoteAssetVolume", floatField, quoteAssetVolume') ];
         timestamp := timestamp |} in
    issue (WriteData [point] Kline).

(** The [.then] and the [.catch] of [writeData] in [handleKlineMessage]. *)
Definition klineWriteThen : M unit :=
  modify (fun w => with_counters w (successKlines w + 1) (successTrades w)
                     (failedKlines w) (failedTrades w)).

Definition klineWriteCatch (error : value) : M unit :=
  logger_error [Lit "Error when inserting Klines from rabbit: "; Sub error] ;;;
  modify (fun w => with_counters w (successKlines w) (successTrades w)
                     (failedKlines w + 1) (failedTrades w)).

(** [const callbacks = { kline: (data) => { handleKlineMessage(data) },
       trade: (data) => { handleTradeMessage(data) } }] *)
Definition callbacks : list (string * (value -> M unit)) :=
  [ ("kline", fun data => handleKlineMessage data);
    ("trade", fun data => handleTradeMessage data) ].

(** [handleMessage(data)].  In [callbacks[payload.eventType]] the property
    name is the event type when that is a string; the name of any other
    value is neither a property of [callbacks] nor one of
    [Object.prototype]. *)
Definition handleMessage (data : message) : M unit :=
  item <- lift (JSON_parse (content data)) ;;
  data' <- lift (prop item "data") ;;
  if negb (truthy data') then ret tt
  else
    payload <- lift (JSON_parse data') ;;
    logger_debug [Lit "Payload: \n"; Sub payload] ;;;
    eventType <- lift (prop payload "eventType") ;;
    match match chars eventType with
          | Some name => lookup callbacks name
          | None => Absent
          end with
    | Own callback => callback payload
    | Inherited =>
        if match chars eventType with
           | Some name => inherited_returns name payload
           | None => false
           end
        then ret tt else throw TypeError
    | Absent => logger_error [Lit "Not supported stream type"]
    end.

End WithRuntime.

End Hopper.

(* ================================================================== *)
(** * The durable queue between the two sides *)
(* ================================================================== *)

Module Queue.
Import JS.

(** Modelled from the spec: [rabbit.sendQueue] of [services/rabbitmq.js],
    which is not among the sources, and the message a worker receives for
    what was enqueued.  The specification has the worker "decode the outer
    queue envelope, decode the embedded canonical event payload": the
    message delivered for an enqueued content is the text of an envelope
    whose [data] property is that content. *)
Definition delivered (content : value) : Hopper.message :=
  {| Hopper.content := JSON_stringify (VObject [("data", content)]) |}.

End Queue.

(* ================================================================== *)
(** * A runtime for the examples *)
(* ================================================================== *)

(** The examples below run the program on concrete frames.  They use a
    runtime that reads plain decimal literals (sign, digits, point,
    digits) exactly, as the built-ins do on such texts.  Every JSON text
    of the examples is written [VJson]; a literal string handed to
    [JSON.parse] in an example is a text that is not JSON. *)
Module Example.
Import JS.

Definition digit (c : ascii) : option Z :=
  let n := Z.of_N (N_of_ascii c) in
  if (48 <=? n) && (n <=? 57) then Some (n - 48) else None.

(** The longest run of digits at the head of [s]: its value on top of
    [acc], how many digits were read on top of [n], and what follows. *)
Fixpoint digits (s : string) (acc : Z) (n : nat) : Z * nat * string :=
  match s with
  | EmptyString => (acc, n, s)
  | String c rest =>
      match digit c with
      | Some d => digits rest (10 * acc + d) (S n)
      | None => (acc, n, s)
      end
  end.

(** An unsigned decimal at the head of [s], and what follows it. *)
Definition unsigned_decimal (s : string) : option (Q * string) :=
  let '(int, n, rest) := digits s 0 0 in
  match rest with
  | String "." after =>
      let '(frac, m, rest') := digits after 0 0 in
      if (n + m =? 0)%nat then None
      else Some ((inject_Z int + inject_Z frac / inject_Z (10 ^ Z.of_nat m))%Q, rest')
  | _ => if (n =? 0)%nat then None else Some (inject_Z int, rest)
  end.

Definition decimal (s : string) : option (Q * string) :=
  match s with
  | String "-" rest =>
      match unsigned_decimal rest with
      | Some (q, rest') => Some ((- q)%Q, rest')
      | None => None
      end
  | String "+" rest => unsigned_decimal rest
  | _ => unsigned_decimal s
  end.

#[export] Instance runtime : Runtime := {|
  parseFloat_chars s :=
    match decimal s with
    | Some (q, _) => Finite (Qred q)
    | None => NaN
    end;
  StringToNumber s :=
    match s with
    | EmptyString => Finite 0
    | _ => match decimal s with
           | Some (q, EmptyString) => Finite (Qred q)
           | _ => NaN
           end
    end;
  parseInt_chars s :=
    match s with
    | String "-" rest =>
        let '(int, n, _) := digits rest 0 0 in
        if (n =? 0)%nat then NaN else Finite (inject_Z (- int))
    | String "+" rest =>
        let '(int, n, _) := digits rest 0 0 in
        if (n =? 0)%nat then NaN else Finite (inject_Z int)
    | _ =>
        let '(int, n, _) := digits s 0 0 in
        if (n =? 0)%nat then NaN else Finite (inject_Z int)
    end;
  JSON_parse_chars _ := None;
  JSON_chars _ := "{}"
|}.

#[export] Instance env : Binance.Env := {|
  Binance.wsBinance := "ws_binance";
  Binance.pid := 4242
|}.

(** The trade event of the first end-to-end scenario of the
    specification. *)
Definition scenario_trade : list (string * value) :=
  [ ("e", VString "trade"); ("E", VNumber (Finite 1000)); ("s", VString "BTCUSDT");
    ("t", VNumber (Finite 1)); ("p", VString "100.5"); ("q", VString "2") ].

(** A kline event as the exchange sends it: the interval label and the
    prices are strings. *)
Definition exchange_kline (label high low : string) : value :=
  VObject
    [ ("e", VString "kline"); ("E", VNumber (Finite 1000)); ("s", VString "BTCUSDT");
      ("k", VObject
              [ ("t", VNumber (Finite 0)); ("T", VNumber (Finite 59999));
                ("s", VString "BTCUSDT"); ("i", VString label);
                ("o", VString "100.0"); ("c", VString "100.0");
                ("h", VString high); ("l", VString low);
                ("v", VString "1"); ("n", VNumber (Finite 1));
                ("x", VBoolean false); ("q", VString "100.0");
                ("V", VString "1") ]) ].


End Example.

(* ================================================================== *)
(** * Stream names *)
(* ================================================================== *)

Module Streams.

(** The character [c] does not occur in [s]. *)
Fixpoint lacks (c : ascii) (s : string) : bool :=
  match s with
  | EmptyString => true
  | String c' rest => negb (Ascii.eqb c' c) && lacks c rest
  end.

End Streams.

(* ================================================================== *)
(** * The reporting ticks and the completions they count *)
(* ================================================================== *)

Module Stats.
Import JS.

(** A counter as the log line prints it. *)
Definition shown (n : Z) : value := VNumber (Finite (inject_Z n)).

(** The body of the [setInterval] of [services/binance.js]: the line it
    hands to [logger.info], and the world it leaves, all four counters
    back at 0. *)
Definition binance_tick (w : Binance.world) : template * Binance.world :=
  ([ Lit "WebSocket Stats (10s)\n    \nSuccess: [K:"; Sub (shown (Binance.succK w));
     Lit " T:"; Sub (shown (Binance.succT w));
     Lit "("; Sub (shown (Binance.succK w + Binance.succT w));
     Lit ")]\n    \nFailed:  [K:"; Sub (shown (Binance.failK w));
     Lit " T:"; Sub (shown (Binance.failT w));
     Lit "("; Sub (shown (Binance.failK w + Binance.failT w)); Lit ")]" ],
   Binance.with_counters w 0 0 0 0).

(** The body of the [setInterval] of [minion/hopper-mq.js]. *)
Definition hopper_tick (w : Hopper.world) : template * Hopper.world :=
  ([ Lit "Hopper Status (10s)\n    \nSuccess: [K:"; Sub (shown (Hopper.successKlines w));
     Lit " T:"; Sub (shown (Hopper.successTrades w));
     Lit "("; Sub (shown (Hopper.successKlines w + Hopper.successTrades w));
     Lit ")]\n    \nFailed:  [K:"; Sub (shown (Hopper.failedKlines w));
     Lit " T:"; Sub (shown (Hopper.failedTrades w));
     Lit "("; Sub (shown (Hopper.failedKlines w + Hopper.failedTrades w));
     Lit ")]" ],
   Hopper.with_counters w 0 0 0 0).

(** An enqueue of the ingestion side that completed: the kind of the
    event, and the error the callback was given, if any. *)
Inductive enqueued :=
| Enqueued (k : Binance.kind) (err : option Error).

Definition enqueue_completes (w : Binance.world) (c : enqueued) : Binance.world :=
  match c with
  | Enqueued Binance.Trade err => snd (Binance.tradeQueueCallback err w)
  | Enqueued Binance.Kline err => snd (Binance.klineQueueCallback err w)
  end.

(** A write of the consumer side that completed: the kind of the event,
    and the reason of the rejection, if the promise was rejected. *)
Inductive written :=
| Written (k : Hopper.kind) (error : option value).

Definition write_completes (w : Hopper.world) (c : written) : Hopper.world :=
  match c with
  | Written Hopper.Trade None => snd (Hopper.tradeWriteThen w)
  | Written Hopper.Trade (Some error) => snd (Hopper.tradeWriteCatch error w)
  | Written Hopper.Kline None => snd (Hopper.klineWriteThen w)
  | Written Hopper.Kline (Some error) => snd (Hopper.klineWriteCatch error w)
  end.

(** How many completions of a list are trades, and how many of those
    failed; the same for klines. *)
Definition is_trade (k : Binance.kind) : bool :=
  match k with Binance.Trade => true | Binance.Kline => false end.

Definition enqueues (trade : bool) (cs : list enqueued) : Z :=
  Z.of_nat (length (filter (fun c => match c with
                                     | Enqueued k _ => Bool.eqb (is_trade k) trade
                                     end) cs)).

Definition failed_enqueues (trade : bool) (cs : list enqueued) : Z :=
  Z.of_nat (length (filter (fun c => match c with
                                     | Enqueued k (Some _) => Bool.eqb (is_trade k) trade
                                     | Enqueued _ None => false
                                     end) cs)).

Definition is_trade_write (k : Hopper.kind) : bool :=
  match k with Hopper.Trade => true | Hopper.Kline => false end.

Definition writes (trade : bool) (cs : list written) : Z :=
  Z.of_nat (length (filter (fun c => match c with
                                     | Written k _ => Bool.eqb (is_trade_write k) trade
                                     end) cs)).

Definition failed_writes (trade : bool) (cs : list written) : Z :=
  Z.of_nat (length (filter (fun c => match c with
                                     | Written k (Some _) =>
                                         Bool.eqb (is_trade_write k) trade
                                     | Written _ None => false
                                     end) cs)).

End Stats.

(* ================================================================== *)
(** * services/binance.js: the subscriptions *)
(* ================================================================== *)

Module Subscriptions.
Import JS.

(** What the functions ask of the stream and of the store:
    [wsStream.trade(symbol)], [wsStream.kline(symbol, interval)],
    [wsStream.unsubscribe(symbol)] and [wsStream.unsubscribe(symbol,
    interval)], [redis.remove(env, redisWebSockets, symbol)],
    [redis.pub.lpush(env.redisWebSockets, symbol, callback)] and
    [redis.pub.lrange(env.redisWebSockets, 0, -1, callback)]. *)
Inductive request :=
| WsTrade (symbol : string)
| WsKline (symbol : string) (interval : value)
| WsUnsubscribe (symbol : string) (interval : option value)
| RedisRemove (symbol : string)
| RedisLpush (symbol : string)
| RedisLrange.

Inductive log_entry :=
| ErrorLine (text : template)
| DebugLine (text : template)
| ConsoleError (e : Error).

(** [wsConnections] is a [Map]; the file only ever deletes from it, so its
    keys are all there is to it. *)
Record world := {
  wsConnections : list string;
  log : list log_entry;
  out : list request
}.

Definition M (A : Type) : Type := world -> (exn + A) * world.

Definition ret {A} (a : A) : M A := fun w => (inr a, w).

Definition bind {A B} (c : M A) (k : A -> M B) : M B :=
  fun w =>
    match c w with
    | (inr a, w') => k a w'
    | (inl e, w') => (inl e, w')
    end.

Definition throw {A} (e : exn) : M A := fun w => (inl e, w).

Notation "c ;;; k" := (bind c (fun _ => k))
  (at level 61, right associativity).

Definition logger (l : log_entry) : M unit :=
  fun w => (inr tt, {| wsConnections := wsConnections w;
                       log := log w ++ [l]; out := out w |}).

Definition issue (r : request) : M unit :=
  fun w => (inr tt, {| wsConnections := wsConnections w;
                       log := log w; out := out w ++ [r] |}).

(** [wsConnections.delete(symbol)] *)
Definition Map_delete (symbol : string) : M unit :=
  fun w => (inr tt,
            {| wsConnections :=
                 filter (fun k => negb (k =? symbol)%string) (wsConnections w);
               log := log w; out := out w |}).

(** [array.forEach(f)] and [for (const x of array) f(x)]: an exception
    ends the iteration. *)
Fixpoint forEach {A} (l : list A) (f : A -> M unit) : M unit :=
  match l with
  | [] => ret tt
  | x :: rest => f x ;;; forEach rest f
  end.

(** [subscribe(wsStream, symbol, intervals)] *)
Definition subscribe (symbol : string) (intervals : list value) : M unit :=
  issue (WsTrade symbol) ;;;
  issue (RedisLpush symbol) ;;;
  forEach intervals (fun interval => issue (WsKline symbol interval)).

(** [unsubscribe(wsStream, symbol, intervals)]; [intervals] is [None] when
    the caller passes no third argument, and [for ... of undefined] throws
    a [TypeError]. *)
Definition unsubscribe (symbol : string) (intervals : option (list value)) : M unit :=
  issue (WsUnsubscribe symbol None) ;;;
  issue (RedisRemove symbol) ;;;
  match intervals with
  | None => throw TypeError
  | Some l => forEach l (fun interval => issue (WsUnsubscribe symbol (Some interval)))
  end ;;;
  Map_delete symbol.

(** [disconnect(symbol)] and [disconnectAll()] ask for the list. *)
Definition disconnect (symbol : string) : M unit := issue RedisLrange.

Definition disconnectAll : M unit := issue RedisLrange.

(** The text of [`${result}`] for an array of strings. *)
Definition joined (result : list string) : value :=
  VString (String.concat "," result).

(** The callback of the [lrange] of [disconnect(symbol)]. *)
Definition disconnectCallback (symbol : string) (error : option Error)
    (result : list string) : M unit :=
  match error with
  | Some e => logger (ConsoleError e)
  | None =>
      forEach result (fun value =>
        if (value =? symbol)%string then unsubscribe value None else ret tt) ;;;
      logger (DebugLine [Lit "Unsubscribed:\n            "; Sub (joined result)])
  end.

(** The callback of the [lrange] of [disconnectAll()]. *)
Definition disconnectAllCallback (error : option Error) (result : list string)
    : M unit :=
  match error with
  | Some e => logger (ConsoleError e)
  | None =>
      forEach result (fun value => unsubscribe value None) ;;;
      logger (DebugLine [Lit "Unsubscribed:\n            "; Sub (joined result)])
  end.

End Subscriptions.

(* ================================================================== *)
(** * minion/hopper-mq.js: the worker pool *)
(* ================================================================== *)

Module Pool.
Import JS.

(** A worker process object.  Its [main] and [stop] are closures over the
    object itself; [id] tells one object from another, as [indexOf] does. *)
Record workerProcess := {
  id : nat;
  stopped : bool
}.

(** [hopperChan.consume(env.wsBinance, handleMessage, { noAck: true })] *)
Inductive request :=
| Consume (queue : string).

Inductive log_entry :=
| Info (text : template)
| Debug (text : template)
| ErrorLine (text : template).

(** The array [workerProcesses], how many worker objects were created so
    far, the log and the requests. *)
Record world := {
  workerProcesses : list workerProcess;
  created : nat;
  log : list log_entry;
  out : list request
}.

Definition initial : world :=
  {| workerProcesses := []; created := 0%nat; log := []; out := [] |}.

Definition M (A : Type) : Type := world -> (exn + A) * world.

Definition ret {A} (a : A) : M A := fun w => (inr a, w).

Definition bind {A B} (c : M A) (k : A -> M B) : M B :=
  fun w =>
    match c w with
    | (inr a, w') => k a w'
    | (inl e, w') => (inl e, w')
    end.

Definition throw {A} (e : exn) : M A := fun w => (inl e, w).

Notation "x <- c ;; k" := (bind c (fun x => k))
  (at level 61, c at next level, right associativity).
Notation "c ;;; k" := (bind c (fun _ => k))
  (at level 61, right associativity).

Definition logger (l : log_entry) : M unit :=
  fun w => (inr tt, {| workerProcesses := workerProcesses w; created := created w;
                       log := log w ++ [l]; out := out w |}).

Definition issue (r : request) : M unit :=
  fun w => (inr tt, {| workerProcesses := workerProcesses w; created := created w;
                       log := log w; out := out w ++ [r] |}).

(** [workerProcesses.indexOf(workerProcess) + 1] *)
Fixpoint indexOf (l : list workerProcess) (i : nat) : Z :=
  match l with
  | [] => -1
  | p :: rest =>
      if (id p =? i)%nat then 0
      else match indexOf rest i with
           | -1 => -1
           | n => n + 1
           end
  end.

Definition number (l : list workerProcess) (i : nat) : value :=
  VNumber (Finite (inject_Z (indexOf l i + 1))).

(** A worker after the [stop] of each worker whose identity is in [ids]
    was called. *)
Definition marked (ids : list nat) (p : workerProcess) : workerProcess :=
  if existsb (Nat.eqb (id p)) ids then {| id := id p; stopped := true |} else p.

Section WithEnv.
Context {E : Binance.Env}.

(** [function main() { hopperChan.consume(...) }]: it returns nothing. *)
Definition main : M unit := issue (Consume Binance.wsBinance).

(** [workerProcess.stop]: the line it logs, and the flag it sets on the
    object. *)
Definition worker_stop (i : nat) : M unit :=
  (fun w => logger (Info [Lit "Stopping Hopper No."; Sub (number (workerProcesses w) i)]) w) ;;;
  fun w =>
    (inr tt,
     {| workerProcesses :=
          map (fun p => if (id p =? i)%nat then {| id := id p; stopped := true |} else p)
              (workerProcesses w);
        created := created w; log := log w; out := out w |}).

(** [startWorkerProcess(callback)]: the new object is pushed, then handed
    to the callback. *)
Definition startWorkerProcess (callback : nat -> M unit) : M unit :=
  (fun w =>
     logger (Info [Lit "Starting Hopper No.";
                   Sub (VNumber (Finite (inject_Z (Z.of_nat (length (workerProcesses w)) + 1))))])
       w) ;;;
  fun w =>
    let workerProcess := {| id := created w; stopped := false |} in
    callback (id workerProcess)
      {| workerProcesses := workerProcesses w ++ [workerProcess];
         created := S (created w); log := log w; out := out w |}.

(** The callback [start] passes: [workerProcess.main().then(...)].
    [main()] is [undefined], and reading [.then] of it throws a
    [TypeError]; the [.then] and [.catch] handlers are never attached. *)
Definition startCallback (i : nat) : M unit :=
  main ;;; throw TypeError.

(** [for (let i = 0; i < numThreads; i++) { startWorkerProcess(...) }],
    [n] iterations. *)
Fixpoint startLoop (n : nat) : M unit :=
  match n with
  | O => ret tt
  | S n' => startWorkerProcess startCallback ;;; startLoop n'
  end.

(** [start(numThreads)], for an integer [numThreads]. *)
Definition start (numThreads : Z) : M unit :=
  logger (Info [Lit "Hopper started"]) ;;;
  startLoop (Z.to_nat numThreads).

(** [stop()] *)
Fixpoint stopEach (ids : list nat) : M unit :=
  match ids with
  | [] => ret tt
  | i :: rest => worker_stop i ;;; stopEach rest
  end.

Definition stop : M unit :=
  logger (Debug [Lit "Stopping Hopper"]) ;;;
  fun w => stopEach (map id (workerProcesses w)) w.

End WithEnv.

End Pool.

(* ================================================================== *)
(** * Events of primitive values *)
(* ================================================================== *)

(** The frames of both streams carry strings, numbers and booleans.  An
    object in the place of one of them is converted where the program
    takes its remainder, parses it or prints it into a channel name, and
    that conversion can throw; the properties below say that the values
    the program converts are primitive ones. *)
Module Plain.
Import JS.

(** The properties [names] of [o] are primitive values. *)
Definition primitive_at (o : value) (names : list string) : Prop :=
  forall k v, In k names -> prop o k = inr v -> primitive v = true.

(** The running high and the running low of every interval of the
    Interval Set are primitive values. *)
Definition primitive_extrema (w : Binance.world) : Prop :=
  forall interval, In interval Binance.intervals ->
    primitive (Binance.get (Binance.highPrices w) interval) = true
    /\ primitive (Binance.get (Binance.lowPrices w) interval) = true.

End Plain.

(* ================================================================== *)
(** * Properties of the operators *)
(* ================================================================== *)

Module JSFacts.
Import JS.

Lemma num_eq_refl n : is_NaN n = false -> num_eq n n = true.
Proof.
  destruct n; simpl; intros H; try reflexivity; try discriminate.
  apply Qeq_bool_refl.
Qed.

Lemma num_eq_sym a b : num_eq a b = num_eq b a.
Proof.
  destruct a, b; simpl; try reflexivity. apply Qeq_bool_comm.
Qed.

Lemma num_eq_trans a b c :
  num_eq a b = true -> num_eq b c = true -> num_eq a c = true.
Proof.
  destruct a, b, c; simpl; try discriminate; try reflexivity.
  apply Qeq_bool_trans.
Qed.

Lemma num_le_refl n : is_NaN n = false -> num_le n n = true.
Proof.
  destruct n; simpl; intros H; try reflexivity; try discriminate.
  assert (Hq : (q ?= q)%Q = Eq) by (apply Qeq_alt; reflexivity).
  now rewrite Hq.
Qed.

Lemma num_le_trans a b c :
  num_le a b = true -> num_le b c = true -> num_le a c = true.
Proof.
  destruct a as [| |x|], b as [| |y|], c as [| |z|]; simpl;
    try discriminate; try reflexivity.
  destruct (x ?= y)%Q eqn:Hxy, (y ?= z)%Q eqn:Hyz; try discriminate; intros _ _.
  all: destruct (x ?= z)%Q eqn:Hxz; try reflexivity; exfalso.
  all: rewrite <- ?Qeq_alt, <- ?Qlt_alt, <- ?Qgt_alt in *.
  - rewrite Hxy, Hyz in Hxz. now apply (Qlt_irrefl z).
  - rewrite Hxy in Hxz. apply (Qlt_irrefl y). now apply Qlt_trans with z.
  - rewrite <- Hyz in Hxz. apply (Qlt_irrefl x). now apply Qlt_trans with y.
  - apply (Qlt_irrefl x). apply Qlt_trans with y; [assumption|].
    now apply Qlt_trans with z.
Qed.

Lemma num_lt_le a b : num_lt a b = true -> num_le a b = true.
Proof.
  destruct a as [| |x|], b as [| |y|]; simpl; try discriminate; try reflexivity.
  now destruct (x ?= y)%Q.
Qed.

(** On numbers that are not NaN, [a < b] fails exactly when [b <= a]. *)
Lemma num_lt_false a b :
  is_NaN a = false -> is_NaN b = false -> num_lt a b = false -> num_le b a = true.
Proof.
  destruct a as [| |x|], b as [| |y|]; simpl; try discriminate; try reflexivity.
  intros _ _. rewrite <- (Qcompare_antisym x y).
  now destruct (x ?= y)%Q.
Qed.

Lemma num_lt_NaN a b : num_lt a b = true -> is_NaN a = false /\ is_NaN b = false.
Proof. destruct a, b; simpl; try discriminate; auto. Qed.

Lemma num_lt_le_trans a b c :
  num_lt a b = true -> num_le b c = true -> num_lt a c = true.
Proof.
  destruct a as [| |x|], b as [| |y|], c as [| |z|]; simpl;
    try discriminate; try reflexivity.
  destruct (x ?= y)%Q eqn:Hxy; try discriminate; intros _.
  apply (proj2 (Qlt_alt x y)) in Hxy.
  destruct (y ?= z)%Q eqn:Hyz; try discriminate; intros _.
  - apply (proj2 (Qeq_alt y z)) in Hyz.
    assert (H : (x < z)%Q) by now rewrite <- Hyz.
    apply (proj1 (Qlt_alt x z)) in H. now rewrite H.
  - apply (proj2 (Qlt_alt y z)) in Hyz.
    assert (H : (x < z)%Q) by now apply Qlt_trans with y.
    apply (proj1 (Qlt_alt x z)) in H. now rewrite H.
Qed.

Lemma num_lt_irrefl a : num_lt a a = false.
Proof.
  destruct a as [| |x|]; simpl; try reflexivity.
  assert (Hq : (x ?= x)%Q = Eq) by (apply Qeq_alt; reflexivity).
  now rewrite Hq.
Qed.

End JSFacts.

(* ================================================================== *)
(** * The extrema tracker *)
(* ================================================================== *)

Module Tracker.
Import JS Binance JSFacts.

(** ** Objects keyed by numbers *)

Lemma same_key_refl k : same_key k k = true.
Proof. destruct k; simpl; try reflexivity. apply Qeq_bool_refl. Qed.

Lemma same_key_sym a b : same_key a b = same_key b a.
Proof. destruct a, b; simpl; try reflexivity. apply Qeq_bool_comm. Qed.

Lemma same_key_trans a b c :
  same_key a b = true -> same_key b c = true -> same_key a c = true.
Proof.
  destruct a, b, c; simpl; try discriminate; try reflexivity.
  apply Qeq_bool_trans.
Qed.

(** Two keys that name the same property do so against any third. *)
Lemma same_key_left a b c : same_key a b = true -> same_key a c = same_key b c.
Proof.
  intros Hab. destruct (same_key b c) eqn:Hbc.
  - now apply same_key_trans with b.
  - destruct (same_key a c) eqn:Hac; [|reflexivity].
    rewrite same_key_sym in Hab.
    now rewrite (same_key_trans _ _ _ Hab Hac) in Hbc.
Qed.

Lemma get_same_key o a b : same_key a b = true -> get o a = get o b.
Proof.
  intros Hab. induction o as [|[k v] o IH]; simpl; [reflexivity|].
  rewrite (same_key_sym k a), (same_key_sym k b), (same_key_left a b k Hab).
  now rewrite IH.
Qed.

Lemma get_set_same o k v k' : same_key k k' = true -> get (set o k v) k' = v.
Proof.
  intros Hk. induction o as [|[k0 v0] o IH]; simpl.
  - now rewrite Hk.
  - destruct (same_key k0 k) eqn:H0; simpl.
    + now rewrite (same_key_trans _ _ _ H0 Hk).
    + rewrite (same_key_sym k0 k'), <- (same_key_left k k' k0 Hk),
        (same_key_sym k k0), H0.
      exact IH.
Qed.

Lemma get_set_other o k v k' :
  same_key k k' = false -> get (set o k v) k' = get o k'.
Proof.
  intros Hk. induction o as [|[k0 v0] o IH]; simpl.
  - now rewrite Hk.
  - destruct (same_key k0 k) eqn:H0; simpl.
    + now rewrite (same_key_left k0 k k' H0), Hk.
    + now rewrite IH.
Qed.

Lemma intervals_distinct : distinct intervals = true.
Proof. vm_compute. reflexivity. Qed.

Lemma mem_In k k' l : mem k l = false -> In k' l -> same_key k k' = false.
Proof.
  unfold mem. intros H Hin.
  destruct (same_key k k') eqn:Hk; [|reflexivity].
  assert (existsb (same_key k) l = true) by (apply existsb_exists; eauto).
  congruence.
Qed.

Section WithRuntime.
Context {RT : Runtime} {E : Env}.

(** ** The loop of [processTrade] *)

Lemma sample_frame timestamp price w interval :
  let w' := sample timestamp price w interval in
  out w' = out w /\ log w' = log w /\
  succK w' = succK w /\ succT w' = succT w /\
  failK w' = failK w /\ failT w' = failT w.
Proof. unfold sample. destruct (boundary timestamp interval); simpl; auto 10. Qed.

Lemma sampleTrade_frame timestamp price w :
  let w' := sampleTrade timestamp price w in
  out w' = out w /\ log w' = log w /\
  succK w' = succK w /\ succT w' = succT w /\
  failK w' = failK w /\ failT w' = failT w.
Proof.
  unfold sampleTrade. generalize intervals as l. intros l. revert w.
  induction l as [|i l IH]; intros w; simpl; [auto 10|].
  destruct (IH (sample timestamp price w i)) as (a & b & c & d & e & f).
  destruct (sample_frame timestamp price w i) as (a' & b' & c' & d' & e' & f').
  simpl in *. repeat split; congruence.
Qed.

Lemma sample_at timestamp price w interval k :
  same_key interval k = true ->
  let w' := sample timestamp price w interval in
  if boundary timestamp interval
  then get (highPrices w') k =
         VNumber (Math_max (get (highPrices w) interval) (VNumber price))
       /\ get (lowPrices w') k =
         VNumber (Math_min (get (lowPrices w) interval) (VNumber price))
  else w' = w.
Proof.
  intros Hk. unfold sample. destruct (boundary timestamp interval); simpl.
  - now rewrite !get_set_same.
  - reflexivity.
Qed.

Lemma sample_other timestamp price w interval k :
  same_key interval k = false ->
  let w' := sample timestamp price w interval in
  get (highPrices w') k = get (highPrices w) k /\
  get (lowPrices w') k = get (lowPrices w) k.
Proof.
  intros Hk. unfold sample. destruct (boundary timestamp interval); simpl.
  - now rewrite !get_set_other.
  - auto.
Qed.

Lemma fold_sample_other timestamp price l : forall w k,
  mem k l = false ->
  let w' := fold_left (sample timestamp price) l w in
  get (highPrices w') k = get (highPrices w) k /\
  get (lowPrices w') k = get (lowPrices w) k.
Proof.
  induction l as [|i l IH]; intros w k Hk; simpl; [auto|].
  simpl in Hk. apply orb_false_elim in Hk as [Hi Hl].
  destruct (IH (sample timestamp price w i) k Hl) as [Hh Hlo].
  rewrite same_key_sym in Hi.
  destruct (sample_other timestamp price w i k Hi) as [Hh' Hlo'].
  simpl in *. split; congruence.
Qed.

Lemma fold_sample_at timestamp price l : forall w k,
  distinct l = true -> In k l ->
  let w' := fold_left (sample timestamp price) l w in
  if boundary timestamp k
  then get (highPrices w') k =
         VNumber (Math_max (get (highPrices w) k) (VNumber price))
       /\ get (lowPrices w') k =
         VNumber (Math_min (get (lowPrices w) k) (VNumber price))
  else get (highPrices w') k = get (highPrices w) k
       /\ get (lowPrices w') k = get (lowPrices w) k.
Proof.
  induction l as [|i l IH]; intros w k Hd Hin; [destruct Hin|].
  simpl in Hd. apply andb_true_iff in Hd as [Hi Hd].
  apply negb_true_iff in Hi. destruct Hin as [-> | Hin]; simpl.
  - destruct (fold_sample_other timestamp price l (sample timestamp price w k) k Hi)
      as [Hh Hl]. simpl in Hh, Hl. rewrite Hh, Hl.
    pose proof (sample_at timestamp price w k k (same_key_refl k)) as Hs.
    simpl in Hs. destruct (boundary timestamp k); [exact Hs|now rewrite Hs].
  - specialize (IH (sample timestamp price w i) k Hd Hin). simpl in IH.
    destruct (sample_other timestamp price w i k (mem_In _ _ _ Hi Hin)) as [Hh Hl].
    simpl in Hh, Hl. now rewrite Hh, Hl in IH.
Qed.

Lemma sampleTrade_at timestamp price w k :
  In k intervals ->
  if boundary timestamp k
  then get (highPrices (sampleTrade timestamp price w)) k =
         VNumber (Math_max (get (highPrices w) k) (VNumber price))
       /\ get (lowPrices (sampleTrade timestamp price w)) k =
         VNumber (Math_min (get (lowPrices w) k) (VNumber price))
  else get (highPrices (sampleTrade timestamp price w)) k = get (highPrices w) k
       /\ get (lowPrices (sampleTrade timestamp price w)) k = get (lowPrices w) k.
Proof.
  intros Hin. unfold sampleTrade.
  exact (fold_sample_at timestamp price intervals w k intervals_distinct Hin).
Qed.

(** ** [processTrade] on an object *)

Lemma tradeObject_object fields w :
  tradeObject (VObject fields) (parseFloat (field fields "p")) w
  = (inr (canonicalTrade fields), w).
Proof. reflexivity. Qed.

Lemma publishTrade_object fields now w :
  publishTrade (VObject fields) (field fields "E") (parseFloat (field fields "p")) now w
  = (inr tt, with_out w (out w ++ tradeRequests fields now)).
Proof.
  unfold publishTrade, bind, lift, issue, ret, modify. simpl.
  unfold with_out. simpl. now rewrite <- app_assoc.
Qed.

Lemma processTrade_object fields now w :
  processTrade (VObject fields) now w
  = publishTrade (VObject fields) (field fields "E") (parseFloat (field fields "p")) now
      (sampleTrade (field fields "E") (parseFloat (field fields "p")) w).
Proof. reflexivity. Qed.

Lemma highPrices_with_out (w : world) o : highPrices (with_out w o) = highPrices w.
Proof. reflexivity. Qed.

Lemma lowPrices_with_out (w : world) o : lowPrices (with_out w o) = lowPrices w.
Proof. reflexivity. Qed.

Lemma processTrade_unfold trade now w timestamp p :
  prop trade "E" = inr timestamp -> prop trade "p" = inr p ->
  processTrade trade now w
  = publishTrade trade timestamp (parseFloat p) now
      (sampleTrade timestamp (parseFloat p) w).
Proof.
  intros HE Hp. unfold processTrade, bind, lift, modify. now rewrite HE, Hp.
Qed.

(** Publishing leaves the extrema, the counters and the log as they are. *)
Lemma publishTrade_frame trade timestamp price now w :
  let w' := snd (publishTrade trade timestamp price now w) in
  highPrices w' = highPrices w /\ lowPrices w' = lowPrices w /\
  log w' = log w /\
  succK w' = succK w /\ succT w' = succT w /\
  failK w' = failK w /\ failT w' = failT w.
Proof. destruct trade; simpl; auto 10. Qed.

(** What [processTrade] does to the extrema: it samples with the
    properties of the event, when the event has properties. *)
Lemma processTrade_extrema trade now w :
  (exists timestamp p,
     prop trade "E" = inr timestamp /\ prop trade "p" = inr p /\
     highPrices (snd (processTrade trade now w))
       = highPrices (sampleTrade timestamp (parseFloat p) w) /\
     lowPrices (snd (processTrade trade now w))
       = lowPrices (sampleTrade timestamp (parseFloat p) w))
  \/ snd (processTrade trade now w) = w.
Proof.
  destruct (prop trade "E") as [e|timestamp] eqn:HE.
  - right. unfold processTrade, bind, lift. now rewrite HE.
  - assert (Hp : exists p, prop trade "p" = inr p)
      by (destruct trade; try discriminate; simpl; eauto).
    destruct Hp as [p Hp]. left. exists timestamp, p.
    rewrite (processTrade_unfold _ _ _ _ _ HE Hp).
    destruct (publishTrade_frame trade timestamp (parseFloat p) now
                (sampleTrade timestamp (parseFloat p) w)) as (Hh & Hl & _).
    auto.
Qed.

(** ** [processKline] *)

Lemma publishKline_frame klineData klineObject now w :
  let w' := snd (publishKline klineData klineObject now w) in
  highPrices w' = highPrices w /\ lowPrices w' = lowPrices w /\
  log w' = log w /\
  succK w' = succK w /\ succT w' = succT w /\
  failK w' = failK w /\ failT w' = failT w.
Proof. destruct klineData; simpl; auto 10. Qed.

(** The canonical kline is built, or reading a property of [kline.k]
    throws; neither touches the world. *)
Lemma klineObject_cases kline klineData w :
  prop kline "k" = inr klineData ->
  klineObject kline klineData w = (inl TypeError, w)
  \/ exists obj i h l,
       klineObject kline klineData w = (inr obj, w)
       /\ prop klineData "i" = inr i /\ prop klineData "h" = inr h
       /\ prop klineData "l" = inr l.
Proof.
  intros Hk. destruct kline; try discriminate; destruct klineData;
    try (left; reflexivity); right; do 4 eexists; repeat split; reflexivity.
Qed.

(** What [processKline] does to the extrema. *)
Lemma processKline_extrema kline now w :
  (exists klineData i h l,
     prop kline "k" = inr klineData /\ prop klineData "i" = inr i /\
     prop klineData "h" = inr h /\ prop klineData "l" = inr l /\
     highPrices (snd (processKline kline now w)) = highPrices (sampleKline i h l w) /\
     lowPrices (snd (processKline kline now w)) = lowPrices (sampleKline i h l w))
  \/ snd (processKline kline now w) = w.
Proof.
  destruct (prop kline "k") as [e|klineData] eqn:Hk.
  - right. unfold processKline, bind, lift. now rewrite Hk.
  - destruct (klineObject_cases kline klineData w Hk)
      as [Hthrow | (obj & i & h & l & Hobj & Hi & Hh & Hl)].
    + right. unfold processKline, bind, lift. now rewrite Hk, Hthrow.
    + left. exists klineData, i, h, l.
      unfold processKline, bind, lift, modify. rewrite Hk, Hobj, Hi, Hh, Hl.
      destruct (publishKline_frame klineData obj now (sampleKline i h l w))
        as (H1 & H2 & _).
      repeat split; assumption || reflexivity.
Qed.

Lemma publishKline_object fields kfields now w :
  publishKline (VObject kfields) (canonicalKline fields kfields) now w
  = (inr tt, with_out w (out w ++ klineRequests fields kfields now)).
Proof.
  unfold publishKline, bind, lift, issue, ret, modify. simpl.
  unfold with_out. simpl. now rewrite <- app_assoc.
Qed.

Lemma processKline_object fields kfields now w :
  field fields "k" = VObject kfields ->
  processKline (VObject fields) now w
  = publishKline (VObject kfields) (canonicalKline fields kfields) now
      (sampleKline (field kfields "i") (field kfields "h") (field kfields "l") w).
Proof.
  intros Hk. unfold processKline, bind, lift. simpl prop. rewrite Hk. reflexivity.
Qed.

(** The label is found exactly when it is a number equal to one of the
    numbers of the Interval Set. *)
Lemma found_iff i :
  found i = true <->
  exists n interval, i = VNumber n /\ In interval intervals /\ num_eq interval n = true.
Proof.
  unfold found. rewrite existsb_exists. split.
  - intros (interval & Hin & Heq). destruct i; try discriminate.
    exists n, interval. auto.
  - intros (n & interval & -> & Hin & Heq). exists interval. auto.
Qed.

(** The update of [processKline] at the key of the label, and away from it. *)
Lemma sampleKline_at i h l w :
  found i = true ->
  let w' := sampleKline i h l w in
  get (highPrices w') (key i)
    = (if js_gt h (get (highPrices w) (key i)) then h else get (highPrices w) (key i))
  /\ get (lowPrices w') (key i)
    = (if js_lt l (get (lowPrices w) (key i)) then l else get (lowPrices w) (key i)).
Proof.
  intros Hf. unfold sampleKline. rewrite Hf.
  destruct (js_gt h (get (highPrices w) (key i))),
           (js_lt l (get (lowPrices w) (key i))); simpl;
    rewrite ?get_set_same by apply same_key_refl; auto.
Qed.

Lemma sampleKline_other i h l w k :
  same_key (key i) k = false ->
  let w' := sampleKline i h l w in
  get (highPrices w') k = get (highPrices w) k
  /\ get (lowPrices w') k = get (lowPrices w) k.
Proof.
  intros Hk. unfold sampleKline. destruct (found i); [|auto].
  destruct (js_gt h (get (highPrices w) (key i))),
           (js_lt l (get (lowPrices w) (key i))); simpl;
    rewrite ?get_set_other by assumption; auto.
Qed.

Lemma sampleKline_not_found i h l w : found i = false -> sampleKline i h l w = w.
Proof. intros Hf. unfold sampleKline. now rewrite Hf. Qed.


(** ** Widening *)

Lemma max_widens y p :
  is_NaN y = false -> is_NaN p = false ->
  is_NaN (Math_max (VNumber y) (VNumber p)) = false
  /\ num_le y (Math_max (VNumber y) (VNumber p)) = true.
Proof.
  intros Hy Hp. unfold Math_max. simpl toNumber. rewrite Hy, Hp. simpl.
  destruct (num_lt y p) eqn:Hlt.
  - split; [assumption | now apply num_lt_le].
  - split; [assumption | now apply num_le_refl].
Qed.

Lemma min_widens y p :
  is_NaN y = false -> is_NaN p = false ->
  is_NaN (Math_min (VNumber y) (VNumber p)) = false
  /\ num_le (Math_min (VNumber y) (VNumber p)) y = true.
Proof.
  intros Hy Hp. unfold Math_min. simpl toNumber. rewrite Hy, Hp. simpl.
  destruct (num_lt p y) eqn:Hlt.
  - split; [assumption | now apply num_lt_le].
  - split; [assumption | now apply num_le_refl].
Qed.

Lemma numeric_inv v :
  numeric v = true -> exists n, v = VNumber n /\ is_NaN n = false.
Proof.
  destruct v; try discriminate. simpl. intros H. exists n.
  split; [reflexivity | now apply negb_true_iff].
Qed.

Lemma widened_refl w interval :
  numeric (get (highPrices w) interval) = true ->
  numeric (get (lowPrices w) interval) = true ->
  widened w w interval.
Proof.
  intros Hh Hl. unfold widened. repeat split; try assumption.
  - apply numeric_inv in Hh as (n & -> & Hn). now apply num_le_refl.
  - apply numeric_inv in Hl as (n & -> & Hn). now apply num_le_refl.
Qed.

Lemma widened_trans w1 w2 w3 interval :
  widened w1 w2 interval -> widened w2 w3 interval -> widened w1 w3 interval.
Proof.
  intros (_ & _ & Hh & Hl) (Hnh & Hnl & Hh' & Hl'). unfold widened.
  repeat split; try assumption.
  - now apply num_le_trans with (toNumber (get (highPrices w2) interval)).
  - now apply num_le_trans with (toNumber (get (lowPrices w2) interval)).
Qed.

(** [widened] only looks at the extrema of the two worlds. *)
Lemma widened_ext w w1 w2 interval :
  highPrices w1 = highPrices w2 -> lowPrices w1 = lowPrices w2 ->
  widened w w2 interval -> widened w w1 interval.
Proof. unfold widened. now intros -> ->. Qed.

Lemma sampleTrade_widens timestamp price w interval :
  is_NaN price = false -> In interval intervals ->
  numeric (get (highPrices w) interval) = true ->
  numeric (get (lowPrices w) interval) = true ->
  widened w (sampleTrade timestamp price w) interval.
Proof.
  intros Hp Hin Hh Hl.
  pose proof (sampleTrade_at timestamp price w interval Hin) as H.
  destruct (boundary timestamp interval).
  - destruct H as [Hh' Hl'].
    destruct (numeric_inv _ Hh) as (y & Hy & HyN).
    destruct (numeric_inv _ Hl) as (z & Hz & HzN).
    unfold widened. rewrite Hh', Hl', Hy, Hz. simpl.
    destruct (max_widens y price HyN Hp) as [Hm1 Hm2].
    destruct (min_widens z price HzN Hp) as [Hn1 Hn2].
    rewrite Hm1, Hn1. auto.
  - destruct H as [Hh' Hl']. unfold widened. rewrite Hh', Hl'.
    destruct (widened_refl w interval Hh Hl) as (_ & _ & ? & ?). auto.
Qed.

Lemma js_gt_numbers x y : js_gt (VNumber x) (VNumber y) = num_lt y x.
Proof. reflexivity. Qed.

Lemma js_lt_numbers x y : js_lt (VNumber x) (VNumber y) = num_lt x y.
Proof. reflexivity. Qed.

Lemma sampleKline_widens i h l w interval :
  found i = false \/ (is_number h = true /\ is_number l = true) ->
  numeric (get (highPrices w) interval) = true ->
  numeric (get (lowPrices w) interval) = true ->
  widened w (sampleKline i h l w) interval.
Proof.
  intros Hnum Hnh Hnl.
  destruct (found i) eqn:Hf;
    [|rewrite sampleKline_not_found by assumption; now apply widened_refl].
  destruct Hnum as [Hnum | [Hh Hl]]; [discriminate|].
  destruct (same_key (key i) interval) eqn:Hk.
  - destruct (sampleKline_at i h l w Hf) as [Hh' Hl'].
    unfold widened.
    rewrite <- !(get_same_key _ _ _ Hk), Hh', Hl'.
    rewrite !(get_same_key _ _ _ Hk).
    destruct (numeric_inv _ Hnh) as (y & Hy & HyN).
    destruct (numeric_inv _ Hnl) as (z & Hz & HzN).
    destruct h as [ | | | x | | | ]; try discriminate.
    destruct l as [ | | | x' | | | ]; try discriminate.
    rewrite Hy, Hz, js_gt_numbers, js_lt_numbers.
    destruct (num_lt y x) eqn:Hlt, (num_lt x' z) eqn:Hlt'; simpl;
      rewrite ?HyN, ?HzN;
      repeat split; try reflexivity;
      try (apply num_le_refl; assumption);
      try (apply num_lt_le; assumption).
    all: try (apply num_lt_NaN in Hlt as [_ ->]; reflexivity).
    all: try (apply num_lt_NaN in Hlt' as [-> _]; reflexivity).
  - destruct (sampleKline_other i h l w interval Hk) as [Hh' Hl'].
    unfold widened. rewrite Hh', Hl'.
    destruct (widened_refl w interval Hnh Hnl) as (_ & _ & ? & ?). auto.
Qed.

Lemma step_widens ev w :
  tracked w -> numeric_event ev ->
  forall interval, In interval intervals -> widened w (step w ev) interval.
Proof.
  intros Ht Hev interval Hin. destruct (Ht interval Hin) as [Hh Hl].
  destruct ev as [trade now | kline now]; unfold step.
  - destruct (processTrade_extrema trade now w)
      as [(timestamp & p & _ & Hp & Hh' & Hl') | ->];
      [|now apply widened_refl].
    apply (widened_ext _ _ _ _ Hh' Hl').
    apply sampleTrade_widens; try assumption. exact (Hev p Hp).
  - destruct (processKline_extrema kline now w)
      as [(klineData & i & h & l & Hk & Hki & Hkh & Hkl & Hh' & Hl') | ->];
      [|now apply widened_refl].
    apply (widened_ext _ _ _ _ Hh' Hl').
    apply sampleKline_widens; try assumption.
    exact (Hev klineData i h l Hk Hki Hkh Hkl).
Qed.

Lemma run_widens evs : forall w,
  tracked w -> Forall numeric_event evs ->
  forall interval, In interval intervals -> widened w (run evs w) interval.
Proof.
  induction evs as [|ev evs IH]; intros w Ht Hall interval Hin.
  - destruct (Ht interval Hin). now apply widened_refl.
  - inversion Hall as [|? ? Hev Hrest]; subst.
    pose proof (step_widens ev w Ht Hev) as Hstep.
    assert (Ht' : tracked (step w ev)).
    { intros k Hk. destruct (Hstep k Hk) as (? & ? & _). auto. }
    apply widened_trans with (step w ev); [now apply Hstep|].
    exact (IH (step w ev) Ht' Hrest interval Hin).
Qed.

End WithRuntime.

End Tracker.

(* ================================================================== *)
(** * The extrema tracker: initial state and the trade path *)
(* ================================================================== *)

Module ExtremaTracker.
Import JS Binance JSFacts Tracker.

Section WithRuntime.
Context {RT : Runtime} {E : Env}.

(** C2.  When the module is loaded, both [highPrices] and [lowPrices] hold,
    for every interval of the Interval Set, positive infinity at a finite
    interval and negative infinity at the unbounded one: the running high
    of the interval 5 starts at positive infinity (the specification says
    negative infinity), and the running low of the unbounded interval
    starts at negative infinity (the specification says positive
    infinity). *)
Theorem initial_extrema_values :
  Forall (fun interval =>
            get (highPrices initial) interval
              = VNumber (if num_eq interval Infinity then NegInfinity else Infinity)
            /\ get (lowPrices initial) interval
              = VNumber (if num_eq interval Infinity then NegInfinity else Infinity))
         intervals
  /\ get (highPrices initial) (Finite 5) = VNumber Infinity
  /\ get (lowPrices initial) Infinity = VNumber NegInfinity.
Proof.
  split; [|split; reflexivity].
  repeat (constructor; [split; reflexivity|]). constructor.
Qed.

(** C4.  For every trade event and every interval [i] of the Interval Set:
    when [timestamp % i === 0] the tracker sets the high of [i] to
    [Math.max] of the previous high and the price, and the low of [i] to
    [Math.min] of the previous low and the price; when the predicate does
    not hold, the high and the low of [i] are left as they were. *)
Theorem trade_samples_aligned_intervals fields now w interval :
  In interval intervals ->
  let trade := VObject fields in
  let timestamp := field fields "E" in
  let price := parseFloat (field fields "p") in
  let w' := snd (processTrade trade now w) in
  if boundary timestamp interval
  then get (highPrices w') interval
         = VNumber (Math_max (get (highPrices w) interval) (VNumber price))
       /\ get (lowPrices w') interval
         = VNumber (Math_min (get (lowPrices w) interval) (VNumber price))
  else get (highPrices w') interval = get (highPrices w) interval
       /\ get (lowPrices w') interval = get (lowPrices w) interval.
Proof.
  intros Hin. cbv zeta.
  rewrite processTrade_object.
  destruct (publishTrade_frame (VObject fields) (field fields "E")
              (parseFloat (field fields "p")) now
              (sampleTrade (field fields "E") (parseFloat (field fields "p")) w))
    as (Hh & Hl & _).
  rewrite Hh, Hl.
  exact (sampleTrade_at (field fields "E") (parseFloat (field fields "p"))
           w interval Hin).
Qed.

(** [timestamp % Infinity] is the timestamp, or NaN. *)
Lemma boundary_Infinity timestamp :
  boundary timestamp Infinity = num_eq (toNumber timestamp) zero.
Proof. unfold boundary. now destruct (toNumber timestamp). Qed.

(** One trade with a timestamp that is not zero leaves the extrema of the
    unbounded interval as they were. *)
Lemma step_keeps_unbounded ev w :
  nonzero_timestamp ev ->
  get (highPrices (step w ev)) Infinity = get (highPrices w) Infinity
  /\ get (lowPrices (step w ev)) Infinity = get (lowPrices w) Infinity.
Proof.
  destruct ev as [trade now | kline now]; [|intros []].
  intros Hnz. simpl in Hnz. unfold step.
  destruct (processTrade_extrema trade now w)
    as [(timestamp & p & HE & _ & Hh & Hl) | ->]; [|auto].
  rewrite Hh, Hl.
  assert (Hin : In Infinity intervals)
    by (unfold intervals; repeat (try (left; reflexivity); right)).
  pose proof (sampleTrade_at timestamp (parseFloat p) w Infinity Hin) as H.
  rewrite boundary_Infinity, (Hnz _ HE) in H. exact H.
Qed.

(** C10.  The boundary predicate of the unbounded interval,
    [timestamp % Infinity === 0], holds exactly when the timestamp is zero;
    so trades whose timestamp is not zero never update the high and the low
    of the unbounded interval, which after any number of such trades are
    what they were, and from the initial state are still their initial
    values. *)
Theorem unbounded_window_untouched_by_trades :
  (forall timestamp,
      boundary timestamp Infinity = num_eq (toNumber timestamp) zero)
  /\ (forall evs w,
        Forall nonzero_timestamp evs ->
        get (highPrices (run evs w)) Infinity = get (highPrices w) Infinity
        /\ get (lowPrices (run evs w)) Infinity = get (lowPrices w) Infinity)
  /\ (forall evs,
        Forall nonzero_timestamp evs ->
        get (highPrices (run evs initial)) Infinity
          = get (highPrices initial) Infinity
        /\ get (lowPrices (run evs initial)) Infinity
          = get (lowPrices initial) Infinity).
Proof.
  assert (Hrun : forall evs w,
             Forall nonzero_timestamp evs ->
             get (highPrices (run evs w)) Infinity = get (highPrices w) Infinity
             /\ get (lowPrices (run evs w)) Infinity = get (lowPrices w) Infinity).
  { induction evs as [|ev evs IH]; intros w Hall; [split; reflexivity|].
    inversion Hall as [|? ? Hev Hrest]; subst.
    destruct (step_keeps_unbounded ev w Hev) as [Hh Hl].
    destruct (IH (step w ev) Hrest) as [Hh' Hl'].
    unfold run in *. simpl. split; congruence. }
  split; [exact boundary_Infinity|]. split; [exact Hrun|].
  intros evs Hall. exact (Hrun evs initial Hall).
Qed.

End WithRuntime.

Import Example.

(** The first scenario: the timestamp 1000 is a multiple of 5, and the
    trade at 100.5 sets the low of the interval 5 to 100.5 and leaves its
    high at positive infinity. *)
Lemma trade_samples_aligned_intervals_witness :
  In (Finite 5) intervals
  /\ boundary (field scenario_trade "E") (Finite 5) = true
  /\ get (highPrices (snd (processTrade (VObject scenario_trade) 0 initial))) (Finite 5)
     = VNumber Infinity
  /\ get (lowPrices (snd (processTrade (VObject scenario_trade) 0 initial))) (Finite 5)
     = VNumber (Finite (201 # 2)).
Proof.
  assert (Hin : In (Finite 5) intervals) by (left; reflexivity).
  pose proof (trade_samples_aligned_intervals scenario_trade 0 initial (Finite 5) Hin)
    as H.
  cbv zeta in H.
  assert (Hb : boundary (field scenario_trade "E") (Finite 5) = true)
    by (vm_compute; reflexivity).
  rewrite Hb in H. destruct H as [Hh Hl].
  split; [exact Hin|]. split; [exact Hb|].
  rewrite Hh, Hl. split; vm_compute; reflexivity.
Defined.

(** Two trades at the timestamps 1000 and 1005 leave the unbounded
    interval at its initial values. *)
Lemma unbounded_window_untouched_by_trades_witness :
  Forall nonzero_timestamp
    [ TradeEvent (VObject scenario_trade) 0;
      TradeEvent (VObject [("E", VNumber (Finite 1005)); ("p", VString "99")]) 5 ]
  /\ get (highPrices
            (run [ TradeEvent (VObject scenario_trade) 0;
                   TradeEvent (VObject [("E", VNumber (Finite 1005)); ("p", VString "99")]) 5 ]
               initial)) Infinity
     = VNumber NegInfinity.
Proof.
  assert (Hall : Forall nonzero_timestamp
            [ TradeEvent (VObject scenario_trade) 0;
              TradeEvent (VObject [("E", VNumber (Finite 1005)); ("p", VString "99")]) 5 ]).
  { repeat constructor; simpl; intros timestamp Ht;
      injection Ht as <-; reflexivity. }
  split; [exact Hall|].
  destruct unbounded_window_untouched_by_trades as (_ & _ & H).
  destruct (H _ Hall) as [Hh _]. rewrite Hh. reflexivity.
Defined.

End ExtremaTracker.

(* ================================================================== *)
(** * The extrema tracker: the kline path and widening *)
(* ================================================================== *)

Module KlinePath.
Import JS Binance JSFacts Tracker.

Section WithRuntime.
Context {RT : Runtime} {E : Env}.





End WithRuntime.

Import Example.



Lemma initial_tracked : tracked initial.
Proof.
  intros interval Hin. unfold intervals in Hin. simpl in Hin.
  repeat (destruct Hin as [<- | Hin]; [split; reflexivity|]). destruct Hin.
Qed.



(** Why the prices have to be numbers.  A trade whose price does not read
    as a number, at the timestamp 0, turns the high of the unbounded
    interval from negative infinity into NaN, which is not greater than or
    equal to anything. *)
Lemma unread_price_loses_the_high :
  let trade := VObject [("e", VString "trade"); ("E", VNumber (Finite 0));
                        ("s", VString "BTCUSDT"); ("p", VString "abc")] in
  get (highPrices (snd (processTrade trade 0 initial))) Infinity = VNumber NaN
  /\ num_le (toNumber (get (highPrices initial) Infinity)) NaN = false.
Proof. cbv zeta. split; vm_compute; reflexivity. Qed.

(** And two klines whose label is the number 60 and whose lows are the
    strings "99.0" then "100.5": the second low is compared with the first
    as a string, is found less, and the low of the interval rises from
    99.0 to 100.5. *)
Lemma string_lows_are_compared_as_strings :
  let kline low :=
    VObject [("e", VString "kline");
             ("k", VObject [("i", VNumber (Finite 60)); ("h", VString "101.0");
                            ("l", VString low)])] in
  get (lowPrices (run [KlineEvent (kline "99.0") 0] initial)) (Finite 60)
    = VString "99.0"
  /\ get (lowPrices (run [KlineEvent (kline "99.0") 0; KlineEvent (kline "100.5") 5]
                       initial)) (Finite 60)
    = VString "100.5".
Proof. cbv zeta. split; vm_compute; reflexivity. Qed.

End KlinePath.

(* ================================================================== *)
(** * The dual-sink publisher and the sliding-window cache *)
(* ================================================================== *)

Module Publisher.
Import JS Binance JSFacts Tracker.

Lemma skipn_app_length {A} (a b : list A) : skipn (length a) (a ++ b) = b.
Proof. induction a as [|x a IH]; simpl; auto. Qed.

Lemma skipn_length {A} (a : list A) : skipn (length a) a = [].
Proof. induction a as [|x a IH]; simpl; auto. Qed.

Lemma mem_filter f k l : mem k (filter f l) = true -> mem k l = true.
Proof.
  unfold mem. rewrite !existsb_exists. intros (x & Hin & Hk).
  apply filter_In in Hin as [Hin _]. eauto.
Qed.

Lemma distinct_filter f l : distinct l = true -> distinct (filter f l) = true.
Proof.
  induction l as [|k l IH]; simpl; [auto|].
  intros H. apply andb_true_iff in H as [Hk Hl].
  destruct (f k); simpl; [|auto].
  rewrite (IH Hl), andb_true_r.
  destruct (mem k (filter f l)) eqn:Hm; [|reflexivity].
  apply mem_filter in Hm. now rewrite Hm in Hk.
Qed.

Section WithRuntime.
Context {RT : Runtime} {E : Env}.

(** The requests of the synchronous parts. *)
Lemma issued_processTrade fields now w :
  issued (processTrade (VObject fields) now) w = tradeRequests fields now.
Proof.
  unfold issued. rewrite processTrade_object, publishTrade_object. cbn [snd].
  destruct (sampleTrade_frame (field fields "E") (parseFloat (field fields "p")) w)
    as (Hout & _).
  change (out (with_out ?x ?o)) with o. rewrite Hout. apply skipn_app_length.
Qed.

Lemma sampleKline_out i h l w : out (sampleKline i h l w) = out w.
Proof.
  unfold sampleKline. destruct (found i); [|reflexivity].
  destruct (js_gt h (get (highPrices w) (key i))),
           (js_lt l (get (lowPrices w) (key i))); reflexivity.
Qed.

Lemma issued_processKline fields kfields now w :
  field fields "k" = VObject kfields ->
  issued (processKline (VObject fields) now) w = klineRequests fields kfields now.
Proof.
  intros Hk. unfold issued.
  rewrite (processKline_object fields kfields now w Hk), publishKline_object.
  cbn [snd]. change (out (with_out ?x ?o)) with o.
  rewrite sampleKline_out. apply skipn_app_length.
Qed.

(** The loop of the [.then]: one pipeline for each interval of [l] whose
    boundary predicate holds, in order. *)
Lemma snapshots_object fields timestamp l : forall w,
  snapshots (VObject fields) timestamp l w
  = (inr tt,
     with_out w (out w ++ map (snapshotRequest fields w) (filter (boundary timestamp) l))).
Proof.
  induction l as [|interval l IH]; intros w; simpl.
  - unfold ret. rewrite app_nil_r. now destruct w.
  - unfold bind, snapshot. destruct (boundary timestamp interval); simpl.
    + unfold bind, lift, issue, modify. simpl. rewrite IH. simpl.
      unfold with_out. simpl. now rewrite <- app_assoc.
    + unfold ret. apply IH.
Qed.

(** C6, at the failing input.  When the enqueue fails, the callback adds
    one to the fail counter of its kind, logs the error, and then adds one
    to the success counter of that kind as well; when the enqueue succeeds
    it adds one to the success counter only.  The cache transaction is
    issued by the synchronous part, whatever the enqueue does. *)
Theorem failed_enqueue_counts_as_success_too err w :
  (let w' := snd (tradeQueueCallback (Some err) w) in
   failT w' = failT w + 1 /\ succT w' = succT w + 1
   /\ failK w' = failK w /\ succK w' = succK w
   /\ log w' = (log w ++ [ErrorObject err])%list)
  /\ (let w' := snd (klineQueueCallback (Some err) w) in
      failK w' = failK w + 1 /\ succK w' = succK w + 1
      /\ failT w' = failT w /\ succT w' = succT w
      /\ log w' = (log w ++ [ErrorObject err])%list)
  /\ (let w' := snd (tradeQueueCallback None w) in
      failT w' = failT w /\ succT w' = succT w + 1
      /\ failK w' = failK w /\ succK w' = succK w /\ log w' = log w)
  /\ (let w' := snd (klineQueueCallback None w) in
      failK w' = failK w /\ succK w' = succK w + 1
      /\ failT w' = failT w /\ succT w' = succT w /\ log w' = log w)
  /\ (forall fields now,
        exists cmds, In (Multi cmds Trade) (issued (processTrade (VObject fields) now) w)).
Proof.
  repeat split; try reflexivity.
  intros fields now. rewrite issued_processTrade. unfold tradeRequests.
  eexists. right. left. reflexivity.
Qed.

(** C7.  The synchronous part of [processTrade] issues the first enqueue
    (delay 0) and the cache transaction, and nothing else.  When the
    transaction succeeds, its [.then] issues one pipeline, a [SET] of the
    high key and a [SET] of the low key, for each interval the trade was
    sampled against, each such interval once, and then one enqueue of the
    same canonical trade with the delay 300.  When the transaction fails,
    its [.catch] issues nothing, logs the error and rethrows it. *)
Theorem cache_outcome_gates_snapshots_and_duplicate fields now w w1 err :
  let trade := VObject fields in
  let timestamp := field fields "E" in
  let tradeObject := canonicalTrade fields in
  issued (processTrade trade now) w
    = [ SendQueue wsBinance (JSON_stringify tradeObject) 0 0 Trade;
        Multi [ Redis.ZADD [Lit "trade:"; Sub (field fields "s"); Lit ":binance"]
                  timestamp (JSON_stringify tradeObject);
                Redis.ZREMRANGEBYSCORE
                  [Lit "trade:"; Sub (field fields "s"); Lit ":binance"]
                  zero (cutoff now) ] Trade ]
  /\ (fst (tradeCacheThen trade timestamp tradeObject w1) = inr tt
      /\ issued (tradeCacheThen trade timestamp tradeObject) w1
         = (map (snapshotRequest fields w1) (sampled timestamp)
            ++ [ SendQueue wsBinance (JSON_stringify tradeObject) 0 300 Trade ])%list
      /\ distinct (sampled timestamp) = true
      /\ log (snd (tradeCacheThen trade timestamp tradeObject w1)) = log w1)
  /\ (fst (tradeCacheCatch err w1) = inl (Raised err)
      /\ issued (tradeCacheCatch err) w1 = []
      /\ log (snd (tradeCacheCatch err w1))
         = (log w1
            ++ [ErrorText [Lit "Error processing trade: ";
                           Sub (VString (message err))]])%list).
Proof.
  cbv zeta. split; [apply issued_processTrade|]. split.
  - unfold issued, tradeCacheThen, bind. rewrite snapshots_object.
    unfold issue, modify. cbn [fst snd]. change (out (with_out ?x ?o)) with o.
    change (out (with_out ?x ?o)) with o.
    rewrite <- app_assoc, skipn_app_length.
    repeat split. apply distinct_filter, intervals_distinct.
  - unfold issued, tradeCacheCatch, bind, logger_error, modify, throw.
    cbn [fst snd]. repeat split. apply skipn_length.
Qed.

(** What is left of a sorted set after an append and a prune. *)
Lemma append_prune_range key key' score member min max z e :
  In e (Redis.exec [Redis.ZADD key score member;
                    Redis.ZREMRANGEBYSCORE key' min max] z) ->
  (num_le min (snd e) && num_le (snd e) max) = false.
Proof.
  unfold Redis.exec. simpl. unfold Redis.zremrangebyscore.
  intros Hin. apply filter_In in Hin as [_ H]. now apply negb_true_iff.
Qed.

(** C8, as the code has it.  The cache transaction of a trade, and that of
    a kline, append to one channel and prune the same channel; whatever
    the channel held, after the transaction it holds no entry whose score
    is at least 0 and at most the cutoff, the clock reading minus one hour. *)
Theorem append_prune_leaves_no_score_up_to_cutoff now w z e :
  (forall fields,
      In e (Redis.exec (transaction (issued (processTrade (VObject fields) now) w)) z) ->
      (num_le zero (snd e) && num_le (snd e) (cutoff now)) = false)
  /\ (forall fields kfields,
        field fields "k" = VObject kfields ->
        In e (Redis.exec (transaction (issued (processKline (VObject fields) now) w)) z) ->
        (num_le zero (snd e) && num_le (snd e) (cutoff now)) = false)
  /\ cutoff now = Finite (inject_Z now - 3600000)
  /\ (forall fields,
        exists channel,
          Forall (fun c => Redis.key_of c = channel)
                 (transaction (issued (processTrade (VObject fields) now) w)))
  /\ (forall fields kfields,
        field fields "k" = VObject kfields ->
        exists channel,
          Forall (fun c => Redis.key_of c = channel)
                 (transaction (issued (processKline (VObject fields) now) w))).
Proof.
  split; [|split; [|split; [|split]]].
  - intros fields. rewrite issued_processTrade. simpl transaction.
    apply append_prune_range.
  - intros fields kfields Hk. rewrite (issued_processKline _ _ _ _ Hk).
    simpl transaction. apply append_prune_range.
  - reflexivity.
  - intros fields. rewrite issued_processTrade. simpl transaction.
    eexists. repeat constructor.
  - intros fields kfields Hk. rewrite (issued_processKline _ _ _ _ Hk).
    simpl transaction. eexists. repeat constructor.
Qed.

End WithRuntime.

Import Example.

(** C6: one failed enqueue of a trade, from the initial state, leaves both
    the fail counter and the success counter of trades at 1. *)
Lemma failed_enqueue_example :
  let w' := snd (tradeQueueCallback (Some {| message := "channel closed" |}) initial) in
  failT w' = 1 /\ succT w' = 1.
Proof. split; reflexivity. Qed.

(** C8 fails on an entry with a negative score.  A trade whose event time
    is -1, processed when the clock reads 1700000000000, is appended to an
    empty channel with the score -1; the cutoff is 1699996400000, the
    score is older than it, and after the prune the entry is still there. *)
Lemma negative_score_survives_prune :
  let trade := VObject [ ("e", VString "trade"); ("E", VNumber (Finite (-1)));
                         ("s", VString "BTCUSDT"); ("p", VString "100.5") ] in
  let cmds := transaction (issued (processTrade trade 1700000000000) initial) in
  Exists (fun e => num_lt (snd e) (cutoff 1700000000000) = true)
         (Redis.exec cmds []).
Proof. cbv zeta. vm_compute. left. reflexivity. Qed.

(** A kline whose close time is 1699990000000, processed when the clock
    reads 1700000000000, on a channel holding one entry of score
    1699000000000: no entry with a score from 0 to the cutoff is left.
    The same for the trade of the first scenario. *)
Lemma append_prune_leaves_no_score_up_to_cutoff_witness :
  let kline :=
    [ ("e", VString "kline");
      ("k", VObject [ ("T", VNumber (Finite 1699990000000));
                      ("s", VString "BTCUSDT"); ("i", VString "1m") ]) ] in
  let z := [(VString "old", Finite 1699000000000)] in
  field kline "k"
    = VObject [ ("T", VNumber (Finite 1699990000000));
                ("s", VString "BTCUSDT"); ("i", VString "1m") ]
  /\ forall e,
       (In e (Redis.exec
                (transaction
                   (issued (processKline (VObject kline) 1700000000000) initial)) z) ->
        (num_le zero (snd e) && num_le (snd e) (cutoff 1700000000000)) = false)
       /\ (In e (Redis.exec
                   (transaction
                      (issued (processTrade (VObject scenario_trade) 1700000000000)
                         initial)) z) ->
           (num_le zero (snd e) && num_le (snd e) (cutoff 1700000000000)) = false).
Proof.
  cbv zeta. split; [reflexivity|]. intros e.
  destruct (append_prune_leaves_no_score_up_to_cutoff 1700000000000 initial
              [(VString "old", Finite 1699000000000)] e) as (Ht & Hk & _).
  split.
  - apply (Hk _ [ ("T", VNumber (Finite 1699990000000));
                  ("s", VString "BTCUSDT"); ("i", VString "1m") ]).
    reflexivity.
  - exact (Ht scenario_trade).
Defined.

End Publisher.

(* ================================================================== *)
(** * The ingestion dispatcher *)
(* ================================================================== *)

Module Dispatcher.
Import JS Binance.

Section WithRuntime.
Context {RT : Runtime} {E : Env}.



End WithRuntime.

Import Example.


(** A trade frame whose data has no price is not dropped either: both the
    enqueue and the cache transaction are issued. *)
Lemma frame_without_price_reaches_both_sinks :
  let frame :=
    VJson (VObject [ ("stream", VString "btcusdt@trade");
                     ("data", VObject [ ("e", VString "trade");
                                        ("E", VNumber (Finite 1001));
                                        ("s", VString "BTCUSDT") ]) ]) in
  fst (handleMessage frame (messageCallback 0) initial) = inr tt
  /\ length (out (snd (handleMessage frame (messageCallback 0) initial))) = 2%nat.
Proof. cbv zeta. split; vm_compute; reflexivity. Qed.


End Dispatcher.

(* ================================================================== *)
(** * The consumer *)
(* ================================================================== *)

Module Consumer.
Import JS Hopper.

Section WithRuntime.
Context {RT : Runtime} {E : Binance.Env}.

(** What [handleMessage] does with a message whose envelope and payload
    decode. *)
Lemma handleMessage_decoded data item d payload eventType hw :
  JSON_parse (content data) = inr item ->
  prop item "data" = inr d -> truthy d = true ->
  JSON_parse d = inr payload ->
  prop payload "eventType" = inr (VString eventType) ->
  handleMessage data hw
  = match lookup callbacks eventType with
    | Own callback => callback payload
    | Inherited =>
        if inherited_returns eventType payload then ret tt else throw TypeError
    | Absent => logger_error [Lit "Not supported stream type"]
    end (snd (logger_debug [Lit "Payload: \n"; Sub payload] hw)).
Proof.
  intros Hi Hd Ht Hp He. unfold handleMessage, bind, lift.
  rewrite Hi, Hd, Ht, Hp. simpl negb. cbv iota.
  unfold logger_debug at 1, modify at 1. rewrite He. simpl chars. cbv iota.
  reflexivity.
Qed.

(** C1.  A message whose envelope decodes, whose [data] decodes to a
    payload, and whose payload has the event type [trade] is handed to
    [handleTradeMessage]; one whose payload has the event type [kline] is
    handed to [handleKlineMessage].  And what the publisher enqueues for a
    trade event of type [trade] (or for a kline event of type [kline]),
    once delivered, reaches the handler of its kind, as the canonical
    event read back from its text. *)
Theorem consumer_forwards_to_the_handler_of_the_kind hw :
  (forall data item d payload,
      JSON_parse (content data) = inr item ->
      prop item "data" = inr d -> truthy d = true ->
      JSON_parse d = inr payload ->
      (prop payload "eventType" = inr (VString "trade") ->
       handleMessage data hw
       = handleTradeMessage payload
           (snd (logger_debug [Lit "Payload: \n"; Sub payload] hw)))
      /\ (prop payload "eventType" = inr (VString "kline") ->
          handleMessage data hw
          = handleKlineMessage payload
              (snd (logger_debug [Lit "Payload: \n"; Sub payload] hw))))
  /\ (forall fields now w,
        field fields "e" = VString "trade" ->
        let content := JSON_stringify (Binance.canonicalTrade fields) in
        let payload := json_clean (Binance.canonicalTrade fields) in
        In (Binance.SendQueue Binance.wsBinance content 0 0 Binance.Trade)
           (Binance.issued (Binance.processTrade (VObject fields) now) w)
        /\ handleMessage (Queue.delivered content) hw
           = handleTradeMessage payload
               (snd (logger_debug [Lit "Payload: \n"; Sub payload] hw)))
  /\ (forall fields kfields now w,
        field fields "e" = VString "kline" ->
        field fields "k" = VObject kfields ->
        let content := JSON_stringify (Binance.canonicalKline fields kfields) in
        let payload := json_clean (Binance.canonicalKline fields kfields) in
        In (Binance.SendQueue Binance.wsBinance content 0 300 Binance.Kline)
           (Binance.issued (Binance.processKline (VObject fields) now) w)
        /\ handleMessage (Queue.delivered content) hw
           = handleKlineMessage payload
               (snd (logger_debug [Lit "Payload: \n"; Sub payload] hw))).
Proof.
  split; [|split].
  - intros data item d payload Hi Hd Ht Hp. split; intros He;
      now rewrite (handleMessage_decoded _ _ _ _ _ _ Hi Hd Ht Hp He).
  - intros fields now w He. cbv zeta. split.
    + rewrite Publisher.issued_processTrade. left. reflexivity.
    + rewrite (handleMessage_decoded
                 (Queue.delivered (JSON_stringify (Binance.canonicalTrade fields)))
                 (VObject [("data", VJson (Binance.canonicalTrade fields))])
                 (VJson (Binance.canonicalTrade fields))
                 (json_clean (Binance.canonicalTrade fields)) "trade" hw);
        try reflexivity.
      unfold Binance.canonicalTrade. rewrite He. reflexivity.
  - intros fields kfields now w He Hk. cbv zeta. split.
    + rewrite (Publisher.issued_processKline _ _ _ _ Hk). left. reflexivity.
    + rewrite (handleMessage_decoded
                 (Queue.delivered (JSON_stringify (Binance.canonicalKline fields kfields)))
                 (VObject [("data", VJson (Binance.canonicalKline fields kfields))])
                 (VJson (Binance.canonicalKline fields kfields))
                 (json_clean (Binance.canonicalKline fields kfields)) "kline" hw);
        try reflexivity.
      unfold Binance.canonicalKline. rewrite He. reflexivity.
Qed.

End WithRuntime.

Import Example.

(** The trade of the first scenario, enqueued by [processTrade] and
    delivered: the worker hands it to [handleTradeMessage], which asks for
    one point to be written. *)
Lemma consumer_forwards_to_the_handler_of_the_kind_witness :
  field scenario_trade "e" = VString "trade"
  /\ handleMessage
       (Queue.delivered (JSON_stringify (Binance.canonicalTrade scenario_trade)))
       initial
     = handleTradeMessage (json_clean (Binance.canonicalTrade scenario_trade))
         (snd (logger_debug
                 [Lit "Payload: \n";
                  Sub (json_clean (Binance.canonicalTrade scenario_trade))]
                 initial))
  /\ length (out (snd (handleMessage
                         (Queue.delivered
                            (JSON_stringify (Binance.canonicalTrade scenario_trade)))
                         initial))) = 1%nat.
Proof.
  assert (He : field scenario_trade "e" = VString "trade") by reflexivity.
  destruct (consumer_forwards_to_the_handler_of_the_kind initial) as (_ & H & _).
  destruct (H scenario_trade 0 Binance.initial He) as [_ Hfwd].
  cbv zeta in Hfwd.
  split; [exact He|]. split; [exact Hfwd|].
  rewrite Hfwd. vm_compute. reflexivity.
Defined.

End Consumer.

(* ================================================================== *)
(** * More on the extrema tracker *)
(* ================================================================== *)

Module TrackerInvariants.
Import JS Binance JSFacts Tracker.

Lemma num_lt_not_le a b : num_lt a b = true -> num_le b a = false.
Proof.
  destruct a as [| |x|], b as [| |y|]; simpl; try discriminate; try reflexivity.
  rewrite <- (Qcompare_antisym x y). now destruct (x ?= y)%Q.
Qed.

(** Writing a property that is there keeps the property names. *)
Lemma set_keeps_names (o : obj) k v :
  (exists k0, In k0 (map fst o) /\ same_key k0 k = true) ->
  map fst (set o k v) = map fst o.
Proof.
  induction o as [|[k1 v1] o IH]; intros (k0 & Hin & Hk); [destruct Hin|].
  simpl. destruct (same_key k1 k) eqn:H1; [reflexivity|].
  simpl. f_equal. apply IH. destruct Hin as [<- | Hin]; [simpl in Hk; congruence|].
  eauto.
Qed.

Lemma interval_is_name (o : obj) k :
  map fst o = intervals -> In k intervals ->
  exists k0, In k0 (map fst o) /\ same_key k0 k = true.
Proof. intros -> Hin. exists k. split; [assumption | apply same_key_refl]. Qed.

Lemma num_eq_same_key a b : num_eq a b = true -> same_key a b = true.
Proof. destruct a, b; simpl; auto; discriminate. Qed.

Section WithRuntime.
Context {RT : Runtime} {E : Env}.

Lemma Math_max_again a p :
  Math_max (VNumber (Math_max a (VNumber p))) (VNumber p) = Math_max a (VNumber p).
Proof.
  unfold Math_max. simpl toNumber.
  destruct (is_NaN (toNumber a)) eqn:Ha; simpl; [reflexivity|].
  destruct (is_NaN p) eqn:Hp; simpl; [reflexivity|].
  destruct (num_lt (toNumber a) p) eqn:Hlt; rewrite ?Hp, ?Ha; simpl.
  - now rewrite num_lt_irrefl.
  - now rewrite Hlt.
Qed.

Lemma Math_min_again a p :
  Math_min (VNumber (Math_min a (VNumber p))) (VNumber p) = Math_min a (VNumber p).
Proof.
  unfold Math_min. simpl toNumber.
  destruct (is_NaN (toNumber a)) eqn:Ha; simpl; [reflexivity|].
  destruct (is_NaN p) eqn:Hp; simpl; [reflexivity|].
  destruct (num_lt p (toNumber a)) eqn:Hlt; rewrite ?Hp, ?Ha; simpl.
  - now rewrite num_lt_irrefl.
  - now rewrite Hlt.
Qed.

(** The extrema of an interval after [processTrade] on an object. *)
Lemma processTrade_at fields now w interval :
  In interval intervals ->
  if boundary (field fields "E") interval
  then get (highPrices (snd (processTrade (VObject fields) now w))) interval
         = VNumber (Math_max (get (highPrices w) interval)
                      (VNumber (parseFloat (field fields "p"))))
       /\ get (lowPrices (snd (processTrade (VObject fields) now w))) interval
         = VNumber (Math_min (get (lowPrices w) interval)
                      (VNumber (parseFloat (field fields "p"))))
  else get (highPrices (snd (processTrade (VObject fields) now w))) interval
         = get (highPrices w) interval
       /\ get (lowPrices (snd (processTrade (VObject fields) now w))) interval
         = get (lowPrices w) interval.
Proof.
  intros Hin. rewrite processTrade_object.
  destruct (publishTrade_frame (VObject fields) (field fields "E")
              (parseFloat (field fields "p")) now
              (sampleTrade (field fields "E") (parseFloat (field fields "p")) w))
    as (Hh & Hl & _).
  rewrite Hh, Hl.
  exact (sampleTrade_at (field fields "E") (parseFloat (field fields "p"))
           w interval Hin).
Qed.

(** X1.  After a trade is processed, the high of every interval it was
    sampled against is at least the trade's price and the low at most the
    trade's price, when the price reads as a number and the extrema were
    numbers. *)
Theorem sampled_trade_price_is_within_extrema fields now w interval :
  tracked w -> In interval intervals ->
  is_NaN (parseFloat (field fields "p")) = false ->
  boundary (field fields "E") interval = true ->
  let price := parseFloat (field fields "p") in
  let w' := snd (processTrade (VObject fields) now w) in
  num_le price (toNumber (get (highPrices w') interval)) = true
  /\ num_le (toNumber (get (lowPrices w') interval)) price = true.
Proof.
  intros Ht Hin Hp Hb. cbv zeta.
  pose proof (processTrade_at fields now w interval Hin) as H.
  rewrite Hb in H. destruct H as [Hh Hl]. rewrite Hh, Hl.
  destruct (Ht interval Hin) as [Hnh Hnl].
  destruct (numeric_inv _ Hnh) as (y & -> & Hy).
  destruct (numeric_inv _ Hnl) as (z & -> & Hz).
  unfold Math_max, Math_min. simpl toNumber. rewrite Hy, Hz, Hp. simpl.
  split.
  - destruct (num_lt y (parseFloat (field fields "p"))) eqn:Hlt.
    + now apply num_le_refl.
    + now apply num_lt_false.
  - destruct (num_lt (parseFloat (field fields "p")) z) eqn:Hlt.
    + now apply num_le_refl.
    + now apply num_lt_false.
Qed.


(** X3.  Over any sequence of events whose prices are numbers, every
    interval of the Interval Set keeps a number, never NaN and never a
    string, for its high and for its low. *)
Theorem extrema_stay_numbers evs w :
  tracked w -> Forall numeric_event evs -> tracked (run evs w).
Proof.
  intros Ht Hall interval Hin.
  destruct (run_widens evs w Ht Hall interval Hin) as (Hh & Hl & _). auto.
Qed.

(** The property names of the extrema after one event. *)
Lemma sample_names timestamp price w interval :
  map fst (highPrices w) = intervals -> map fst (lowPrices w) = intervals ->
  In interval intervals ->
  map fst (highPrices (sample timestamp price w interval)) = intervals
  /\ map fst (lowPrices (sample timestamp price w interval)) = intervals.
Proof.
  intros Hh Hl Hin. unfold sample. destruct (boundary timestamp interval); [|auto].
  simpl. rewrite !set_keeps_names by (apply interval_is_name; assumption). auto.
Qed.

Lemma fold_sample_names timestamp price l : forall w,
  (forall k, In k l -> In k intervals) ->
  map fst (highPrices w) = intervals -> map fst (lowPrices w) = intervals ->
  map fst (highPrices (fold_left (sample timestamp price) l w)) = intervals
  /\ map fst (lowPrices (fold_left (sample timestamp price) l w)) = intervals.
Proof.
  induction l as [|i l IH]; intros w Hsub Hh Hl; simpl; [auto|].
  destruct (sample_names timestamp price w i Hh Hl (Hsub i (or_introl eq_refl)))
    as [Hh' Hl'].
  apply IH; auto. intros k Hk. apply Hsub. now right.
Qed.

Lemma sampleTrade_names timestamp price w :
  map fst (highPrices w) = intervals -> map fst (lowPrices w) = intervals ->
  map fst (highPrices (sampleTrade timestamp price w)) = intervals
  /\ map fst (lowPrices (sampleTrade timestamp price w)) = intervals.
Proof.
  intros Hh Hl. unfold sampleTrade. apply fold_sample_names; auto.
Qed.

Lemma sampleKline_names i h l w :
  map fst (highPrices w) = intervals -> map fst (lowPrices w) = intervals ->
  map fst (highPrices (sampleKline i h l w)) = intervals
  /\ map fst (lowPrices (sampleKline i h l w)) = intervals.
Proof.
  intros Hh Hl. unfold sampleKline. destruct (found i) eqn:Hf; [|auto].
  apply found_iff in Hf as (n & interval & -> & Hin & Heq). simpl key.
  assert (Hname : forall o : obj, map fst o = intervals ->
            exists k0, In k0 (map fst o) /\ same_key k0 n = true).
  { intros o ->. exists interval. split; [assumption|now apply num_eq_same_key]. }
  destruct (js_gt h (get (highPrices w) n)), (js_lt l (get (lowPrices w) n)); simpl;
    rewrite ?set_keeps_names by (apply Hname; assumption); auto.
Qed.

Lemma step_names ev w :
  map fst (highPrices w) = intervals -> map fst (lowPrices w) = intervals ->
  map fst (highPrices (step w ev)) = intervals
  /\ map fst (lowPrices (step w ev)) = intervals.
Proof.
  intros Hh Hl. destruct ev as [trade now | kline now]; unfold step.
  - destruct (processTrade_extrema trade now w)
      as [(timestamp & p & _ & _ & Hh' & Hl') | ->]; [|auto].
    rewrite Hh', Hl'. now apply sampleTrade_names.
  - destruct (processKline_extrema kline now w)
      as [(klineData & i & h & l & _ & _ & _ & _ & Hh' & Hl') | ->]; [|auto].
    rewrite Hh', Hl'. now apply sampleKline_names.
Qed.

(** X4.  No event adds a property to [highPrices] or to [lowPrices] or
    removes one: when the property names of both are the Interval Set, as
    they are when the module is loaded, they still are after any sequence
    of trade and kline events, whatever the events carry. *)
Theorem extrema_keep_their_intervals evs : forall w,
  map fst (highPrices w) = intervals -> map fst (lowPrices w) = intervals ->
  map fst (highPrices (run evs w)) = intervals
  /\ map fst (lowPrices (run evs w)) = intervals.
Proof.
  induction evs as [|ev evs IH]; intros w Hh Hl; [auto|].
  destruct (step_names ev w Hh Hl) as [Hh' Hl'].
  exact (IH (step w ev) Hh' Hl').
Qed.

(** X5.  Processing the same trade event a second time changes no
    extremum: every interval of the Interval Set has the high and the low
    it had after the first time. *)
Theorem replayed_trade_changes_no_extremum fields now now' w interval :
  In interval intervals ->
  let w1 := snd (processTrade (VObject fields) now w) in
  let w2 := snd (processTrade (VObject fields) now' w1) in
  get (highPrices w2) interval = get (highPrices w1) interval
  /\ get (lowPrices w2) interval = get (lowPrices w1) interval.
Proof.
  intros Hin. cbv zeta.
  pose proof (processTrade_at fields now w interval Hin) as H1.
  pose proof (processTrade_at fields now'
                (snd (processTrade (VObject fields) now w)) interval Hin) as H2.
  destruct (boundary (field fields "E") interval); [|exact H2].
  destruct H1 as [Hh1 Hl1]. destruct H2 as [Hh2 Hl2].
  rewrite Hh2, Hl2, Hh1, Hl1.
  generalize (get (highPrices w) interval) as high,
             (get (lowPrices w) interval) as low,
             (parseFloat (field fields "p")) as price.
  intros price low high. rewrite Math_max_again, Math_min_again.
  split; reflexivity.
Qed.

End WithRuntime.

Import Example.

Lemma sampled_trade_price_is_within_extrema_witness :
  (tracked initial /\ In (Finite 10) intervals
   /\ is_NaN (parseFloat (field scenario_trade "p")) = false
   /\ boundary (field scenario_trade "E") (Finite 10) = true)
  /\ num_le (Finite (201 # 2))
       (toNumber (get (highPrices (snd (processTrade (VObject scenario_trade) 0 initial)))
                    (Finite 10))) = true.
Proof.
  assert (Hin : In (Finite 10) intervals) by (right; left; reflexivity).
  assert (Hp : is_NaN (parseFloat (field scenario_trade "p")) = false) by reflexivity.
  assert (Hb : boundary (field scenario_trade "E") (Finite 10) = true)
    by (vm_compute; reflexivity).
  split.
  { split; [exact KlinePath.initial_tracked|].
    split; [exact Hin|]. split; [exact Hp | exact Hb]. }
  exact (proj1 (sampled_trade_price_is_within_extrema scenario_trade 0 initial
                  (Finite 10) KlinePath.initial_tracked Hin Hp Hb)).
Defined.


Lemma extrema_stay_numbers_witness :
  tracked (run [ TradeEvent (VObject scenario_trade) 0;
                 KlineEvent (exchange_kline "1m" "101.0" "99.0") 5 ] initial).
Proof.
  apply extrema_stay_numbers; [exact KlinePath.initial_tracked|].
  constructor; [|constructor; [|constructor]].
  - intros p Hp. injection Hp as <-. reflexivity.
  - intros klineData i h l Hk Hi Hh Hl. injection Hk as <-.
    injection Hi as <-. left. reflexivity.
Defined.

Lemma extrema_keep_their_intervals_witness :
  map fst (highPrices (run [ TradeEvent (VObject scenario_trade) 0;
                             KlineEvent (exchange_kline "1m" "101.0" "99.0") 5;
                             TradeEvent VNull 6 ] initial)) = intervals.
Proof.
  exact (proj1 (extrema_keep_their_intervals _ initial eq_refl eq_refl)).
Defined.

Lemma replayed_trade_changes_no_extremum_witness :
  In (Finite 5) intervals
  /\ get (lowPrices
            (snd (processTrade (VObject scenario_trade) 1
                    (snd (processTrade (VObject scenario_trade) 0 initial)))))
         (Finite 5)
     = get (lowPrices (snd (processTrade (VObject scenario_trade) 0 initial)))
         (Finite 5).
Proof.
  assert (Hin : In (Finite 5) intervals) by (left; reflexivity).
  split; [exact Hin|].
  exact (proj2 (replayed_trade_changes_no_extremum scenario_trade 0 1 initial
                  (Finite 5) Hin)).
Defined.

End TrackerInvariants.

(* ================================================================== *)
(** * What the two publishers do with any event *)
(* ================================================================== *)

Module PublishEdges.
Import JS Binance JSFacts Tracker.

(** A value with no properties to read: [undefined] or [null]. *)
Lemma prop_throws o k e : prop o k = inl e -> (o = VUndefined \/ o = VNull) /\ e = TypeError.
Proof. destruct o; simpl; intros H; try discriminate; injection H as <-; auto. Qed.

Section WithRuntime.
Context {RT : Runtime} {E : Env}.

(** Publishing a trade that has properties: the enqueue, then the
    transaction on one channel. *)
Lemma publishTrade_shape trade timestamp price now :
  trade <> VUndefined -> trade <> VNull ->
  exists content channel,
    forall w,
      publishTrade trade timestamp price now w
      = (inr tt,
         with_out w
           (out w ++ [ SendQueue wsBinance content 0 0 Trade;
                       Multi [ Redis.ZADD channel timestamp content;
                               Redis.ZREMRANGEBYSCORE channel zero (cutoff now) ]
                         Trade ])).
Proof.
  intros H1 H2. destruct trade; try congruence; do 2 eexists; intros w;
    unfold publishTrade, bind, lift, issue, ret, modify; simpl;
    unfold with_out; simpl; rewrite <- app_assoc; reflexivity.
Qed.

Lemma publishKline_shape klineData klineObject now :
  klineData <> VUndefined -> klineData <> VNull ->
  exists channel score,
    forall w,
      publishKline klineData klineObject now w
      = (inr tt,
         with_out w
           (out w ++ [ SendQueue wsBinance (JSON_stringify klineObject) 0 300 Kline;
                       Multi [ Redis.ZADD channel score (JSON_stringify klineObject);
                               Redis.ZREMRANGEBYSCORE channel zero (cutoff now) ]
                         Kline ])).
Proof.
  intros H1 H2. destruct klineData; try congruence; do 2 eexists; intros w;
    unfold publishKline, bind, lift, issue, ret, modify; simpl;
    unfold with_out; simpl; rewrite <- app_assoc; reflexivity.
Qed.

Lemma processTrade_on_nothing trade now w :
  trade = VUndefined \/ trade = VNull ->
  processTrade trade now w = (inl TypeError, w).
Proof. intros [-> | ->]; reflexivity. Qed.

Lemma processKline_on_nothing kline now w :
  kline = VUndefined \/ kline = VNull
  \/ (exists klineData, prop kline "k" = inr klineData
                        /\ (klineData = VUndefined \/ klineData = VNull)) ->
  processKline kline now w = (inl TypeError, w).
Proof.
  intros [-> | [-> | (klineData & Hk & Hd)]]; try reflexivity.
  unfold processKline, bind, lift. rewrite Hk.
  destruct kline; try discriminate; destruct Hd as [-> | ->]; reflexivity.
Qed.

(** X6.  [processTrade] on [undefined] or [null] throws a [TypeError] and
    leaves everything as it was.  On any other value whose [E], [p], [q]
    and [s] are primitive values, in a state whose extrema are primitive
    values, it returns, having issued exactly two requests, the enqueue
    with priority 0 and delay 0 and the cache transaction that appends to
    and prunes one channel with the same payload.  It never touches a
    counter or the log. *)
Theorem processTrade_throws_or_publishes trade now w :
  (trade = VUndefined \/ trade = VNull ->
   processTrade trade now w = (inl TypeError, w))
  /\ (trade <> VUndefined -> trade <> VNull ->
      Plain.primitive_at trade ["E"; "p"; "q"; "s"] ->
      Plain.primitive_extrema w ->
      fst (processTrade trade now w) = inr tt
      /\ exists content channel score,
           issued (processTrade trade now) w
           = [ SendQueue wsBinance content 0 0 Trade;
               Multi [ Redis.ZADD channel score content;
                       Redis.ZREMRANGEBYSCORE channel zero (cutoff now) ] Trade ])
  /\ (let w' := snd (processTrade trade now w) in
      log w' = log w
      /\ succK w' = succK w /\ succT w' = succT w
      /\ failK w' = failK w /\ failT w' = failT w).
Proof.
  split; [apply processTrade_on_nothing|]. split.
  - intros H1 H2 _ _.
    assert (HE : exists timestamp, prop trade "E" = inr timestamp)
      by (destruct trade; try congruence; simpl; eauto).
    assert (Hp : exists p, prop trade "p" = inr p)
      by (destruct trade; try congruence; simpl; eauto).
    destruct HE as [timestamp HE]. destruct Hp as [p Hp].
    destruct (publishTrade_shape trade timestamp (parseFloat p) now H1 H2)
      as (content & channel & Hpub).
    unfold issued. rewrite (processTrade_unfold _ _ _ _ _ HE Hp), Hpub.
    cbn [fst snd]. split; [reflexivity|].
    exists content, channel, timestamp.
    change (out (with_out ?x ?o)) with o.
    destruct (sampleTrade_frame timestamp (parseFloat p) w) as (Hout & _).
    rewrite Hout. apply Publisher.skipn_app_length.
  - cbv zeta. destruct (prop trade "E") as [e|timestamp] eqn:HE.
    + apply prop_throws in HE as [Hn _].
      rewrite (processTrade_on_nothing trade now w Hn). simpl. auto.
    + assert (Hp : exists p, prop trade "p" = inr p)
        by (destruct trade; try discriminate; simpl; eauto).
      destruct Hp as [p Hp]. rewrite (processTrade_unfold _ _ _ _ _ HE Hp).
      destruct (publishTrade_frame trade timestamp (parseFloat p) now
                  (sampleTrade timestamp (parseFloat p) w))
        as (_ & _ & Hlog & H1 & H2 & H3 & H4).
      destruct (sampleTrade_frame timestamp (parseFloat p) w)
        as (_ & Hlog' & H1' & H2' & H3' & H4').
      repeat split; congruence.
Qed.

Lemma sampleKline_frame i h l w :
  let w' := sampleKline i h l w in
  out w' = out w /\ log w' = log w /\
  succK w' = succK w /\ succT w' = succT w /\
  failK w' = failK w /\ failT w' = failT w.
Proof.
  unfold sampleKline. destruct (found i); [|simpl; auto 10].
  destruct (js_gt h (get (highPrices w) (key i))),
           (js_lt l (get (lowPrices w) (key i))); simpl; auto 10.
Qed.

(** [processKline] on a kline whose [k] has properties. *)
Lemma processKline_unfold kline klineData now w :
  prop kline "k" = inr klineData ->
  klineData <> VUndefined -> klineData <> VNull ->
  exists klineObject i h l,
    processKline kline now w
    = publishKline klineData klineObject now (sampleKline i h l w).
Proof.
  intros Hk H1 H2.
  destruct (klineObject_cases kline klineData w Hk)
    as [Hthrow | (obj & i & h & l & Hobj & Hi & Hh & Hl)].
  - exfalso. destruct kline; try discriminate; destruct klineData;
      try congruence; discriminate.
  - exists obj, i, h, l. unfold processKline, bind, lift, modify.
    now rewrite Hk, Hobj, Hi, Hh, Hl.
Qed.

(** X7.  [processKline] throws a [TypeError] and leaves everything as it
    was, the extrema included, when the event or its [k] is [undefined] or
    [null].  On any other event, when the [o], [h], [l], [c], [v], [q],
    [V], [s] and [i] of its [k] are primitive values and the extrema of
    the state are primitive values, it returns, having issued exactly two
    requests, one enqueue with priority 0 and delay 300 and the cache
    transaction with the same payload on one channel.  It never touches a
    counter or the log. *)
Theorem processKline_throws_or_publishes kline now w :
  (kline = VUndefined \/ kline = VNull
   \/ (exists klineData, prop kline "k" = inr klineData
                         /\ (klineData = VUndefined \/ klineData = VNull)) ->
   processKline kline now w = (inl TypeError, w))
  /\ (forall klineData,
        prop kline "k" = inr klineData ->
        klineData <> VUndefined -> klineData <> VNull ->
        Plain.primitive_at klineData ["o"; "h"; "l"; "c"; "v"; "q"; "V"; "s"; "i"] ->
        Plain.primitive_extrema w ->
        fst (processKline kline now w) = inr tt
        /\ exists content channel score,
             issued (processKline kline now) w
             = [ SendQueue wsBinance content 0 300 Kline;
                 Multi [ Redis.ZADD channel score content;
                         Redis.ZREMRANGEBYSCORE channel zero (cutoff now) ] Kline ])
  /\ (let w' := snd (processKline kline now w) in
      log w' = log w
      /\ succK w' = succK w /\ succT w' = succT w
      /\ failK w' = failK w /\ failT w' = failT w).
Proof.
  split; [apply processKline_on_nothing|]. split.
  - intros klineData Hk H1 H2 _ _.
    destruct (processKline_unfold kline klineData now w Hk H1 H2)
      as (obj & i & h & l & Hrun).
    destruct (publishKline_shape klineData obj now H1 H2) as (channel & score & Hpub).
    unfold issued. rewrite Hrun, Hpub. cbn [fst snd]. split; [reflexivity|].
    exists (JSON_stringify obj), channel, score.
    change (out (with_out ?x ?o)) with o.
    destruct (sampleKline_frame i h l w) as (Hout & _).
    rewrite Hout. apply Publisher.skipn_app_length.
  - cbv zeta. destruct (prop kline "k") as [e|klineData] eqn:Hk.
    + apply prop_throws in Hk as [Hn _].
      rewrite (processKline_on_nothing kline now w); [simpl; auto|].
      destruct Hn; auto.
    + destruct klineData eqn:Hd.
      1, 2: rewrite (processKline_on_nothing kline now w);
        [simpl; auto | right; right; eexists; split; [exact Hk|auto]].
      all: rewrite <- Hd in *;
        assert (H1 : klineData <> VUndefined) by (rewrite Hd; discriminate);
        assert (H2 : klineData <> VNull) by (rewrite Hd; discriminate);
        destruct (processKline_unfold kline klineData now w Hk H1 H2)
          as (obj & i & h & l & Hrun);
        rewrite Hrun;
        destruct (publishKline_frame klineData obj now (sampleKline i h l w))
          as (_ & _ & Hlog & Ha & Hb & Hc & He);
        destruct (sampleKline_frame i h l w)
          as (_ & Hlog' & Ha' & Hb' & Hc' & He');
        repeat split; congruence.
Qed.

End WithRuntime.

Import Example.

(** When the module was just loaded every extremum is a number. *)
Lemma initial_primitive_extrema : Plain.primitive_extrema initial.
Proof.
  intros interval Hin. unfold intervals in Hin. simpl in Hin.
  repeat (destruct Hin as [<- | Hin]; [split; reflexivity|]). destruct Hin.
Qed.

(** The properties of an object that are all primitive values. *)
Lemma primitive_at_object fields names :
  forallb (fun k => primitive (field fields k)) names = true ->
  Plain.primitive_at (VObject fields) names.
Proof.
  intros Hall k v Hin Hk. simpl in Hk. injection Hk as <-.
  rewrite forallb_forall in Hall. exact (Hall k Hin).
Qed.

Lemma processTrade_throws_or_publishes_witness :
  processTrade VNull 0 initial = (inl TypeError, initial)
  /\ (Plain.primitive_at (VObject scenario_trade) ["E"; "p"; "q"; "s"]
      /\ Plain.primitive_extrema initial
      /\ length (issued (processTrade (VObject scenario_trade) 0) initial) = 2%nat).
Proof.
  destruct (processTrade_throws_or_publishes VNull 0 initial) as (Hthrow & _).
  destruct (processTrade_throws_or_publishes (VObject scenario_trade) 0 initial)
    as (_ & Hpub & _).
  assert (Hat : Plain.primitive_at (VObject scenario_trade) ["E"; "p"; "q"; "s"])
    by (apply primitive_at_object; reflexivity).
  split; [apply Hthrow; now right|].
  split; [exact Hat|]. split; [exact initial_primitive_extrema|].
  destruct Hpub as (_ & content & channel & score & ->);
    [discriminate | discriminate | exact Hat | exact initial_primitive_extrema |].
  reflexivity.
Defined.

Lemma processKline_throws_or_publishes_witness :
  processKline (VObject [("e", VString "kline")]) 0 initial = (inl TypeError, initial)
  /\ (exists klineData,
        prop (exchange_kline "1m" "101.0" "99.0") "k" = inr klineData
        /\ Plain.primitive_at klineData ["o"; "h"; "l"; "c"; "v"; "q"; "V"; "s"; "i"])
  /\ length (issued (processKline (exchange_kline "1m" "101.0" "99.0") 0) initial)
     = 2%nat.
Proof.
  destruct (processKline_throws_or_publishes (VObject [("e", VString "kline")]) 0 initial)
    as (Hthrow & _).
  destruct (processKline_throws_or_publishes (exchange_kline "1m" "101.0" "99.0") 0 initial)
    as (_ & Hpub & _).
  assert (Hat : Plain.primitive_at
                  (VObject [ ("t", VNumber (Finite 0)); ("T", VNumber (Finite 59999));
                             ("s", VString "BTCUSDT"); ("i", VString "1m");
                             ("o", VString "100.0"); ("c", VString "100.0");
                             ("h", VString "101.0"); ("l", VString "99.0");
                             ("v", VString "1"); ("n", VNumber (Finite 1));
                             ("x", VBoolean false); ("q", VString "100.0");
                             ("V", VString "1") ])
                  ["o"; "h"; "l"; "c"; "v"; "q"; "V"; "s"; "i"])
    by (apply primitive_at_object; reflexivity).
  split; [|split].
  - apply Hthrow. right. right. exists VUndefined. split; [reflexivity|now left].
  - eexists. split; [reflexivity | exact Hat].
  - destruct (Hpub _ eq_refl) as (_ & content & channel & score & ->);
      [discriminate | discriminate | exact Hat | exact initial_primitive_extrema |].
    reflexivity.
Defined.

End PublishEdges.

(* ================================================================== *)
(** * More on the ingestion dispatcher *)
(* ================================================================== *)

Module Routing.
Import JS Binance Streams.

Lemma append_empty s : (s ++ "")%string = s.
Proof. induction s as [|c s IH]; simpl; congruence. Qed.

Lemma append_not_empty a c b : ((a ++ String c b) =? "")%string = false.
Proof. destruct a; reflexivity. Qed.

Lemma split_not_nil sep s : split sep s <> [].
Proof.
  destruct s as [|c s]; simpl; [discriminate|].
  destruct (Ascii.eqb c sep); [discriminate|].
  destruct (split sep s); discriminate.
Qed.

Lemma nth_error_hd sep s : nth_error (split sep s) 0 = Some (hd EmptyString (split sep s)).
Proof. pose proof (split_not_nil sep s). now destruct (split sep s). Qed.

(** A string that lacks the separator is its own single piece. *)
Lemma split_lacks sep s : lacks sep s = true -> split sep s = [s].
Proof.
  induction s as [|c s IH]; simpl; [reflexivity|].
  intros H. apply andb_true_iff in H as [Hc Hs]. apply negb_true_iff in Hc.
  now rewrite Hc, (IH Hs).
Qed.

(** The first piece ends at the first separator. *)
Lemma split_app_sep sep a b :
  lacks sep a = true -> split sep (a ++ String sep b) = a :: split sep b.
Proof.
  induction a as [|c a IH]; simpl.
  - intros _. now rewrite Ascii.eqb_refl.
  - intros H. apply andb_true_iff in H as [Hc Ha]. apply negb_true_iff in Hc.
    now rewrite Hc, (IH Ha).
Qed.

Lemma hd_split_cons sep c s :
  Ascii.eqb c sep = false ->
  hd EmptyString (split sep (String c s)) = String c (hd EmptyString (split sep s)).
Proof.
  intros Hc. simpl. rewrite Hc.
  pose proof (split_not_nil sep s). now destruct (split sep s).
Qed.

Lemma hd_split_app sep a b :
  lacks sep a = true ->
  hd EmptyString (split sep (a ++ b)) = (a ++ hd EmptyString (split sep b))%string.
Proof.
  induction a as [|c a IH]; [reflexivity|].
  intros H. simpl in H. apply andb_true_iff in H as [Hc Ha].
  apply negb_true_iff in Hc.
  change (String c a ++ b)%string with (String c (a ++ b)).
  rewrite (hd_split_cons _ _ _ Hc), (IH Ha). reflexivity.
Qed.

Section WithRuntime.
Context {RT : Runtime} {E : Env}.

(** The tag of a stream name with an ["@"] after a symbol that has none. *)
Lemma dataType_after_symbol symbol rest :
  lacks "@" symbol = true ->
  dataType (VString (symbol ++ String "@" rest))
  = inr (hd EmptyString (split "_" (hd EmptyString (split "@" rest)))).
Proof.
  intros Hs. unfold dataType. simpl chars. cbv iota.
  rewrite (split_app_sep _ _ _ Hs).
  change (nth_error (symbol :: split "@" rest) 1)
    with (nth_error (split "@" rest) 0).
  now rewrite nth_error_hd.
Qed.

Lemma dataType_trade symbol :
  lacks "@" symbol = true -> dataType (VString (symbol ++ "@trade")) = inr "trade".
Proof. intros Hs. now rewrite (dataType_after_symbol symbol "trade" Hs). Qed.

Lemma dataType_kline symbol suffix :
  lacks "@" symbol = true ->
  dataType (VString (symbol ++ "@kline_" ++ suffix)) = inr "kline".
Proof.
  intros Hs.
  change (symbol ++ "@kline_" ++ suffix)%string
    with (symbol ++ String "@" ("kline" ++ String "_" suffix))%string.
  rewrite (dataType_after_symbol _ _ Hs).
  rewrite (hd_split_app "@" "kline" (String "_" suffix) eq_refl).
  rewrite (hd_split_app "_" "kline" _ eq_refl).
  rewrite (hd_split_cons "@" "_" suffix eq_refl).
  simpl split at 1. reflexivity.
Qed.

(** [handleMessage] on a frame whose stream name has a tag. *)
Lemma handleMessage_tagged data fields stream tag callbacks w :
  JSON_parse data = inr (VObject fields) ->
  field fields "stream" = stream -> truthy stream = true ->
  dataType stream = inr tag ->
  handleMessage data callbacks w
  = match lookup callbacks tag with
    | Own callback => callback (field fields "data")
    | Inherited =>
        if inherited_returns tag (field fields "data") then ret tt
        else throw TypeError
    | Absent => logger_error (ErrorText [Lit "Not supported stream type"])
    end w.
Proof.
  intros Hi Hs Ht Hd. unfold handleMessage, bind, lift. rewrite Hi. simpl prop.
  rewrite Hs, Ht, Hd. simpl negb. cbv iota.
  destruct (lookup callbacks tag); reflexivity.
Qed.

Lemma handleMessage_trade data fields symbol now w :
  JSON_parse data = inr (VObject fields) -> lacks "@" symbol = true ->
  field fields "stream" = VString (symbol ++ "@trade") ->
  handleMessage data (messageCallback now) w
  = processTrade (field fields "data") now w.
Proof.
  intros Hi Hs Hst.
  rewrite (handleMessage_tagged data fields _ "trade" _ w Hi Hst);
    [reflexivity | | now apply dataType_trade].
  simpl truthy. apply negb_true_iff.
  apply append_not_empty with (a := symbol) (c := "@"%char).
Qed.

Lemma handleMessage_kline data fields symbol suffix now w :
  JSON_parse data = inr (VObject fields) -> lacks "@" symbol = true ->
  field fields "stream" = VString (symbol ++ "@kline_" ++ suffix) ->
  handleMessage data (messageCallback now) w
  = processKline (field fields "data") now w.
Proof.
  intros Hi Hs Hst.
  rewrite (handleMessage_tagged data fields _ "kline" _ w Hi Hst);
    [reflexivity | | now apply dataType_kline].
  simpl truthy. apply negb_true_iff.
  apply append_not_empty with (a := symbol) (c := "@"%char).
Qed.

(** X8.  The tag [handleMessage] reads off a stream name is the text
    between the first ["@"] and the first ["_"] after it: for a symbol
    without ["@"] and a tag without ["@"] and ["_"], the names
    [symbol@tag] and [symbol@tag_suffix] both give [tag], whatever the
    suffix. *)
Theorem stream_name_gives_its_tag symbol tag suffix :
  lacks "@" symbol = true -> lacks "@" tag = true -> lacks "_" tag = true ->
  dataType (VString (symbol ++ "@" ++ tag)) = inr tag
  /\ dataType (VString (symbol ++ "@" ++ tag ++ "_" ++ suffix)) = inr tag.
Proof.
  intros Hs Ha Hu. split.
  - change (symbol ++ "@" ++ tag)%string with (symbol ++ String "@" tag)%string.
    rewrite (dataType_after_symbol _ _ Hs), (split_lacks _ _ Ha). simpl hd.
    now rewrite (split_lacks _ _ Hu).
  - change (symbol ++ "@" ++ tag ++ "_" ++ suffix)%string
      with (symbol ++ String "@" (tag ++ String "_" suffix))%string.
    rewrite (dataType_after_symbol _ _ Hs).
    rewrite (hd_split_app "@" tag _ Ha), (hd_split_cons "@" "_" suffix eq_refl).
    rewrite (hd_split_app "_" tag _ Hu). simpl split. simpl hd.
    now rewrite append_empty.
Qed.

(** X9.  A frame that parses to an object whose stream name is
    [symbol@trade] is handed, with its [data], to [processTrade], and one
    whose stream name is [symbol@kline_interval] to [processKline]:
    [handleMessage] does exactly what the publisher does, nothing more. *)
Theorem recognised_frames_reach_their_publisher data fields symbol suffix now w :
  JSON_parse data = inr (VObject fields) -> lacks "@" symbol = true ->
  (field fields "stream" = VString (symbol ++ "@trade") ->
   handleMessage data (messageCallback now) w
   = processTrade (field fields "data") now w)
  /\ (field fields "stream" = VString (symbol ++ "@kline_" ++ suffix) ->
      handleMessage data (messageCallback now) w
      = processKline (field fields "data") now w).
Proof.
  intros Hi Hs. split; intros Hst.
  - now apply handleMessage_trade with symbol.
  - now apply handleMessage_kline with symbol suffix.
Qed.

(** X10.  [handleMessage] throws a [TypeError], with nothing logged, issued
    or counted, on a frame that parses to [null], and on a frame whose
    stream name is not a string or is a string without ["@"]. *)
Theorem frames_without_a_tag_throw data now w :
  (JSON_parse data = inr VNull ->
   handleMessage data (messageCallback now) w = (inl TypeError, w))
  /\ (forall fields,
        JSON_parse data = inr (VObject fields) ->
        truthy (field fields "stream") = true ->
        chars (field fields "stream") = None
        \/ (exists s, field fields "stream" = VString s /\ lacks "@" s = true) ->
        handleMessage data (messageCallback now) w = (inl TypeError, w)).
Proof.
  split.
  - intros Hi. unfold handleMessage, bind, lift. now rewrite Hi.
  - intros fields Hi Ht Hno.
    assert (Hd : dataType (field fields "stream") = inl TypeError).
    { unfold dataType. destruct Hno as [-> | (s & -> & Hs)]; [reflexivity|].
      simpl chars. cbv iota. now rewrite (split_lacks _ _ Hs). }
    unfold handleMessage, bind, lift. rewrite Hi.
    change (prop (VObject fields) "stream") with (@inr exn _ (field fields "stream")).
    cbv iota. rewrite Ht. simpl negb. cbv iota. now rewrite Hd.
Qed.

(** X11.  A frame of the trade stream with no [data] (or a [null] one), and
    a frame of the kline stream with no [data] or whose [data] has no [k],
    make [handleMessage] throw a [TypeError]: nothing is tracked, logged,
    enqueued or cached for it. *)
Theorem recognised_frame_without_data_throws data fields symbol suffix now w :
  JSON_parse data = inr (VObject fields) -> lacks "@" symbol = true ->
  (field fields "stream" = VString (symbol ++ "@trade") ->
   field fields "data" = VUndefined \/ field fields "data" = VNull ->
   handleMessage data (messageCallback now) w = (inl TypeError, w))
  /\ (field fields "stream" = VString (symbol ++ "@kline_" ++ suffix) ->
      field fields "data" = VUndefined \/ field fields "data" = VNull
      \/ (exists klineData,
             prop (field fields "data") "k" = inr klineData
             /\ (klineData = VUndefined \/ klineData = VNull)) ->
      handleMessage data (messageCallback now) w = (inl TypeError, w)).
Proof.
  intros Hi Hs. split; intros Hst Hd.
  - rewrite (handleMessage_trade data fields symbol now w Hi Hs Hst).
    now apply PublishEdges.processTrade_on_nothing.
  - rewrite (handleMessage_kline data fields symbol suffix now w Hi Hs Hst).
    now apply PublishEdges.processKline_on_nothing.
Qed.

End WithRuntime.

Import Example.

Lemma stream_name_gives_its_tag_witness :
  dataType (VString "btcusdt@depth") = inr "depth"
  /\ dataType (VString "btcusdt@kline_1m") = inr "kline".
Proof.
  split.
  - exact (proj1 (stream_name_gives_its_tag "btcusdt" "depth" "" eq_refl eq_refl eq_refl)).
  - exact (proj2 (stream_name_gives_its_tag "btcusdt" "kline" "1m" eq_refl eq_refl eq_refl)).
Defined.

Lemma recognised_frames_reach_their_publisher_witness :
  handleMessage
    (VJson (VObject [ ("stream", VString "btcusdt@trade");
                      ("data", VObject scenario_trade) ]))
    (messageCallback 0) initial
  = processTrade (VObject scenario_trade) 0 initial.
Proof.
  destruct (recognised_frames_reach_their_publisher
              (VJson (VObject [ ("stream", VString "btcusdt@trade");
                                ("data", VObject scenario_trade) ]))
              [ ("stream", VString "btcusdt@trade"); ("data", VObject scenario_trade) ]
              "btcusdt" "" 0 initial eq_refl eq_refl) as [H _].
  exact (H eq_refl).
Defined.

Lemma frames_without_a_tag_throw_witness :
  handleMessage (VJson VNull) (messageCallback 0) initial = (inl TypeError, initial)
  /\ handleMessage (VJson (VObject [("stream", VString "btcusdt")]))
       (messageCallback 0) initial
     = (inl TypeError, initial).
Proof.
  split.
  - exact (proj1 (frames_without_a_tag_throw (VJson VNull) 0 initial) eq_refl).
  - apply (proj2 (frames_without_a_tag_throw
                    (VJson (VObject [("stream", VString "btcusdt")])) 0 initial)
             [("stream", VString "btcusdt")]); try reflexivity.
    right. exists "btcusdt". split; reflexivity.
Defined.

Lemma recognised_frame_without_data_throws_witness :
  handleMessage (VJson (VObject [("stream", VString "btcusdt@trade")]))
    (messageCallback 0) initial
  = (inl TypeError, initial).
Proof.
  destruct (recognised_frame_without_data_throws
              (VJson (VObject [("stream", VString "btcusdt@trade")]))
              [("stream", VString "btcusdt@trade")] "btcusdt" "" 0 initial
              eq_refl eq_refl) as [H _].
  apply H; [reflexivity | now left].
Defined.

End Routing.

(* ================================================================== *)
(** * The counters between two ticks *)
(* ================================================================== *)

Module Counters.
Import JS Stats.

Lemma count_cons {A} (f : A -> bool) c cs :
  Z.of_nat (length (filter f (c :: cs)))
  = (if f c then 1 else 0) + Z.of_nat (length (filter f cs)).
Proof. simpl. destruct (f c); simpl length; lia. Qed.

Ltac name_counts :=
  repeat match goal with
         | |- context [Z.of_nat ?n] => generalize (Z.of_nat n); intro
         end.

Lemma failed_enqueues_le b cs : failed_enqueues b cs <= enqueues b cs.
Proof.
  unfold enqueues, failed_enqueues.
  induction cs as [|c cs IH]; [simpl; lia|].
  rewrite !count_cons. destruct c as [k [e|]]; cbv beta iota;
    destruct (Bool.eqb (is_trade k) b); lia.
Qed.

Section WithRuntime.
Context {RT : Runtime} {E : Binance.Env}.

Lemma enqueues_from cs : forall w,
  let w' := fold_left enqueue_completes cs w in
  Binance.succT w' = Binance.succT w + enqueues true cs
  /\ Binance.failT w' = Binance.failT w + failed_enqueues true cs
  /\ Binance.succK w' = Binance.succK w + enqueues false cs
  /\ Binance.failK w' = Binance.failK w + failed_enqueues false cs
  /\ Binance.highPrices w' = Binance.highPrices w
  /\ Binance.lowPrices w' = Binance.lowPrices w
  /\ Binance.out w' = Binance.out w.
Proof.
  induction cs as [|c cs IH]; intros w.
  - unfold enqueues, failed_enqueues. simpl. repeat split; lia.
  - cbv zeta. simpl fold_left.
    destruct (IH (enqueue_completes w c)) as (H1 & H2 & H3 & H4 & H5 & H6 & H7).
    rewrite H1, H2, H3, H4, H5, H6, H7.
    unfold enqueues, failed_enqueues. rewrite !count_cons.
    destruct c as [[|] [e|]]; cbn [is_trade Bool.eqb]; name_counts;
      cbn -[Z.add]; repeat split; lia.
Qed.

(** X12.  On the ingestion side, after a tick and any sequence of
    completed enqueues, the success counter of a kind is the number of all
    completions of that kind, failed or not, and the fail counter the
    number of the failed ones; so the fail counter never exceeds the
    success counter.  Completions change no extremum and issue nothing. *)
Theorem ingestion_counters_since_tick cs w :
  let w' := fold_left enqueue_completes cs (snd (binance_tick w)) in
  Binance.succT w' = enqueues true cs
  /\ Binance.failT w' = failed_enqueues true cs
  /\ Binance.succK w' = enqueues false cs
  /\ Binance.failK w' = failed_enqueues false cs
  /\ Binance.failT w' <= Binance.succT w'
  /\ Binance.failK w' <= Binance.succK w'
  /\ Binance.highPrices w' = Binance.highPrices w
  /\ Binance.lowPrices w' = Binance.lowPrices w
  /\ Binance.out w' = Binance.out w.
Proof.
  cbv zeta.
  destruct (enqueues_from cs (snd (binance_tick w)))
    as (H1 & H2 & H3 & H4 & H5 & H6 & H7).
  rewrite H1, H2, H3, H4, H5, H6, H7. simpl.
  pose proof (failed_enqueues_le true cs). pose proof (failed_enqueues_le false cs).
  repeat split; lia.
Qed.

Lemma writes_from cs : forall w,
  let w' := fold_left write_completes cs w in
  Hopper.successTrades w' + Hopper.failedTrades w'
    = Hopper.successTrades w + Hopper.failedTrades w + writes true cs
  /\ Hopper.failedTrades w' = Hopper.failedTrades w + failed_writes true cs
  /\ Hopper.successKlines w' + Hopper.failedKlines w'
    = Hopper.successKlines w + Hopper.failedKlines w + writes false cs
  /\ Hopper.failedKlines w' = Hopper.failedKlines w + failed_writes false cs
  /\ Hopper.out w' = Hopper.out w.
Proof.
  induction cs as [|c cs IH]; intros w.
  - unfold writes, failed_writes. simpl. repeat split; lia.
  - cbv zeta. simpl fold_left.
    destruct (IH (write_completes w c)) as (H1 & H2 & H3 & H4 & H5).
    rewrite H1, H2, H3, H4, H5.
    unfold writes, failed_writes. rewrite !count_cons.
    destruct c as [[|] [e|]]; cbn [is_trade_write Bool.eqb]; name_counts;
      cbn -[Z.add]; repeat split; lia.
Qed.

(** X19.  On the consumer side, after a tick and any sequence of completed
    writes, the success and fail counters of a kind add up to the number of
    completions of that kind, and the fail counter is the number of the
    rejected ones: each write is counted once.  Completions issue
    nothing. *)
Theorem consumer_counters_since_tick cs w :
  let w' := fold_left write_completes cs (snd (hopper_tick w)) in
  Hopper.successTrades w' + Hopper.failedTrades w' = writes true cs
  /\ Hopper.failedTrades w' = failed_writes true cs
  /\ Hopper.successKlines w' + Hopper.failedKlines w' = writes false cs
  /\ Hopper.failedKlines w' = failed_writes false cs
  /\ Hopper.out w' = Hopper.out w.
Proof.
  cbv zeta.
  destruct (writes_from cs (snd (hopper_tick w))) as (H1 & H2 & H3 & H4 & H5).
  rewrite H1, H2, H3, H4, H5. simpl. repeat split; lia.
Qed.

End WithRuntime.

End Counters.

(* ================================================================== *)
(** * The sliding window: what the transaction keeps *)
(* ================================================================== *)

Module Window.
Import JS Binance JSFacts Tracker.

Section WithRuntime.
Context {RT : Runtime} {E : Env}.

Lemma zadd_keeps score member z m s :
  In (m, s) z -> Redis.same_member m member = false ->
  In (m, s) (Redis.zadd score member z).
Proof.
  induction z as [|[m0 s0] z IH]; intros Hin Hm; [destruct Hin|].
  simpl. destruct Hin as [Heq | Hin].
  - injection Heq as -> ->. rewrite Hm. now left.
  - destruct (Redis.same_member m0 member); right; auto.
Qed.

Lemma zadd_adds score member z :
  Redis.same_member member member = true ->
  exists m, Redis.same_member m member = true /\ In (m, score) (Redis.zadd score member z).
Proof.
  intros Hrefl. induction z as [|[m0 s0] z IH]; simpl.
  - exists member. auto.
  - destruct (Redis.same_member m0 member) eqn:Hm.
    + exists m0. split; [assumption | now left].
    + destruct IH as (m & Hsame & Hin). exists m. split; [assumption | now right].
Qed.

Lemma prune_keeps min max z (e : value * number) :
  In e z -> num_lt max (snd e) = true -> In e (Redis.zremrangebyscore min max z).
Proof.
  intros Hin Hlt. unfold Redis.zremrangebyscore. apply filter_In. split; [assumption|].
  rewrite (TrackerInvariants.num_lt_not_le _ _ Hlt). now rewrite andb_false_r.
Qed.

Lemma append_prune_keeps key key' score member min max z m s :
  In (m, s) z -> num_lt max s = true -> Redis.same_member m member = false ->
  In (m, s) (Redis.exec [Redis.ZADD key score member;
                         Redis.ZREMRANGEBYSCORE key' min max] z).
Proof.
  intros Hin Hlt Hm. unfold Redis.exec. simpl.
  apply prune_keeps; [|assumption].
  destruct (Redis.score_of score); [now apply zadd_keeps | assumption].
Qed.

(** X13.  The cache transaction of a trade evicts nothing newer than the
    cutoff: an entry of the channel whose score is above the cutoff and
    whose member is another text is still there afterwards.  And a trade
    whose event time is a number above the cutoff is in the channel
    afterwards, under its event time. *)
Theorem transaction_keeps_newer_entries fields now w z :
  let cmds := transaction (issued (processTrade (VObject fields) now) w) in
  let payload := JSON_stringify (canonicalTrade fields) in
  (forall m s,
      In (m, s) z -> num_lt (cutoff now) s = true ->
      Redis.same_member m payload = false ->
      In (m, s) (Redis.exec cmds z))
  /\ (forall n,
        field fields "E" = VNumber n -> num_lt (cutoff now) n = true ->
        exists m, Redis.same_member m payload = true /\ In (m, n) (Redis.exec cmds z)).
Proof.
  cbv zeta. rewrite Publisher.issued_processTrade. simpl transaction. split.
  - intros m s Hin Hlt Hm. now apply append_prune_keeps.
  - intros n HE Hlt. rewrite HE. unfold Redis.exec. simpl fold_left.
    destruct (num_lt_NaN _ _ Hlt) as [_ Hn]. rewrite Hn.
    destruct (zadd_adds n (JSON_stringify (canonicalTrade fields)) z)
      as (m & Hsame & Hin).
    { unfold Redis.same_member. simpl chars. apply String.eqb_refl. }
    exists m. split; [assumption|].
    now apply (prune_keeps zero (cutoff now) _ (m, n)).
Qed.

End WithRuntime.

Import Example.

Lemma transaction_keeps_newer_entries_witness :
  let trade := [ ("e", VString "trade"); ("E", VNumber (Finite 1699999999000));
                 ("s", VString "BTCUSDT"); ("p", VString "100.5") ] in
  (In (VString "newer", Finite 1699999000000) [(VString "newer", Finite 1699999000000)]
   /\ num_lt (cutoff 1700000000000) (Finite 1699999000000) = true)
  /\ In (VString "newer", Finite 1699999000000)
       (Redis.exec
          (transaction (issued (processTrade (VObject trade) 1700000000000) initial))
          [(VString "newer", Finite 1699999000000)])
  /\ exists m,
       In (m, Finite 1699999999000)
          (Redis.exec
             (transaction (issued (processTrade (VObject trade) 1700000000000) initial))
             [(VString "newer", Finite 1699999000000)]).
Proof.
  cbv zeta.
  assert (Hin : In (VString "newer", Finite 1699999000000)
                   [(VString "newer", Finite 1699999000000)]) by (left; reflexivity).
  assert (Hlt : num_lt (cutoff 1700000000000) (Finite 1699999000000) = true)
    by reflexivity.
  destruct (transaction_keeps_newer_entries
              [ ("e", VString "trade"); ("E", VNumber (Finite 1699999999000));
                ("s", VString "BTCUSDT"); ("p", VString "100.5") ]
              1700000000000 initial [(VString "newer", Finite 1699999000000)])
    as [Hkeep Hfresh].
  split; [split; assumption|]. split.
  - apply Hkeep; [assumption | assumption | reflexivity].
  - destruct (Hfresh (Finite 1699999999000) eq_refl eq_refl) as (m & _ & Hm).
    now exists m.
Defined.

End Window.

(* ================================================================== *)
(** * The consumer: what reaches the store *)
(* ================================================================== *)

Module Points.
Import JS Hopper.

Lemma field_absent (l : list (string * value)) k :
  ~ In k (map fst l) -> field l k = VUndefined.
Proof.
  induction l as [|[k0 x] l IH]; [reflexivity|]. simpl. intros Hn.
  destruct (String.eqb_spec k0 k) as [->|_]; [elim Hn; now left|].
  apply IH. intros Hin. apply Hn. now right.
Qed.

(** What [JSON.parse(JSON.stringify(o))] gives for an object [o]: an
    object with no property [o] does not have, each property being the
    property of [o] read back from its text. *)
Lemma json_clean_object (l : list (string * value)) :
  exists l', json_clean (VObject l) = VObject l'
             /\ (forall k, In k (map fst l') -> In k (map fst l))
             /\ (NoDup (map fst l) ->
                 forall k, field l' k = json_clean (field l k)).
Proof.
  eexists. split; [reflexivity|]. split.
  - intros k. induction l as [|[k0 x] l IH]; [auto|].
    destruct x; cbn [map fst In]; intros Hin;
      try (destruct Hin as [Hin | Hin]; [now left | right; now apply IH]).
    right. now apply IH.
  - intros Hnd k.
    induction l as [|[k0 x] l IH]; [reflexivity|].
    simpl map in Hnd. inversion Hnd as [|? ? Hnot Hnd']; subst.
    specialize (IH Hnd'). cbn [field].
    destruct (String.eqb_spec k0 k) as [->|Hne].
    + destruct x; try (cbn [field]; now rewrite String.eqb_refl).
      rewrite IH, (field_absent l k Hnot). reflexivity.
    + destruct x; cbn [field]; destruct (String.eqb_spec k0 k);
        (contradiction || exact IH).
Qed.

(** An object without a property [toString] converts. *)
Lemma converts_object (l : list (string * value)) :
  ~ In "toString" (map fst l) -> converts (VObject l) = true.
Proof.
  intros Hn. unfold converts. apply negb_true_iff.
  destruct (existsb _ l) eqn:Hex; [|reflexivity].
  apply existsb_exists in Hex as ([k v] & Hin & Hk). simpl in Hk.
  apply String.eqb_eq in Hk. subst k. elim Hn.
  apply in_map_iff. exists ("toString", v). auto.
Qed.

(** A primitive value converts, and so does what is read back from its
    text. *)
Lemma primitive_converts v : primitive v = true -> converts (json_clean v) = true.
Proof. destruct v as [| | |[| | |]| | |]; simpl; congruence. Qed.

Lemma NoDup_canonicalTrade_keys :
  NoDup ["subId"; "exchange"; "eventType"; "eventTime"; "symbol"; "tradeId";
         "price"; "quantity"; "buyerOrderId"; "sellerOrderId"; "tradeTime";
         "isBuyerMarketMaker"; "timestamp"].
Proof.
  repeat (constructor; [simpl; intuition discriminate|]). constructor.
Qed.

Lemma NoDup_canonicalKline_keys :
  NoDup ["subId"; "exchange"; "eventType"; "eventTime"; "symbol"; "interval";
         "open"; "high"; "low"; "close"; "volume"; "trades"; "isFinal";
         "quoteAssetVolume"; "baseAssetVolume"; "timestamp"].
Proof.
  repeat (constructor; [simpl; intuition discriminate|]). constructor.
Qed.

(** What a piece of a handler leaves as it was, when its parts do. *)
Lemma bind_frame {A B} (f : world -> Z) (c : M A) (k : A -> M B) :
  (forall w, f (snd (c w)) = f w) ->
  (forall a w, f (snd (k a w)) = f w) ->
  forall w, f (snd (bind c k w)) = f w.
Proof.
  intros Hc Hk w. unfold bind. specialize (Hc w).
  destruct (c w) as [[e | a] w1]; simpl in *; [exact Hc|].
  now rewrite Hk.
Qed.

Section WithRuntime.
Context {RT : Runtime} {E : Binance.Env}.

(** What was read back from the text of a canonical event: an object
    that converts, whose properties are those of the canonical event, read
    back. *)
Lemma canonicalTrade_read_back fields :
  exists l', json_clean (Binance.canonicalTrade fields) = VObject l'
             /\ converts (VObject l') = true
             /\ forall k, field l' k
                          = json_clean
                              (match Binance.canonicalTrade fields with
                               | VObject l => field l k
                               | _ => VUndefined
                               end).
Proof.
  unfold Binance.canonicalTrade.
  destruct (json_clean_object
              [ ("subId", VNumber (Finite (inject_Z Binance.pid)));
                ("exchange", VString "binance");
                ("eventType", field fields "e");
                ("eventTime", field fields "E");
                ("symbol", field fields "s");
                ("tradeId", field fields "t");
                ("price", VNumber (parseFloat (field fields "p")));
                ("quantity", VNumber (parseFloat (field fields "q")));
                ("buyerOrderId", field fields "b");
                ("sellerOrderId", field fields "a");
                ("tradeTime", field fields "T");
                ("isBuyerMarketMaker", field fields "m");
                ("timestamp", field fields "E") ]) as (l' & Heq & Hkeys & Hf).
  exists l'. split; [exact Heq|]. split.
  - apply converts_object. intros Hin. apply Hkeys in Hin.
    simpl in Hin. intuition discriminate.
  - intros k. apply Hf. exact NoDup_canonicalTrade_keys.
Qed.

Lemma canonicalKline_read_back fields kfields :
  exists l', json_clean (Binance.canonicalKline fields kfields) = VObject l'
             /\ converts (VObject l') = true
             /\ forall k, field l' k
                          = json_clean
                              (match Binance.canonicalKline fields kfields with
                               | VObject l => field l k
                               | _ => VUndefined
                               end).
Proof.
  unfold Binance.canonicalKline.
  destruct (json_clean_object
              [ ("subId", VNumber (Finite (inject_Z Binance.pid)));
                ("exchange", VString "binance");
                ("eventType", field fields "e");
                ("eventTime", field kfields "t");
                ("symbol", field kfields "s");
                ("interval", field kfields "i");
                ("open", VNumber (parseFloat (field kfields "o")));
                ("high", VNumber (parseFloat (field kfields "h")));
                ("low", VNumber (parseFloat (field kfields "l")));
                ("close", VNumber (parseFloat (field kfields "c")));
                ("volume", VNumber (parseFloat (field kfields "v")));
                ("trades", field kfields "n");
                ("isFinal", field kfields "x");
                ("quoteAssetVolume", VNumber (parseFloat (field kfields "q")));
                ("baseAssetVolume", VNumber (parseFloat (field kfields "V")));
                ("timestamp", field kfields "T") ]) as (l' & Heq & Hkeys & Hf).
  exists l'. split; [exact Heq|]. split.
  - apply converts_object. intros Hin. apply Hkeys in Hin.
    simpl in Hin. intuition discriminate.
  - intros k. apply Hf. exact NoDup_canonicalKline_keys.
Qed.

(** The checks of the two field builders. *)
Lemma Point_floatField_finite name q :
  Point_floatField name (VNumber (Finite q)) = inr (VNumber (Finite q)).
Proof. reflexivity. Qed.

Lemma Point_floatField_null name :
  Point_floatField name VNull = inl (invalid "float" name VNull).
Proof. reflexivity. Qed.

Lemma Point_floatField_undefined name :
  Point_floatField name VUndefined = inl (invalid "float" name VUndefined).
Proof. reflexivity. Qed.

Lemma Point_intField_in_range name q :
  (- int64_bound < q)%Q -> (q < int64_bound)%Q ->
  Point_intField name (VNumber (Finite q))
  = inr (VNumber (Finite (inject_Z (Qfloor q)))).
Proof.
  intros Hlo Hhi. unfold Point_intField, taken.
  assert (H1 : Qle_bool q (- int64_bound) = false).
  { destruct (Qle_bool q (- int64_bound)) eqn:H; [|reflexivity].
    apply Qle_bool_iff in H. elim (Qlt_not_le _ _ Hlo H). }
  assert (H2 : Qle_bool int64_bound q = false).
  { destruct (Qle_bool int64_bound q) eqn:H; [|reflexivity].
    apply Qle_bool_iff in H. elim (Qlt_not_le _ _ Hhi H). }
  now rewrite H1, H2.
Qed.

(** What the canonical price is when read back: the number when it is
    finite, [null] otherwise. *)
Lemma json_clean_number n :
  json_clean (VNumber n) = if is_finite n then VNumber n else VNull.
Proof. destruct n; reflexivity. Qed.

(** The trade handler on an object that converts, up to its fields. *)
Lemma handleTradeMessage_object l hw :
  converts (VObject l) = true ->
  converts (field l "symbol") = true ->
  handleTradeMessage (VObject l) hw
  = (trade_id <- lift (Point_intField "trade_id" (field l "tradeId")) ;;
     price <- lift (Point_floatField "price" (field l "price")) ;;
     quantity <- lift (Point_floatField "quantity" (field l "quantity")) ;;
     lift (ToPrimitive (field l "timestamp")) ;;;
     logger_debug [Lit "Writing Trade to InfluxDB: \n"; Sub (VObject l)] ;;;
     issue (WriteData
              [{| measurement := [Lit "binance_trade_"; Sub (field l "symbol")];
                  tags := [ ("asset", field l "symbol");
                            ("type", field l "eventType");
                            ("source", VString "minions");
                            ("isBuyerMarketMaker", field l "isBuyerMarketMaker") ];
                  fields := [ ("trade_id", intField, trade_id);
                              ("price", floatField, price);
                              ("quantity", floatField, quantity) ];
                  timestamp := field l "timestamp" |}] Trade))
      (with_log hw
         (log hw ++ [Debug [Lit "Writing Trade to InfluxDB: \n"; Sub (VObject l)]])).
Proof.
  intros Hc Hs. unfold handleTradeMessage. cbn [is_null].
  unfold bind at 1. unfold lift at 1. unfold ToPrimitive at 1. rewrite Hc.
  unfold bind at 1. unfold logger_debug at 1, modify at 1.
  unfold bind at 1. unfold lift at 1. cbn [prop].
  unfold bind at 1. unfold lift at 1. unfold ToPrimitive at 1. rewrite Hs.
  unfold bind at 1 2 3 4. unfold lift at 1 2 3 4.
  unfold bind. unfold lift. unfold ToPrimitive. rewrite Hc. reflexivity.
Qed.

(** The kline handler on an object that converts, up to its first field. *)
Lemma handleKlineMessage_object l hw :
  converts (VObject l) = true ->
  handleKlineMessage (VObject l) hw
  = let hw1 :=
      with_log hw
        (log hw ++ [Debug [Lit "Writing Kline to InfluxDB: \n"; Sub (VObject l)]]) in
    if converts (field l "symbol") then
      match Point_floatField "openPrice" (field l "openPrice") with
      | inl e => (inl e, hw1)
      | inr _ => handleKlineMessage (VObject l) hw
      end
    else (inl TypeError, hw1).
Proof.
  intros Hc. cbv zeta.
  destruct (converts (field l "symbol")) eqn:Hs;
    [destruct (Point_floatField "openPrice" (field l "openPrice")) eqn:Ho;
     [|reflexivity]|];
    unfold handleKlineMessage; cbn [is_null];
    unfold bind, lift, ToPrimitive, logger_debug, modify; cbn [prop];
    rewrite Hc, Hs; [now rewrite Ho | reflexivity].
Qed.

(** Neither handler touches a counter. *)
Lemma handler_frame (f : world -> Z) (h : value -> M unit) :
  (forall w l, f (with_log w l) = f w) ->
  (forall w o, f (with_out w o) = f w) ->
  h = handleTradeMessage \/ h = handleKlineMessage ->
  forall payload hw, f (snd (h payload hw)) = f hw.
Proof.
  intros Hlog Hout Hh payload.
  assert (Hlift : forall A (r : exn + A) w, f (snd (lift r w)) = f w)
    by reflexivity.
  assert (Hdebug : forall t w, f (snd (logger_debug t w)) = f w)
    by (intros; apply Hlog).
  assert (Hissue : forall r w, f (snd (issue r w)) = f w)
    by (intros; apply Hout).
  destruct Hh as [-> | ->];
    [unfold handleTradeMessage | unfold handleKlineMessage];
    (destruct (is_null payload); [reflexivity|]);
    repeat (apply bind_frame;
            [first [apply Hlift | apply Hdebug | apply Hissue] | intros]);
    apply Hissue.
Qed.

(** X14.  The consumer reads events only through the envelope: given the
    text of a canonical trade or kline event itself, which has no [data]
    property, [handleMessage] returns without a log line, a write or a
    change of a counter. *)
Theorem canonical_event_without_envelope_is_dropped fields kfields hw :
  handleMessage {| content := JSON_stringify (Binance.canonicalTrade fields) |} hw
  = (inr tt, hw)
  /\ handleMessage
       {| content := JSON_stringify (Binance.canonicalKline fields kfields) |} hw
     = (inr tt, hw).
Proof.
  split.
  - destruct (canonicalTrade_read_back fields) as (l' & Heq & _ & Hf).
    unfold handleMessage, bind, lift. cbn [content].
    change (JSON_parse (JSON_stringify (Binance.canonicalTrade fields)))
      with (@inr exn _ (json_clean (Binance.canonicalTrade fields))).
    cbv iota. rewrite Heq. cbn [prop]. rewrite Hf.
    reflexivity.
  - destruct (canonicalKline_read_back fields kfields) as (l' & Heq & _ & Hf).
    unfold handleMessage, bind, lift. cbn [content].
    change (JSON_parse (JSON_stringify (Binance.canonicalKline fields kfields)))
      with (@inr exn _ (json_clean (Binance.canonicalKline fields kfields))).
    cbv iota. rewrite Heq. cbn [prop]. rewrite Hf.
    reflexivity.
Qed.

(** [handleMessage] asks for nothing unless the envelope and the payload
    decode and the event type of the payload names one of the two
    handlers. *)
Lemma handleMessage_writes data hw :
  out (snd (handleMessage data hw)) <> out hw ->
  exists item d payload t name,
    JSON_parse (content data) = inr item
    /\ prop item "data" = inr d /\ truthy d = true
    /\ JSON_parse d = inr payload
    /\ prop payload "eventType" = inr t
    /\ chars t = Some name /\ (name = "trade" \/ name = "kline").
Proof.
  unfold handleMessage, bind, lift.
  destruct (JSON_parse (content data)) as [e | item] eqn:Hi;
    [intros H; now elim H|].
  destruct (prop item "data") as [e | d] eqn:Hd; [intros H; now elim H|].
  destruct (truthy d) eqn:Ht; simpl negb; cbv iota; [|intros H; now elim H].
  destruct (JSON_parse d) as [e | payload] eqn:Hp; [intros H; now elim H|].
  unfold logger_debug at 1, modify at 1.
  destruct (prop payload "eventType") as [e | t] eqn:He; [intros H; now elim H|].
  destruct (chars t) as [name|] eqn:Hc; [|intros H; now elim H].
  unfold lookup, callbacks. cbn [own].
  destruct (String.eqb_spec "kline" name) as [<-|Hk].
  { intros _. exists item, d, payload, t, "kline". repeat split; auto. }
  destruct (String.eqb_spec "trade" name) as [<-|Htr].
  { intros _. exists item, d, payload, t, "trade". repeat split; auto. }
  destruct (existsb (fun k => (k =? name)%string) Object_prototype).
  - destruct (inherited_returns name payload); intros H; now elim H.
  - intros H; now elim H.
Qed.

(** [handleMessage] leaves what its handlers, its log lines and its
    requests leave. *)
Lemma handleMessage_frame (f : world -> Z) :
  (forall w l, f (with_log w l) = f w) ->
  (forall w o, f (with_out w o) = f w) ->
  forall data hw, f (snd (handleMessage data hw)) = f hw.
Proof.
  intros Hlog Hout data hw. unfold handleMessage, bind, lift.
  destruct (JSON_parse (content data)) as [e | item]; [reflexivity|].
  destruct (prop item "data") as [e | d]; [reflexivity|].
  destruct (truthy d); [|reflexivity].
  change (negb true) with false. cbv beta iota.
  destruct (JSON_parse d) as [e | payload]; [reflexivity|].
  unfold logger_debug at 1, modify at 1.
  destruct (prop payload "eventType") as [e | t]; [apply Hlog|].
  assert (Herror : forall w, f (snd (logger_error [Lit "Not supported stream type"] w))
                             = f w) by (intros; apply Hlog).
  destruct (chars t) as [name|]; [|rewrite Herror; apply Hlog].
  unfold lookup, callbacks. cbn [own].
  destruct (String.eqb "kline" name).
  { rewrite (handler_frame f handleKlineMessage Hlog Hout (or_intror eq_refl)).
    apply Hlog. }
  destruct (String.eqb "trade" name).
  { rewrite (handler_frame f handleTradeMessage Hlog Hout (or_introl eq_refl)).
    apply Hlog. }
  destruct (existsb (fun k => (k =? name)%string) Object_prototype).
  - destruct (inherited_returns name payload); apply Hlog.
  - rewrite Herror. apply Hlog.
Qed.

(** X15.  [handleMessage] asks for a write only when the envelope and the
    payload decode; and when they do and the event type of the payload is
    a primitive value, only when that event type is the string [trade] or
    the string [kline].  Whatever the message, it leaves the four counters
    as they are. *)
Theorem writes_only_for_trade_and_kline data hw :
  let hw' := snd (handleMessage data hw) in
  (out hw' <> out hw ->
   exists item d payload t,
     JSON_parse (content data) = inr item
     /\ prop item "data" = inr d /\ truthy d = true
     /\ JSON_parse d = inr payload
     /\ prop payload "eventType" = inr t)
  /\ (forall item d payload t,
        JSON_parse (content data) = inr item ->
        prop item "data" = inr d ->
        JSON_parse d = inr payload ->
        prop payload "eventType" = inr t ->
        primitive t = true ->
        out hw' <> out hw ->
        exists name, chars t = Some name /\ (name = "trade" \/ name = "kline"))
  /\ successKlines hw' = successKlines hw /\ successTrades hw' = successTrades hw
  /\ failedKlines hw' = failedKlines hw /\ failedTrades hw' = failedTrades hw.
Proof.
  cbv zeta. split; [|split].
  - intros H. destruct (handleMessage_writes data hw H)
      as (item & d & payload & t & name & Hi & Hd & Ht & Hp & He & _).
    exists item, d, payload, t. auto.
  - intros item d payload t Hi Hd Hp He _ H.
    destruct (handleMessage_writes data hw H)
      as (item' & d' & payload' & t' & name & Hi' & Hd' & _ & Hp' & He' & Hc & Hn).
    rewrite Hi in Hi'. injection Hi' as <-.
    rewrite Hd in Hd'. injection Hd' as <-.
    rewrite Hp in Hp'. injection Hp' as <-.
    rewrite He in He'. injection He' as <-.
    exists name. auto.
  - repeat split; apply handleMessage_frame; reflexivity.
Qed.

(** X16.  The [null] guard of the handlers is never reached from
    [handleMessage]: a message whose payload decodes to [null] makes
    [handleMessage] throw a [TypeError] at [payload.eventType], after the
    payload was logged and before any handler is called; the handlers
    themselves return at once on [null] and throw on [undefined], after one
    log line and without a write. *)
Theorem null_payload_throws_before_the_guard data item d hw :
  JSON_parse (content data) = inr item ->
  prop item "data" = inr d -> truthy d = true ->
  JSON_parse d = inr VNull ->
  handleMessage data hw
  = (inl TypeError, with_log hw (log hw ++ [Debug [Lit "Payload: \n"; Sub VNull]]))
  /\ handleTradeMessage VNull hw = (inr tt, hw)
  /\ handleKlineMessage VNull hw = (inr tt, hw)
  /\ handleTradeMessage VUndefined hw
     = (inl TypeError,
        with_log hw
          (log hw ++ [Debug [Lit "Writing Trade to InfluxDB: \n"; Sub VUndefined]]))
  /\ handleKlineMessage VUndefined hw
     = (inl TypeError,
        with_log hw
          (log hw ++ [Debug [Lit "Writing Kline to InfluxDB: \n"; Sub VUndefined]])).
Proof.
  intros Hi Hd Ht Hp. split; [|repeat split; reflexivity].
  unfold handleMessage, bind, lift. rewrite Hi, Hd, Ht, Hp. reflexivity.
Qed.

(** X17.  The point written for a published trade, and the trades that
    are not written.  Take the canonical trade event the publisher
    enqueues, read back from its text, for a trade whose symbol is a
    primitive value.  When the trade id is a number inside the range of a
    64-bit integer, the price and the quantity parse to finite numbers and
    the event time is a primitive value, the trade handler returns and
    asks for one write of one point: measurement [binance_trade_] followed
    by the symbol, the tags [asset], [type], [source] and
    [isBuyerMarketMaker], the fields [trade_id] (the id rounded down),
    [price] and [quantity], and the event time as timestamp.  When the
    trade has no id, or when its id is such a number and its price does
    not parse to a finite number, the handler throws the [Error] of the
    field builder and asks for no write. *)
Theorem published_trade_gives_one_point fields hw :
  let payload := json_clean (Binance.canonicalTrade fields) in
  let back (k : string) := json_clean (field fields k) in
  let r := handleTradeMessage payload hw in
  primitive (field fields "s") = true ->
  (forall id price quantity,
      field fields "t" = VNumber (Finite id) ->
      (- int64_bound < id)%Q -> (id < int64_bound)%Q ->
      parseFloat (field fields "p") = Finite price ->
      parseFloat (field fields "q") = Finite quantity ->
      primitive (field fields "E") = true ->
      fst r = inr tt
      /\ out (snd r)
         = (out hw ++
            [WriteData
               [{| measurement := [Lit "binance_trade_"; Sub (back "s")];
                   tags := [ ("asset", back "s"); ("type", back "e");
                             ("source", VString "minions");
                             ("isBuyerMarketMaker", back "m") ];
                   fields := [ ("trade_id", intField,
                                VNumber (Finite (inject_Z (Qfloor id))));
                               ("price", floatField, VNumber (Finite price));
                               ("quantity", floatField, VNumber (Finite quantity)) ];
                   timestamp := back "E" |}] Trade])%list
      /\ log (snd r)
         = (log hw ++ [Debug [Lit "Writing Trade to InfluxDB: \n"; Sub payload];
                       Debug [Lit "Writing Trade to InfluxDB: \n"; Sub payload]])%list)
  /\ (field fields "t" = VUndefined ->
      fst r = inl (invalid "integer" "trade_id" VUndefined)
      /\ out (snd r) = out hw)
  /\ (forall id,
        field fields "t" = VNumber (Finite id) ->
        (- int64_bound < id)%Q -> (id < int64_bound)%Q ->
        is_finite (parseFloat (field fields "p")) = false ->
        fst r = inl (invalid "float" "price" VNull)
        /\ out (snd r) = out hw).
Proof.
  cbv zeta. intros Hs.
  destruct (canonicalTrade_read_back fields) as (l' & Heq & Hc & Hf).
  assert (Hsym : converts (field l' "symbol") = true)
    by (rewrite Hf; apply primitive_converts; exact Hs).
  rewrite Heq, (handleTradeMessage_object l' _ Hc Hsym).
  rewrite (Hf "tradeId"), (Hf "price"), (Hf "quantity"), (Hf "timestamp"),
    (Hf "symbol"), (Hf "eventType"), (Hf "isBuyerMarketMaker").
  cbn [Binance.canonicalTrade field String.eqb Ascii.eqb Bool.eqb].
  split; [|split].
  - intros id price quantity Ht Hlo Hhi Hp Hq HE.
    rewrite Ht, Hp, Hq. cbn [json_clean].
    rewrite (Point_intField_in_range _ _ Hlo Hhi), !Point_floatField_finite.
    unfold ToPrimitive. rewrite (primitive_converts _ HE).
    unfold bind, lift, logger_debug, issue, modify.
    cbn [fst snd out log with_log with_out].
    split; [reflexivity|]. split; [reflexivity|]. now rewrite <- app_assoc.
  - intros Ht. rewrite Ht. cbn [json_clean].
    unfold bind, lift. split; reflexivity.
  - intros id Ht Hlo Hhi Hp.
    rewrite Ht, (json_clean_number (parseFloat (field fields "p"))), Hp.
    cbn [json_clean].
    rewrite (Point_intField_in_range _ _ Hlo Hhi), Point_floatField_null.
    unfold bind, lift. split; reflexivity.
Qed.

(** X18.  No published kline is written.  The kline handler reads
    [openPrice], [closePrice], [highPrice] and [lowPrice], which the
    canonical kline event names [open], [close], [high] and [low].  So for
    every canonical kline event the publisher enqueues, read back from its
    text, the handler throws before it asks for a write: when the symbol
    is a primitive value, it throws the [Error] of the field builder for
    the [openPrice] that is [undefined], after its one log line. *)
Theorem published_kline_is_never_written fields kfields hw :
  let payload := json_clean (Binance.canonicalKline fields kfields) in
  let r := handleKlineMessage payload hw in
  (exists e, fst r = inl e)
  /\ out (snd r) = out hw
  /\ (primitive (field kfields "s") = true ->
      r = (inl (invalid "float" "openPrice" VUndefined),
           with_log hw
             (log hw ++ [Debug [Lit "Writing Kline to InfluxDB: \n"; Sub payload]]))).
Proof.
  cbv zeta.
  destruct (canonicalKline_read_back fields kfields) as (l' & Heq & Hc & Hf).
  rewrite Heq, (handleKlineMessage_object l' hw Hc).
  rewrite (Hf "openPrice"), (Hf "symbol").
  cbn [Binance.canonicalKline field String.eqb Ascii.eqb Bool.eqb json_clean].
  rewrite Point_floatField_undefined. cbv zeta.
  split; [|split].
  - destruct (converts (json_clean (field kfields "s"))); eexists; reflexivity.
  - destruct (converts (json_clean (field kfields "s"))); reflexivity.
  - intros Hs. now rewrite (primitive_converts _ Hs).
Qed.

End WithRuntime.

Import Example.

Lemma writes_only_for_trade_and_kline_witness :
  let data := Queue.delivered (JSON_stringify (Binance.canonicalTrade scenario_trade)) in
  (primitive (VString "trade") = true
   /\ out (snd (handleMessage data initial)) <> out initial)
  /\ exists name,
       chars (VString "trade") = Some name /\ (name = "trade" \/ name = "kline").
Proof.
  cbv zeta.
  assert (H : out (snd (handleMessage
                          (Queue.delivered
                             (JSON_stringify (Binance.canonicalTrade scenario_trade)))
                          initial)) <> out initial)
    by (vm_compute; discriminate).
  split; [split; [reflexivity | exact H]|].
  destruct (writes_only_for_trade_and_kline
              (Queue.delivered (JSON_stringify (Binance.canonicalTrade scenario_trade)))
              initial) as (_ & Hname & _).
  exact (Hname (VObject [("data", VJson (Binance.canonicalTrade scenario_trade))])
               (VJson (Binance.canonicalTrade scenario_trade))
               (json_clean (Binance.canonicalTrade scenario_trade))
               (VString "trade")
               eq_refl eq_refl eq_refl eq_refl eq_refl H).
Defined.

Lemma null_payload_throws_before_the_guard_witness :
  let data := Queue.delivered (JSON_stringify VNull) in
  fst (handleMessage data initial) = inl TypeError
  /\ out (snd (handleMessage data initial)) = [].
Proof.
  cbv zeta.
  destruct (null_payload_throws_before_the_guard
              (Queue.delivered (JSON_stringify VNull))
              (VObject [("data", VJson VNull)]) (VJson VNull) initial
              eq_refl eq_refl eq_refl eq_refl) as [H _].
  rewrite H. split; reflexivity.
Defined.

(** The trade of the first scenario is written, with the id 1, the price
    100.5 and the quantity 2; the same trade without its price is not. *)
Lemma published_trade_gives_one_point_witness :
  (primitive (field scenario_trade "s") = true
   /\ field scenario_trade "t" = VNumber (Finite 1)
   /\ (- int64_bound < 1)%Q /\ (1 < int64_bound)%Q
   /\ parseFloat (field scenario_trade "p") = Finite (201 # 2)
   /\ parseFloat (field scenario_trade "q") = Finite 2
   /\ primitive (field scenario_trade "E") = true)
  /\ fst (handleTradeMessage (json_clean (Binance.canonicalTrade scenario_trade))
            initial) = inr tt
  /\ length (out (snd (handleTradeMessage
                         (json_clean (Binance.canonicalTrade scenario_trade))
                         initial))) = 1%nat
  /\ (is_finite (parseFloat (field [("s", VString "BTCUSDT"); ("t", VNumber (Finite 1))]
                               "p")) = false
      /\ out (snd (handleTradeMessage
                     (json_clean (Binance.canonicalTrade
                                    [("s", VString "BTCUSDT"); ("t", VNumber (Finite 1))]))
                     initial)) = []).
Proof.
  assert (Hlo : (- int64_bound < 1)%Q) by reflexivity.
  assert (Hhi : (1 < int64_bound)%Q) by reflexivity.
  assert (Hp : parseFloat (field scenario_trade "p") = Finite (201 # 2))
    by (vm_compute; reflexivity).
  assert (Hq : parseFloat (field scenario_trade "q") = Finite 2)
    by (vm_compute; reflexivity).
  split; [repeat split; assumption || reflexivity|].
  destruct (published_trade_gives_one_point scenario_trade initial eq_refl)
    as (Hwritten & _).
  destruct (Hwritten 1%Q (201 # 2)%Q 2%Q eq_refl Hlo Hhi Hp Hq eq_refl)
    as (Hret & Hout & _).
  split; [exact Hret|]. split; [now rewrite Hout|].
  split; [reflexivity|].
  destruct (published_trade_gives_one_point
              [("s", VString "BTCUSDT"); ("t", VNumber (Finite 1))] initial eq_refl)
    as (_ & _ & Hdropped).
  exact (proj2 (Hdropped 1%Q eq_refl Hlo Hhi eq_refl)).
Defined.

(** A kline as the exchange sends it, published and read back: the
    handler throws on its [openPrice]. *)
Lemma published_kline_is_never_written_witness :
  primitive (VString "BTCUSDT") = true
  /\ fst (handleKlineMessage
            (json_clean
               (Binance.canonicalKline
                  [("e", VString "kline")]
                  [ ("t", VNumber (Finite 0)); ("T", VNumber (Finite 59999));
                    ("s", VString "BTCUSDT"); ("i", VString "1m");
                    ("o", VString "100.0"); ("c", VString "100.0");
                    ("h", VString "101.0"); ("l", VString "99.0");
                    ("v", VString "1"); ("n", VNumber (Finite 1));
                    ("x", VBoolean false); ("q", VString "100.0");
                    ("V", VString "1") ]))
            initial)
     = inl (Raised {| JS.message :=
                        "invalid float value for field 'openPrice': 'undefined'!" |}).
Proof.
  split; [reflexivity|].
  destruct (published_kline_is_never_written
              [("e", VString "kline")]
              [ ("t", VNumber (Finite 0)); ("T", VNumber (Finite 59999));
                ("s", VString "BTCUSDT"); ("i", VString "1m");
                ("o", VString "100.0"); ("c", VString "100.0");
                ("h", VString "101.0"); ("l", VString "99.0");
                ("v", VString "1"); ("n", VNumber (Finite 1));
                ("x", VBoolean false); ("q", VString "100.0");
                ("V", VString "1") ]
              initial) as (_ & _ & H).
  cbv zeta in H. now rewrite (H eq_refl).
Defined.

End Points.

(* ================================================================== *)
(** * Subscribing and disconnecting *)
(* ================================================================== *)

Module Disconnecting.
Import JS Subscriptions.

(** A loop whose body only issues a request issues one request an element,
    in order. *)
Lemma forEach_issue {A} (g : A -> request) (l : list A) : forall w,
  let r := forEach l (fun x => issue (g x)) w in
  fst r = inr tt /\ wsConnections (snd r) = wsConnections w
  /\ log (snd r) = log w /\ out (snd r) = (out w ++ map g l)%list.
Proof.
  induction l as [|x l IH]; intros w; cbv zeta.
  - simpl. rewrite app_nil_r. repeat split; reflexivity.
  - change (forEach (x :: l) (fun x => issue (g x)) w)
      with (forEach l (fun x => issue (g x))
              {| wsConnections := wsConnections w; log := log w;
                 out := out w ++ [g x] |}).
    destruct (IH {| wsConnections := wsConnections w; log := log w;
                    out := out w ++ [g x] |}) as (H1 & H2 & H3 & H4).
    cbv zeta in H1, H2, H3, H4. rewrite H1, H2, H3, H4.
    cbn [wsConnections log out map]. rewrite <- app_assoc.
    repeat split; reflexivity.
Qed.

(** [unsubscribe] without its third argument. *)
Lemma unsubscribe_None symbol w :
  unsubscribe symbol None w
  = (inl TypeError,
     {| wsConnections := wsConnections w; log := log w;
        out := (out w ++ [WsUnsubscribe symbol None; RedisRemove symbol])%list |}).
Proof.
  unfold unsubscribe, bind, issue, throw. cbn [wsConnections log out].
  now rewrite <- app_assoc.
Qed.

Lemma forEach_none symbol result : forall w,
  ~ In symbol result ->
  forEach result (fun value =>
    if (value =? symbol)%string then unsubscribe value None else ret tt) w
  = (inr tt, w).
Proof.
  induction result as [|v result IH]; intros w Hn; [reflexivity|].
  cbn [forEach]. unfold bind at 1.
  destruct (String.eqb_spec v symbol) as [->|_]; [elim Hn; now left|].
  unfold ret at 1. apply IH. intros Hin. apply Hn. now right.
Qed.

Lemma forEach_hit symbol result : forall w,
  In symbol result ->
  forEach result (fun value =>
    if (value =? symbol)%string then unsubscribe value None else ret tt) w
  = (inl TypeError,
     {| wsConnections := wsConnections w; log := log w;
        out := (out w ++ [WsUnsubscribe symbol None; RedisRemove symbol])%list |}).
Proof.
  induction result as [|v result IH]; intros w Hin; [destruct Hin|].
  cbn [forEach]. unfold bind at 1.
  destruct (String.eqb_spec v symbol) as [->|Hne].
  - now rewrite unsubscribe_None.
  - unfold ret at 1. apply IH. destruct Hin; [contradiction | assumption].
Qed.

Lemma subscribe_unfold symbol intervals w :
  subscribe symbol intervals w
  = forEach intervals (fun interval => issue (WsKline symbol interval))
      {| wsConnections := wsConnections w; log := log w;
         out := (out w ++ [WsTrade symbol]) ++ [RedisLpush symbol] |}.
Proof. reflexivity. Qed.

Lemma unsubscribe_unfold symbol intervals w :
  unsubscribe symbol (Some intervals) w
  = match forEach intervals
            (fun interval => issue (WsUnsubscribe symbol (Some interval)))
            {| wsConnections := wsConnections w; log := log w;
               out := (out w ++ [WsUnsubscribe symbol None])
                        ++ [RedisRemove symbol] |} with
    | (inr _, w') => Map_delete symbol w'
    | (inl e, w') => (inl e, w')
    end.
Proof. reflexivity. Qed.

(** X20.  [disconnect(symbol)], once the list of symbols arrives.  If the
    symbol is in the list, the callback throws a [TypeError]: [unsubscribe]
    is called without intervals, so after the trade stream was unsubscribed
    and the symbol removed from the store, its loop over the intervals
    throws; no kline stream is unsubscribed, [wsConnections] is not
    touched and the closing debug line is not written.  If the symbol is
    not in the list nothing is asked and the debug line is written; on an
    error only the error is printed. *)
Theorem disconnect_of_a_listed_symbol_throws symbol result w :
  (forall e,
      disconnectCallback symbol (Some e) result w
      = (inr tt, {| wsConnections := wsConnections w;
                    log := (log w ++ [ConsoleError e])%list; out := out w |}))
  /\ (~ In symbol result ->
      disconnectCallback symbol None result w
      = (inr tt,
         {| wsConnections := wsConnections w;
            log := (log w ++ [DebugLine [Lit "Unsubscribed:\n            ";
                                         Sub (joined result)]])%list;
            out := out w |}))
  /\ (In symbol result ->
      disconnectCallback symbol None result w
      = (inl TypeError,
         {| wsConnections := wsConnections w; log := log w;
            out := (out w ++ [WsUnsubscribe symbol None; RedisRemove symbol])%list |})).
Proof.
  split; [reflexivity|]. split; intros H; unfold disconnectCallback, bind.
  - now rewrite (forEach_none symbol result w H).
  - now rewrite (forEach_hit symbol result w H).
Qed.

(** X21.  [disconnectAll()], once the list of symbols arrives: with an
    empty list it writes the debug line; with any other list it throws a
    [TypeError] at the first symbol, after that symbol's trade stream was
    unsubscribed and the symbol removed from the store.  No later symbol
    is reached and no kline stream is unsubscribed. *)
Theorem disconnectAll_stops_at_the_first_symbol value rest w :
  disconnectAllCallback None [] w
  = (inr tt,
     {| wsConnections := wsConnections w;
        log := (log w ++ [DebugLine [Lit "Unsubscribed:\n            ";
                                     Sub (joined [])]])%list;
        out := out w |})
  /\ disconnectAllCallback None (value :: rest) w
     = (inl TypeError,
        {| wsConnections := wsConnections w; log := log w;
           out := (out w ++ [WsUnsubscribe value None; RedisRemove value])%list |}).
Proof.
  split; [reflexivity|].
  unfold disconnectAllCallback. cbn [forEach]. unfold bind.
  now rewrite unsubscribe_None.
Qed.

(** X22.  [subscribe] opens the trade stream, stores the symbol and opens
    one kline stream an interval, in order; [unsubscribe] with the same
    intervals closes the trade stream, removes the symbol from the store
    and closes those kline streams, in the same order, returns, and leaves
    the symbol out of [wsConnections] while keeping every other key. *)
Theorem unsubscribe_closes_what_subscribe_opened symbol intervals w :
  let s := subscribe symbol intervals w in
  let u := unsubscribe symbol (Some intervals) w in
  fst s = inr tt
  /\ out (snd s)
     = (out w ++ WsTrade symbol :: RedisLpush symbol
                   :: map (WsKline symbol) intervals)%list
  /\ fst u = inr tt
  /\ out (snd u)
     = (out w ++ WsUnsubscribe symbol None :: RedisRemove symbol
                   :: map (fun i => WsUnsubscribe symbol (Some i)) intervals)%list
  /\ ~ In symbol (wsConnections (snd u))
  /\ (forall k, k <> symbol ->
                In k (wsConnections (snd u)) <-> In k (wsConnections w))
  /\ wsConnections (snd s) = wsConnections w.
Proof.
  cbv zeta.
  assert (Hs : fst (subscribe symbol intervals w) = inr tt
               /\ out (snd (subscribe symbol intervals w))
                  = (out w ++ WsTrade symbol :: RedisLpush symbol
                                :: map (WsKline symbol) intervals)%list
               /\ wsConnections (snd (subscribe symbol intervals w)) = wsConnections w).
  { rewrite subscribe_unfold.
    destruct (forEach_issue (WsKline symbol) intervals
                {| wsConnections := wsConnections w; log := log w;
                   out := (out w ++ [WsTrade symbol]) ++ [RedisLpush symbol] |})
      as (H1 & H2 & H3 & H4).
    cbv zeta in H1, H2, H3, H4. cbn [wsConnections log out] in *.
    rewrite H1, H4, H2. rewrite <- !app_assoc. repeat split; reflexivity. }
  destruct Hs as (Hs1 & Hs2 & Hs3).
  split; [exact Hs1|]. split; [exact Hs2|].
  rewrite unsubscribe_unfold.
  destruct (forEach_issue (fun i => WsUnsubscribe symbol (Some i)) intervals
              {| wsConnections := wsConnections w; log := log w;
                 out := (out w ++ [WsUnsubscribe symbol None])
                          ++ [RedisRemove symbol] |})
    as (H1 & H2 & H3 & H4).
  cbv zeta in H1, H2, H3, H4. cbn [wsConnections log out] in *.
  destruct (forEach intervals
              (fun interval => issue (WsUnsubscribe symbol (Some interval)))
              {| wsConnections := wsConnections w; log := log w;
                 out := (out w ++ [WsUnsubscribe symbol None])
                          ++ [RedisRemove symbol] |}) as [[e | []] w'].
  { discriminate H1. }
  cbn [fst snd] in *. unfold Map_delete. cbn [fst snd wsConnections out].
  rewrite H2, H4, <- !app_assoc.
  split; [reflexivity|]. split; [reflexivity|]. split; [|split; [|exact Hs3]].
  - intros Hin. apply filter_In in Hin as [_ Hneq].
    now rewrite String.eqb_refl in Hneq.
  - intros k Hk. rewrite filter_In. split; [now intros [? _]|].
    intros Hin. split; [assumption|].
    destruct (String.eqb_spec k symbol); [contradiction | reflexivity].
Qed.

Lemma unsubscribe_closes_what_subscribe_opened_witness :
  let w := {| wsConnections := ["BTCUSDT"; "ETHUSDT"]; log := []; out := [] |} in
  "ETHUSDT" <> "BTCUSDT"
  /\ In "ETHUSDT" (wsConnections (snd (unsubscribe "BTCUSDT" (Some [VString "1m"]) w)))
  /\ ~ In "BTCUSDT" (wsConnections (snd (unsubscribe "BTCUSDT" (Some [VString "1m"]) w))).
Proof.
  cbv zeta.
  assert (Hne : "ETHUSDT" <> "BTCUSDT") by discriminate.
  destruct (unsubscribe_closes_what_subscribe_opened "BTCUSDT" [VString "1m"]
              {| wsConnections := ["BTCUSDT"; "ETHUSDT"]; log := []; out := [] |})
    as (_ & _ & _ & _ & Hout & Hkeep & _).
  split; [exact Hne|]. split; [|exact Hout].
  apply (Hkeep "ETHUSDT" Hne). right. left. reflexivity.
Defined.

Lemma disconnect_of_a_listed_symbol_throws_witness :
  let w := {| wsConnections := []; log := []; out := [] |} in
  (~ In "ETHUSDT" ["BTCUSDT"]
   /\ fst (disconnectCallback "ETHUSDT" None ["BTCUSDT"] w) = inr tt)
  /\ (In "BTCUSDT" ["ETHUSDT"; "BTCUSDT"]
      /\ fst (disconnectCallback "BTCUSDT" None ["ETHUSDT"; "BTCUSDT"] w)
         = inl TypeError).
Proof.
  cbv zeta.
  assert (Hn : ~ In "ETHUSDT" ["BTCUSDT"]) by (simpl; intuition discriminate).
  assert (Hi : In "BTCUSDT" ["ETHUSDT"; "BTCUSDT"]) by (right; left; reflexivity).
  split; split; try assumption.
  - destruct (disconnect_of_a_listed_symbol_throws "ETHUSDT" ["BTCUSDT"]
                {| wsConnections := []; log := []; out := [] |}) as (_ & H & _).
    now rewrite (H Hn).
  - destruct (disconnect_of_a_listed_symbol_throws "BTCUSDT" ["ETHUSDT"; "BTCUSDT"]
                {| wsConnections := []; log := []; out := [] |}) as (_ & _ & H).
    now rewrite (H Hi).
Defined.

End Disconnecting.

(* ================================================================== *)
(** * The worker pool *)
(* ================================================================== *)

Module Workers.
Import JS Pool.

Section WithEnv.
Context {E : Binance.Env}.

Lemma stopEach_marks ids : forall w,
  let r := stopEach ids w in
  fst r = inr tt
  /\ workerProcesses (snd r) = map (marked ids) (workerProcesses w)
  /\ created (snd r) = created w /\ out (snd r) = out w
  /\ length (log (snd r)) = (length (log w) + length ids)%nat.
Proof.
  induction ids as [|i ids IH]; intros w; cbv zeta.
  - simpl. rewrite Nat.add_0_r. repeat split; try reflexivity.
    unfold marked. simpl. now rewrite map_id.
  - cbn [stopEach]. unfold bind at 1. unfold worker_stop, bind, logger.
    match goal with
    | |- context [stopEach ids ?w1] =>
        destruct (IH w1) as (H1 & H2 & H3 & H4 & H5)
    end.
    cbv zeta in H1, H2, H3, H4, H5. rewrite H1, H2, H3, H4, H5.
    cbn [workerProcesses created log out length].
    rewrite length_app. cbn [length].
    repeat split; try reflexivity; [|lia].
    rewrite map_map. apply map_ext. intros p. unfold marked. cbn [existsb].
    destruct (Nat.eqb_spec (id p) i) as [Heq|Hne]; cbn [id orb].
    + rewrite Heq. destruct (existsb (Nat.eqb i) ids); reflexivity.
    + reflexivity.
Qed.

Lemma stop_unfold w :
  stop w
  = stopEach (map id (workerProcesses w))
      {| workerProcesses := workerProcesses w; created := created w;
         log := log w ++ [Debug [Lit "Stopping Hopper"]]; out := out w |}.
Proof. reflexivity. Qed.

(** X23.  [start(numThreads)] never gets past its first worker.  With a
    positive [numThreads] it throws a [TypeError] (the [main] of a worker
    returns nothing, and [.then] is read of it), after exactly one worker
    was added to [workerProcesses] and exactly one consumer was registered
    on the queue, whatever [numThreads] is.  With [numThreads] zero or
    negative it only writes its log line. *)
Theorem start_throws_after_the_first_worker numThreads w :
  (numThreads <= 0 ->
   start numThreads w
   = (inr tt, {| workerProcesses := workerProcesses w; created := created w;
                 log := (log w ++ [Info [Lit "Hopper started"]])%list;
                 out := out w |}))
  /\ (0 < numThreads ->
      let r := start numThreads w in
      fst r = inl TypeError
      /\ workerProcesses (snd r)
         = (workerProcesses w ++ [{| id := created w; stopped := false |}])%list
      /\ out (snd r) = (out w ++ [Consume Binance.wsBinance])%list
      /\ log (snd r)
         = (log w ++
            [Info [Lit "Hopper started"];
             Info [Lit "Starting Hopper No.";
                   Sub (VNumber (Finite (inject_Z
                          (Z.of_nat (length (workerProcesses w)) + 1))))]])%list).
Proof.
  split; intros H; unfold start.
  - replace (Z.to_nat numThreads) with 0%nat by lia. reflexivity.
  - destruct (Z.to_nat numThreads) as [|n] eqn:Hn; [lia|].
    cbv zeta. cbn [startLoop]. unfold bind, logger, startWorkerProcess, bind,
      logger, startCallback, bind, main, issue, throw.
    cbn [fst snd workerProcesses created log out id].
    rewrite <- app_assoc. repeat split; reflexivity.
Qed.

(** X24.  [stop()] returns, marks every worker of the pool stopped, and
    does nothing else to the pool: the workers stay in [workerProcesses],
    in order, and nothing is asked of the queue, so a registered consumer
    stays registered.  It writes one line of its own and one a worker. *)
Theorem stop_marks_every_worker_and_cancels_nothing w :
  let r := stop w in
  fst r = inr tt
  /\ map id (workerProcesses (snd r)) = map id (workerProcesses w)
  /\ Forall (fun p => stopped p = true) (workerProcesses (snd r))
  /\ out (snd r) = out w
  /\ length (log (snd r)) = (length (log w) + 1 + length (workerProcesses w))%nat.
Proof.
  cbv zeta. rewrite stop_unfold.
  destruct (stopEach_marks (map id (workerProcesses w))
              {| workerProcesses := workerProcesses w; created := created w;
                 log := log w ++ [Debug [Lit "Stopping Hopper"]]; out := out w |})
    as (H1 & H2 & H3 & H4 & H5).
  cbv zeta in H1, H2, H3, H4, H5. cbn [workerProcesses created log out] in *.
  rewrite H1, H2, H4, H5. rewrite length_app, length_map. cbn [length].
  split; [reflexivity|]. split; [|split; [|split; [reflexivity | lia]]].
  - rewrite map_map. apply map_ext. intros p. unfold marked.
    destruct (existsb _ _); reflexivity.
  - apply Forall_forall. intros p' Hin. apply in_map_iff in Hin as (p & <- & Hin).
    unfold marked.
    assert (Hex : existsb (Nat.eqb (id p)) (map id (workerProcesses w)) = true).
    { apply existsb_exists. exists (id p). split; [now apply in_map | apply Nat.eqb_refl]. }
    now rewrite Hex.
Qed.

End WithEnv.

Import Example.

Lemma start_throws_after_the_first_worker_witness :
  (0 <= 0 /\ fst (start 0 initial) = inr tt)
  /\ (0 < 4
      /\ fst (start 4 initial) = inl TypeError
      /\ length (workerProcesses (snd (start 4 initial))) = 1%nat
      /\ out (snd (start 4 initial)) = [Consume Binance.wsBinance]).
Proof.
  assert (H0 : 0 <= 0) by lia. assert (H4 : 0 < 4) by lia.
  destruct (start_throws_after_the_first_worker 0 initial) as [Hz _].
  destruct (start_throws_after_the_first_worker 4 initial) as [_ Hp].
  split; split; try assumption.
  - now rewrite (Hz H0).
  - destruct (Hp H4) as (Hf & Hw & Ho & _). cbv zeta in *.
    rewrite Hf, Hw, Ho. repeat split; reflexivity.
Defined.

End Workers.
